(** * llm-scan-tool: the collector and its file helpers

    A shallow embedding of the Go packages [internal/files] (bounded head
    reads, glob matching, the gitignore matcher) and [internal/collect]
    (the walk, the per-file classification and extractors, the worker pool,
    the coverage consolidation and the final sort), followed by the
    properties of the scan report that are checked against them.

    Conventions of the embedding:
    - a Go [string] is a byte string, here Rocq's [string] (a list of 8-bit
      [ascii]); the Unicode-aware helpers of package [strings] are modelled
      on their ASCII behaviour (white space is TAB, LF, VT, FF, CR and
      SPACE; case mapping touches [A-Z] only);
    - a Go [int] is a [Z] kept in the signed 64-bit range by [wrap64];
    - a [float64] is a primitive binary64 float;
    - a pair [(T, error)] whose value is meaningless on error is a
      [result]; a pair that carries partial data with the error is a
      product with [option error];
    - [nil] and empty slices are both the empty list;
    - the disk is a function from absolute paths to files, the directory
      under the root is a tree of entries in ReadDir order;
    - the goroutines of the scan are a pool whose moves (dispatch, cancel,
      merge under the mutex, count under the mutex) are chosen by a
      schedule; a property of Scan is a property of every schedule;
    - the libraries outside the repository that the code calls with rules
      of their own (go-gitignore, encoding/json) are interfaces; the
      standard library's [strings], [unicode/utf8] and [path/filepath] are
      written out. *)

From Stdlib Require Import ZArith String Ascii List Bool Lia.
From Stdlib Require Import Floats.PrimFloat Floats.SpecFloat Floats.FloatOps.
From stdpp Require Import base list strings gmap sorting.

#[local] Set Warnings "-register-all".

#[local] Open Scope string_scope.
#[local] Open Scope list_scope.
#[local] Open Scope Z_scope.

(** ** Go basics *)

Inductive error : Type :=
| PathError (op path : string)
| ErrBadPattern
| EOF
| ErrUnexpectedEOF.

Inductive result (A : Type) : Type :=
| Ok (a : A)
| Err (e : error).
Arguments Ok {A} a.
Arguments Err {A} e.

Definition wrap64 (z : Z) : Z := (z + 2 ^ 63) mod 2 ^ 64 - 2 ^ 63.

Definition float64_of_int (z : Z) : float :=
  SF2Prim (binary_normalize prec emax z 0 false).

(** ** Package [strings] *)

Module GoStrings.

Definition isSpace (c : ascii) : bool :=
  Ascii.eqb c "009" || Ascii.eqb c "010" || Ascii.eqb c "011"
  || Ascii.eqb c "012" || Ascii.eqb c "013" || Ascii.eqb c " ".

(* s[n:] and s[:n] *)
Fixpoint sliceFrom (n : nat) (s : string) : string :=
  match n, s with
  | O, _ => s
  | S n', String _ s' => sliceFrom n' s'
  | S _, EmptyString => EmptyString
  end.

Fixpoint sliceTo (n : nat) (s : string) : string :=
  match n, s with
  | O, _ => EmptyString
  | S n', String c s' => String c (sliceTo n' s')
  | S _, EmptyString => EmptyString
  end.

Fixpoint HasPrefix (s prefix : string) : bool :=
  match prefix, s with
  | EmptyString, _ => true
  | String p ps, String c cs => Ascii.eqb c p && HasPrefix cs ps
  | String _ _, EmptyString => false
  end.

Definition HasSuffix (s suffix : string) : bool :=
  (String.length suffix <=? String.length s)%nat
  && String.eqb (sliceFrom (String.length s - String.length suffix) s) suffix.

Definition TrimPrefix (s prefix : string) : string :=
  if HasPrefix s prefix then sliceFrom (String.length prefix) s else s.

Definition TrimSuffix (s suffix : string) : string :=
  if HasSuffix s suffix
  then sliceTo (String.length s - String.length suffix) s else s.

Fixpoint Contains (s substr : string) : bool :=
  HasPrefix s substr
  || match s with
     | EmptyString => false
     | String _ s' => Contains s' substr
     end.

Fixpoint ContainsByte (s : string) (c : ascii) : bool :=
  match s with
  | EmptyString => false
  | String d s' => Ascii.eqb d c || ContainsByte s' c
  end.

Fixpoint TrimLeftFunc (f : ascii -> bool) (s : string) : string :=
  match s with
  | EmptyString => EmptyString
  | String c s' => if f c then TrimLeftFunc f s' else s
  end.

Fixpoint TrimRightFunc (f : ascii -> bool) (s : string) : string :=
  match s with
  | EmptyString => EmptyString
  | String c s' =>
      match TrimRightFunc f s' with
      | EmptyString => if f c then EmptyString else String c EmptyString
      | r => String c r
      end
  end.

Definition TrimFunc (f : ascii -> bool) (s : string) : string :=
  TrimRightFunc f (TrimLeftFunc f s).

Definition TrimSpace (s : string) : string := TrimFunc isSpace s.
Definition Trim (s cutset : string) : string := TrimFunc (ContainsByte cutset) s.
Definition TrimLeft (s cutset : string) : string :=
  TrimLeftFunc (ContainsByte cutset) s.

(* Split and SplitN are used with one-byte separators only. *)
Fixpoint Split (s : string) (sep : ascii) : list string :=
  match s with
  | EmptyString => [EmptyString]
  | String c s' =>
      if Ascii.eqb c sep then EmptyString :: Split s' sep
      else match Split s' sep with
           | h :: t => String c h :: t
           | [] => [String c EmptyString]
           end
  end.

(* SplitN(s, sep, 2)[0]: the text before the first separator. *)
Fixpoint SplitN2_0 (s : string) (sep : ascii) : string :=
  match s with
  | EmptyString => EmptyString
  | String c s' => if Ascii.eqb c sep then EmptyString else String c (SplitN2_0 s' sep)
  end.

Fixpoint Fields (s : string) : list string :=
  match s with
  | EmptyString => []
  | String c s' =>
      let r := Fields s' in
      if isSpace c then r
      else match s' with
           | EmptyString => [String c EmptyString]
           | String c' _ =>
               if isSpace c' then String c EmptyString :: r
               else match r with
                    | h :: t => String c h :: t
                    | [] => [String c EmptyString]
                    end
           end
  end.

Definition lowerByte (c : ascii) : ascii :=
  let n := nat_of_ascii c in
  if ((65 <=? n) && (n <=? 90))%nat then ascii_of_nat (n + 32) else c.

Fixpoint ToLower (s : string) : string :=
  match s with
  | EmptyString => EmptyString
  | String c s' => String (lowerByte c) (ToLower s')
  end.

Definition EqualFold (s t : string) : bool := String.eqb (ToLower s) (ToLower t).

Fixpoint ReplaceAll (s : string) (old new : ascii) : string :=
  match s with
  | EmptyString => EmptyString
  | String c s' => String (if Ascii.eqb c old then new else c) (ReplaceAll s' old new)
  end.

Fixpoint Join (elems : list string) (sep : string) : string :=
  match elems with
  | [] => EmptyString
  | [e] => e
  | e :: rest => e +:+ sep +:+ Join rest sep
  end.

End GoStrings.

Definition LF : ascii := "010"%char.
Definition CR : ascii := "013"%char.

(** ** Package [unicode/utf8] *)

Module Utf8.

Definition RuneError : Z := 65533.

Definition byteZ (c : ascii) : Z := Z.of_nat (nat_of_ascii c).

Definition isCont (c : ascii) : bool := (128 <=? byteZ c) && (byteZ c <=? 191).

(* DecodeRuneInString: the first rune of [s] and its width in bytes;
   (RuneError, 0) on the empty string, (RuneError, 1) on a bad encoding. *)
Definition DecodeRuneInString (s : string) : Z * nat :=
  match s with
  | EmptyString => (RuneError, 0%nat)
  | String c0 s1 =>
      let b0 := byteZ c0 in
      if b0 <? 128 then (b0, 1%nat)
      else if (b0 <? 194) || (244 <? b0) then (RuneError, 1%nat)
      else
        match s1 with
        | EmptyString => (RuneError, 1%nat)
        | String c1 s2 =>
            let b1 := byteZ c1 in
            let lo := if b0 =? 224 then 160 else if b0 =? 240 then 144 else 128 in
            let hi := if b0 =? 237 then 159 else if b0 =? 244 then 143 else 191 in
            if (b1 <? lo) || (hi <? b1) then (RuneError, 1%nat)
            else if b0 <? 224 then
              (Z.lor (Z.shiftl (Z.land b0 31) 6) (Z.land b1 63), 2%nat)
            else
              match s2 with
              | EmptyString => (RuneError, 1%nat)
              | String c2 s3 =>
                  let b2 := byteZ c2 in
                  if negb (isCont c2) then (RuneError, 1%nat)
                  else if b0 <? 240 then
                    (Z.lor (Z.lor (Z.shiftl (Z.land b0 15) 12)
                                  (Z.shiftl (Z.land b1 63) 6))
                           (Z.land b2 63), 3%nat)
                  else
                    match s3 with
                    | EmptyString => (RuneError, 1%nat)
                    | String c3 _ =>
                        let b3 := byteZ c3 in
                        if negb (isCont c3) then (RuneError, 1%nat)
                        else
                          (Z.lor (Z.lor (Z.lor (Z.shiftl (Z.land b0 7) 18)
                                               (Z.shiftl (Z.land b1 63) 12))
                                        (Z.shiftl (Z.land b2 63) 6))
                                 (Z.land b3 63), 4%nat)
                    end
              end
        end
  end.

End Utf8.

(** ** Package [path/filepath] (Unix: the separator is [/]) *)

Module Filepath.
Import GoStrings.

Definition Separator : ascii := "/"%char.
Definition isSep (c : ascii) : bool := Ascii.eqb c Separator.

Definition ToSlash (path : string) : string := path.

Fixpoint lastElem (s : string) : string :=
  match s with
  | EmptyString => EmptyString
  | String c s' =>
      if ContainsByte s' Separator then lastElem s'
      else if isSep c then s' else s
  end.

Definition Base (path : string) : string :=
  if String.eqb path "" then "."
  else
    let p := lastElem (TrimRightFunc isSep path) in
    if String.eqb p "" then "/" else p.

Fixpoint Ext (path : string) : string :=
  match path with
  | EmptyString => EmptyString
  | String c s' =>
      if ContainsByte s' "." || ContainsByte s' Separator then Ext s'
      else if Ascii.eqb c "." then path else EmptyString
  end.

(* Join and Rel on the paths the collector builds: [dir] is clean and
   [name] is a clean relative path, so the final Clean changes nothing;
   [targ] is [base] or lies under it. *)
Definition Join (dir name : string) : string :=
  if HasSuffix dir "/" then dir +:+ name else dir +:+ "/" +:+ name.

Definition Rel (base targ : string) : string :=
  if String.eqb targ base then "."
  else TrimPrefix targ (if HasSuffix base "/" then base else base +:+ "/").

(** [Match], after the standard library's implementation.  Its loops are
    bounded by the length of the pattern (of the chunk, of the class) they
    scan: every round takes at least one byte of it, so one round more than
    there are bytes is never reached. *)

(* scanChunk: the leading stars, the star-free chunk that follows and the
   rest of the pattern. [scanEnd] is the index where the chunk ends. *)
Fixpoint skipStars (pattern : string) : bool * string :=
  match pattern with
  | String "*" p' => (true, snd (skipStars p'))
  | _ => (false, pattern)
  end.

Fixpoint scanEnd (pattern : string) (inrange : bool) : nat :=
  match pattern with
  | EmptyString => 0%nat
  | String "\" EmptyString => 1%nat
  | String "\" (String _ p') => S (S (scanEnd p' inrange))
  | String "[" p' => S (scanEnd p' true)
  | String "]" p' => S (scanEnd p' false)
  | String "*" p' => if inrange then S (scanEnd p' inrange) else 0%nat
  | String _ p' => S (scanEnd p' inrange)
  end.

Definition scanChunk (pattern : string) : bool * string * string :=
  let '(star, p) := skipStars pattern in
  let i := scanEnd p false in
  (star, sliceTo i p, sliceFrom i p).

(* getEsc: a possibly escaped character of a character class. *)
Definition getEsc (chunk : string) : result (Z * string) :=
  match chunk with
  | EmptyString => Err ErrBadPattern
  | String c rest =>
      if Ascii.eqb c "-" || Ascii.eqb c "]" then Err ErrBadPattern
      else
        let chunk1 := if Ascii.eqb c "\" then rest else chunk in
        if String.eqb chunk1 "" then Err ErrBadPattern
        else
          let '(r, n) := Utf8.DecodeRuneInString chunk1 in
          let nchunk := sliceFrom n chunk1 in
          if ((r =? Utf8.RuneError) && (n =? 1)%nat) || String.eqb nchunk ""
          then Err ErrBadPattern
          else Ok (r, nchunk)
  end.

(* The range loop of a character class: [r] is the rune under test. *)
Fixpoint classRanges (fuel : nat) (chunk : string) (r : Z)
    (matched : bool) (nrange : nat) : result (bool * string) :=
  match fuel with
  | O => Err ErrBadPattern
  | S fuel' =>
      match chunk, nrange with
      | String "]" chunk', S _ => Ok (matched, chunk')
      | _, _ =>
          match getEsc chunk with
          | Err e => Err e
          | Ok (lo, chunk1) =>
              let step hi chunk2 :=
                classRanges fuel' chunk2 r
                  (matched || ((lo <=? r) && (r <=? hi))) (S nrange) in
              match chunk1 with
              | String "-" chunk1' =>
                  match getEsc chunk1' with
                  | Err e => Err e
                  | Ok (hi, chunk2) => step hi chunk2
                  end
              | _ => step lo chunk1
              end
          end
      end
  end.

(* matchChunk: does [chunk] match a prefix of [s]?  The rest of [s] when it
   does.  After a mismatch the chunk is still scanned for its syntax. *)
Fixpoint matchChunkLoop (fuel : nat) (chunk s : string) (failed : bool)
    : string * bool * option error :=
  match fuel with
  | O => (EmptyString, false, Some ErrBadPattern)
  | S fuel' =>
      match chunk with
      | EmptyString =>
          if failed then (EmptyString, false, None) else (s, true, None)
      | String c chunk' =>
          let failed := failed || String.eqb s "" in
          let literal (lit : ascii) (chunk2 : string) :=
            if failed then matchChunkLoop fuel' chunk2 s true
            else match s with
                 | String d s' =>
                     matchChunkLoop fuel' chunk2 s' (negb (Ascii.eqb lit d))
                 | EmptyString => matchChunkLoop fuel' chunk2 s true
                 end in
          if Ascii.eqb c "[" then
            let '(r, s1) :=
              if failed then (0, s)
              else let '(r, n) := Utf8.DecodeRuneInString s in (r, sliceFrom n s) in
            let '(negated, chunk1) :=
              match chunk' with
              | String "^" chunk'' => (true, chunk'')
              | _ => (false, chunk')
              end in
            match classRanges (S (String.length chunk1)) chunk1 r false 0 with
            | Err e => (EmptyString, false, Some e)
            | Ok (matched, chunk2) =>
                matchChunkLoop fuel' chunk2 s1 (failed || Bool.eqb matched negated)
            end
          else if Ascii.eqb c "?" then
            if failed then matchChunkLoop fuel' chunk' s true
            else
              match s with
              | String d _ =>
                  let '(_, n) := Utf8.DecodeRuneInString s in
                  matchChunkLoop fuel' chunk' (sliceFrom n s) (isSep d)
              | EmptyString => matchChunkLoop fuel' chunk' s true
              end
          else if Ascii.eqb c "\" then
            match chunk' with
            | EmptyString => (EmptyString, false, Some ErrBadPattern)
            | String e chunk'' => literal e chunk''
            end
          else literal c chunk'
      end
  end.

Definition matchChunk (chunk s : string) : string * bool * option error :=
  matchChunkLoop (S (String.length chunk)) chunk s false.

(* The star loop: try the chunk after skipping i+1 bytes of [name], never
   across a separator.  [Some (inl t)]: matched, the name continues at [t];
   [Some (inr e)]: bad pattern; [None]: no position matches. *)
Fixpoint starLoop (chunk name : string) (lastChunk : bool)
    : option (string + error) :=
  match name with
  | EmptyString => None
  | String c name' =>
      if isSep c then None
      else
        match matchChunk chunk name' with
        | (t, true, _) =>
            if lastChunk && negb (String.eqb t "") then starLoop chunk name' lastChunk
            else Some (inl t)
        | (_, false, Some e) => Some (inr e)
        | (_, false, None) => starLoop chunk name' lastChunk
        end
  end.

(* After a failed match the rest of the pattern is still checked for its
   syntax. *)
Fixpoint validateRest (fuel : nat) (pattern : string) : option error :=
  match fuel with
  | O => None
  | S fuel' =>
      if String.eqb pattern "" then None
      else
        let '(_, chunk, rest) := scanChunk pattern in
        match matchChunk chunk "" with
        | (_, _, Some e) => Some e
        | (_, _, None) => validateRest fuel' rest
        end
  end.

Fixpoint MatchLoop (fuel : nat) (pattern name : string) : bool * option error :=
  match fuel with
  | O => (false, Some ErrBadPattern)
  | S fuel' =>
      if String.eqb pattern "" then (String.eqb name "", None)
      else
        let '(star, chunk, rest) := scanChunk pattern in
        if star && String.eqb chunk "" then
          (negb (ContainsByte name Separator), None)
        else
          let '(t, ok, err) := matchChunk chunk name in
          if ok && (String.eqb t "" || negb (String.eqb rest "")) then
            MatchLoop fuel' rest t
          else
            match err with
            | Some e => (false, Some e)
            | None =>
                match (if star then starLoop chunk name (String.eqb rest "")
                       else None) with
                | Some (inl t') => MatchLoop fuel' rest t'
                | Some (inr e) => (false, Some e)
                | None => (false, validateRest fuel' rest)
                end
            end
  end.

Definition Match (pattern name : string) : bool * option error :=
  MatchLoop (S (String.length pattern)) pattern name.

End Filepath.


(** ** The file system seen by the scan *)

Import GoStrings.

(* A file delivers [contents] to a sequential reader and then ends: with
   [EOF] for an ordinary file, with another error when a read fails. *)
Record file : Type := { contents : string; ending : error }.

(* os.Open by absolute path. *)
Definition filesystem : Type := string -> result file.

(* A directory entry as ReadDir lists it (entries sorted by file name). *)
Inductive node : Type :=
| File (name : string)
| Dir (name : string) (entries : list node).

Definition nodeName (n : node) : string :=
  match n with File name => name | Dir name _ => name end.

Definition IsDir (n : node) : bool :=
  match n with File _ => false | Dir _ _ => true end.

(* os.ReadFile: everything up to EOF, or the error that interrupts it. *)
Definition ReadFile (fs : filesystem) (path : string) : result string :=
  match fs path with
  | Err e => Err e
  | Ok f => match ending f with EOF => Ok (contents f) | e => Err e end
  end.

(* io.ReadFull(r, buf[:k]): exactly [k] bytes, or what is left with the
   reason why there is no more. *)
Definition ReadFull (r : file) (k : nat) : string * option error * file :=
  let n := String.length (contents r) in
  if (k <=? n)%nat then
    (sliceTo k (contents r), None,
     {| contents := sliceFrom k (contents r); ending := ending r |})
  else
    (contents r,
     Some match ending r with
          | EOF => if (n =? 0)%nat then EOF else ErrUnexpectedEOF
          | e => e
          end,
     {| contents := EmptyString; ending := ending r |}).

(* (bufio.Reader).Read(buf) with len(buf) = k > 0. *)
Definition Read (r : file) (k : nat) : string * option error * file :=
  if String.eqb (contents r) "" then (EmptyString, Some (ending r), r)
  else
    (sliceTo k (contents r), None,
     {| contents := sliceFrom k (contents r); ending := ending r |}).

(* filepath.WalkDir and filepath.Walk.  The visitor answers nil
   ([Continue]) or SkipDir; the walk stops descending into a directory on
   SkipDir and leaves the enclosing directory when a file answers SkipDir.
   A directory that cannot be read is one whose listing is cut short: the
   visitors below answer nil to the error call. *)
Inductive walkVerdict : Type := Continue | SkipDir.

Fixpoint walkDir {S : Type} (fn : string -> node -> S -> S * walkVerdict)
    (path : string) (d : node) (s : S) {struct d} : S * bool :=
  match d with
  | File _ =>
      let '(s1, v) := fn path d s in
      (s1, match v with SkipDir => true | Continue => false end)
  | Dir _ entries =>
      let '(s1, v) := fn path d s in
      match v with
      | SkipDir => (s1, false)
      | Continue =>
          ((fix loop (dirs : list node) (s : S) {struct dirs} : S :=
              match dirs with
              | [] => s
              | d1 :: dirs' =>
                  let '(s2, leave) := walkDir fn (Filepath.Join path (nodeName d1)) d1 s in
                  if leave then s2 else loop dirs' s2
              end) entries s1, false)
      end
  end.

Definition WalkDir {S : Type} (root : string) (d : node)
    (fn : string -> node -> S -> S * walkVerdict) (s : S) : S :=
  fst (walkDir fn root d s).

(** ** The go-gitignore library, as far as the matcher uses it *)

Class GoGitignore : Type := {
  GitIgnore : Type;
  CompileIgnoreFile : filesystem -> string -> result GitIgnore;
  MatchesPath : GitIgnore -> string -> bool
}.

(** ** Package [files]: the listing with the gitignore matcher *)

Module Files.

Definition DefaultIgnore : list string :=
  [".git/"; ".git/**";
   ".hg/"; ".svn/";
   "node_modules/**"; "dist/**"; "build/**"; "out/**"; "bin/**"; "obj/**";
   ".venv/**"; "venv/**"; "__pycache__/**";
   ".idea/**"; ".vscode/**"; ".DS_Store";
   ".terraform/**"; "vendor/**";
   "*.png"; "*.jpg"; "*.jpeg"; "*.gif"; "*.webp"; "*.ico";
   "*.pdf"; "*.ppt"; "*.pptx"; "*.doc"; "*.docx"; "*.xls"; "*.xlsx";
   "*.zip"; "*.tar"; "*.gz"; "*.tgz"; "*.7z";
   "*.mp4"; "*.mp3"; "*.mov"; "*.avi"].

(* The read loop; [total <= maxBytes] throughout, so no sum leaves the
   int64 range.  Every round that goes on has taken at least one byte, so
   one round more than the file has bytes is enough. *)
Fixpoint readHeadLoop (fuel : nat) (r : file) (maxBytes total : Z)
    (builder : string) : string * option error :=
  match fuel with
  | O => (builder, None)
  | S fuel' =>
      if total <? maxBytes then
        let toRead :=
          if maxBytes - total <? 32 * 1024 then maxBytes - total else 32 * 1024 in
        let '(buf, readErr, r1) := ReadFull r (Z.to_nat toRead) in
        let n := Z.of_nat (String.length buf) in
        let builder := if 0 <? n then builder +:+ buf else builder in
        let total := if 0 <? n then total + n else total in
        match readErr with
        | Some EOF | Some ErrUnexpectedEOF => (builder, None)
        | Some e => (builder, Some e)
        | None => readHeadLoop fuel' r1 maxBytes total builder
        end
      else (builder, None)
  end.

Definition ReadHead (fs : filesystem) (path : string) (maxBytes : Z)
    : string * option error :=
  match fs path with
  | Err e => (EmptyString, Some e)
  | Ok f =>
      if maxBytes <=? 0 then (EmptyString, None)
      else readHeadLoop (S (String.length (contents f))) f maxBytes 0 EmptyString
  end.

Fixpoint matchLoop (globs : list string) (path : string) : bool :=
  match globs with
  | [] => false
  | g :: globs' =>
      if fst (Filepath.Match g path) then true else matchLoop globs' path
  end.

Definition MatchAny (globs : list string) (path : string) : bool :=
  if (length globs =? 0)%nat then false else matchLoop globs path.

Section GitIgnoreMatcher.
Context `{GoGitignore}.

Record GitIgnoreMatcher : Type := { ignores : list GitIgnore }.

Definition NewGitIgnoreMatcher (fs : filesystem) (root : string) (tree : node)
    : GitIgnoreMatcher :=
  {| ignores :=
       WalkDir root tree
         (fun path info patterns =>
            if HasSuffix (nodeName info) ".gitignore" then
              match CompileIgnoreFile fs path with
              | Ok g => (patterns ++ [g], Continue)
              | Err _ => (patterns, Continue)
              end
            else (patterns, Continue))
         [] |}.

Fixpoint matchIgnores (igs : list GitIgnore) (path : string) : bool :=
  match igs with
  | [] => false
  | ig :: igs' => if MatchesPath ig path then true else matchIgnores igs' path
  end.

Definition Match (g : GitIgnoreMatcher) (path : string) : bool :=
  matchIgnores (ignores g) path.

End GitIgnoreMatcher.

End Files.

(** ** Package [files]: the listing that also tries the base name *)

Module FilesAlt.

Definition DefaultIgnore : list string := Files.DefaultIgnore.

Fixpoint readHeadLoop (fuel : nat) (r : file) (max n : Z) (b : string)
    : string * option error :=
  match fuel with
  | O => (b, None)
  | S fuel' =>
      if max <=? n then (b, None)
      else
        let chunk := if max - n <? 4096 then max - n else 4096 in
        let '(buf, err, r1) := Read r (Z.to_nat chunk) in
        let read := Z.of_nat (String.length buf) in
        let b := if 0 <? read then b +:+ buf else b in
        let n := if 0 <? read then n + read else n in
        match err with
        | Some EOF => (b, None)
        | Some e => (b, Some e)
        | None => readHeadLoop fuel' r1 max n b
        end
  end.

Definition ReadHead (fs : filesystem) (path : string) (max : Z)
    : string * option error :=
  match fs path with
  | Err e => (EmptyString, Some e)
  | Ok f => readHeadLoop (S (S (String.length (contents f)))) f max 0 EmptyString
  end.

Fixpoint MatchAny (globs : list string) (path : string) : bool :=
  match globs with
  | [] => false
  | g :: globs' =>
      if fst (Filepath.Match g path) then true
      else if fst (Filepath.Match g (Filepath.Base path)) then true
      else MatchAny globs' path
  end.

End FilesAlt.

(* What package [collect] imports from package [files]. *)
Class FilesPackage : Type := {
  files_DefaultIgnore : list string;
  files_ReadHead : filesystem -> string -> Z -> string * option error;
  files_MatchAny : list string -> string -> bool
}.

#[export] Instance Files_package : FilesPackage :=
  {| files_DefaultIgnore := Files.DefaultIgnore;
     files_ReadHead := Files.ReadHead;
     files_MatchAny := Files.MatchAny |}.

Definition FilesAlt_package : FilesPackage :=
  {| files_DefaultIgnore := FilesAlt.DefaultIgnore;
     files_ReadHead := FilesAlt.ReadHead;
     files_MatchAny := FilesAlt.MatchAny |}.


(** ** Package [encoding/json], as far as the cucumber reader uses it *)

(* The partial shape the reports are decoded into: an element keeps the
   length of its step list and its declared type. *)
Record cucumberElement : Type := { elemSteps : Z; elemType : string }.
Record cucumberFeature : Type := { featElements : list cucumberElement }.

Class EncodingJSON : Type := {
  (* json.Unmarshal(data, &arr) with arr of type []feature *)
  UnmarshalFeatures : string -> result (list cucumberFeature);
  (* json.Unmarshal(data, &root) with root of type struct{ Features []feature } *)
  UnmarshalRoot : string -> result (list cucumberFeature)
}.

(** ** Package [collect] *)

Module Collect.

Module Config.
Record t : Type := mk {
  Root : string;
  MaxFileBytes : Z;
  Threads : Z;
  IncludeGlobsCSV : string;
  ExcludeGlobsCSV : string;
  TreeDepth : Z
}.
Definition set_Threads (v : Z) (s : t) : t :=
  mk (Root s) (MaxFileBytes s) v (IncludeGlobsCSV s) (ExcludeGlobsCSV s) (TreeDepth s).
End Config.

Module ReadmeSummary.
Record t : Type := mk {
  File : string;
  Title : string;
  FirstPara : string;
  Objective : string
}.
End ReadmeSummary.

Module BDDSum.
Record t : Type := mk {
  FeatureFiles : Z;
  Reports : list string;
  Features : Z;
  Scenarios : Z;
  Steps : Z
}.
Definition set_FeatureFiles (v : Z) (s : t) : t :=
  mk v (Reports s) (Features s) (Scenarios s) (Steps s).
Definition set_Reports (v : list string) (s : t) : t :=
  mk (FeatureFiles s) v (Features s) (Scenarios s) (Steps s).
Definition set_Features (v : Z) (s : t) : t :=
  mk (FeatureFiles s) (Reports s) v (Scenarios s) (Steps s).
Definition set_Scenarios (v : Z) (s : t) : t :=
  mk (FeatureFiles s) (Reports s) (Features s) v (Steps s).
Definition set_Steps (v : Z) (s : t) : t :=
  mk (FeatureFiles s) (Reports s) (Features s) (Scenarios s) v.
End BDDSum.

Module CoverageSummary.
Record t : Type := mk {
  Sources : list string;
  TotalStmts : Z;
  CoveredStmts : Z;
  Percent : float;
  HasGoProfile : bool;
  BDD : BDDSum.t
}.
Definition set_Sources (v : list string) (s : t) : t :=
  mk v (TotalStmts s) (CoveredStmts s) (Percent s) (HasGoProfile s) (BDD s).
Definition set_TotalStmts (v : Z) (s : t) : t :=
  mk (Sources s) v (CoveredStmts s) (Percent s) (HasGoProfile s) (BDD s).
Definition set_CoveredStmts (v : Z) (s : t) : t :=
  mk (Sources s) (TotalStmts s) v (Percent s) (HasGoProfile s) (BDD s).
Definition set_Percent (v : float) (s : t) : t :=
  mk (Sources s) (TotalStmts s) (CoveredStmts s) v (HasGoProfile s) (BDD s).
Definition set_HasGoProfile (v : bool) (s : t) : t :=
  mk (Sources s) (TotalStmts s) (CoveredStmts s) (Percent s) v (BDD s).
Definition set_BDD (v : BDDSum.t) (s : t) : t :=
  mk (Sources s) (TotalStmts s) (CoveredStmts s) (Percent s) (HasGoProfile s) v.
End CoverageSummary.

Module GoModule.
Record t : Type := mk {
  Path : string;
  Module_ : string;
  Requires : list string
}.
Definition set_Module_ (v : string) (s : t) : t :=
  mk (Path s) v (Requires s).
Definition set_Requires (v : list string) (s : t) : t :=
  mk (Path s) (Module_ s) v.
End GoModule.

Module ProtoInfo.
Record t : Type := mk {
  File : string;
  Package : string;
  Services : list string;
  RPCs : list string
}.
Definition set_Package (v : string) (s : t) : t :=
  mk (File s) v (Services s) (RPCs s).
Definition set_Services (v : list string) (s : t) : t :=
  mk (File s) (Package s) v (RPCs s).
Definition set_RPCs (v : list string) (s : t) : t :=
  mk (File s) (Package s) (Services s) v.
End ProtoInfo.

Module Decision.
Record t : Type := mk {
  File : string;
  Title : string;
  Summary : string
}.
End Decision.

Module Summary.
Record t : Type := mk {
  Root : string;
  GeneratedAt : Z;
  GoModules : list GoModule.t;
  Proto : list ProtoInfo.t;
  MakeTargets : list string;
  Dockerfiles : list string;
  SQLMigrations : list string;
  Decisions : list Decision.t;
  EnvExamples : list string;
  Licenses : list string;
  Readmes : list string;
  ReadmeSummaries : gmap string ReadmeSummary.t;
  TechStats : gmap string Z;
  Tree : list string;
  NotableConfigs : list string;
  TestCoverage : option CoverageSummary.t
}.
Definition set_GoModules (v : list GoModule.t) (s : t) : t :=
  mk (Root s) (GeneratedAt s) v (Proto s) (MakeTargets s) (Dockerfiles s) (SQLMigrations s) (Decisions s) (EnvExamples s) (Licenses s) (Readmes s) (ReadmeSummaries s) (TechStats s) (Tree s) (NotableConfigs s) (TestCoverage s).
Definition set_Proto (v : list ProtoInfo.t) (s : t) : t :=
  mk (Root s) (GeneratedAt s) (GoModules s) v (MakeTargets s) (Dockerfiles s) (SQLMigrations s) (Decisions s) (EnvExamples s) (Licenses s) (Readmes s) (ReadmeSummaries s) (TechStats s) (Tree s) (NotableConfigs s) (TestCoverage s).
Definition set_MakeTargets (v : list string) (s : t) : t :=
  mk (Root s) (GeneratedAt s) (GoModules s) (Proto s) v (Dockerfiles s) (SQLMigrations s) (Decisions s) (EnvExamples s) (Licenses s) (Readmes s) (ReadmeSummaries s) (TechStats s) (Tree s) (NotableConfigs s) (TestCoverage s).
Definition set_Dockerfiles (v : list string) (s : t) : t :=
  mk (Root s) (GeneratedAt s) (GoModules s) (Proto s) (MakeTargets s) v (SQLMigrations s) (Decisions s) (EnvExamples s) (Licenses s) (Readmes s) (ReadmeSummaries s) (TechStats s) (Tree s) (NotableConfigs s) (TestCoverage s).
Definition set_SQLMigrations (v : list string) (s : t) : t :=
  mk (Root s) (GeneratedAt s) (GoModules s) (Proto s) (MakeTargets s) (Dockerfiles s) v (Decisions s) (EnvExamples s) (Licenses s) (Readmes s) (ReadmeSummaries s) (TechStats s) (Tree s) (NotableConfigs s) (TestCoverage s).
Definition set_Decisions (v : list Decision.t) (s : t) : t :=
  mk (Root s) (GeneratedAt s) (GoModules s) (Proto s) (MakeTargets s) (Dockerfiles s) (SQLMigrations s) v (EnvExamples s) (Licenses s) (Readmes s) (ReadmeSummaries s) (TechStats s) (Tree s) (NotableConfigs s) (TestCoverage s).
Definition set_EnvExamples (v : list string) (s : t) : t :=
  mk (Root s) (GeneratedAt s) (GoModules s) (Proto s) (MakeTargets s) (Dockerfiles s) (SQLMigrations s) (Decisions s) v (Licenses s) (Readmes s) (ReadmeSummaries s) (TechStats s) (Tree s) (NotableConfigs s) (TestCoverage s).
Definition set_Licenses (v : list string) (s : t) : t :=
  mk (Root s) (GeneratedAt s) (GoModules s) (Proto s) (MakeTargets s) (Dockerfiles s) (SQLMigrations s) (Decisions s) (EnvExamples s) v (Readmes s) (ReadmeSummaries s) (TechStats s) (Tree s) (NotableConfigs s) (TestCoverage s).
Definition set_Readmes (v : list string) (s : t) : t :=
  mk (Root s) (GeneratedAt s) (GoModules s) (Proto s) (MakeTargets s) (Dockerfiles s) (SQLMigrations s) (Decisions s) (EnvExamples s) (Licenses s) v (ReadmeSummaries s) (TechStats s) (Tree s) (NotableConfigs s) (TestCoverage s).
Definition set_ReadmeSummaries (v : gmap string ReadmeSummary.t) (s : t) : t :=
  mk (Root s) (GeneratedAt s) (GoModules s) (Proto s) (MakeTargets s) (Dockerfiles s) (SQLMigrations s) (Decisions s) (EnvExamples s) (Licenses s) (Readmes s) v (TechStats s) (Tree s) (NotableConfigs s) (TestCoverage s).
Definition set_TechStats (v : gmap string Z) (s : t) : t :=
  mk (Root s) (GeneratedAt s) (GoModules s) (Proto s) (MakeTargets s) (Dockerfiles s) (SQLMigrations s) (Decisions s) (EnvExamples s) (Licenses s) (Readmes s) (ReadmeSummaries s) v (Tree s) (NotableConfigs s) (TestCoverage s).
Definition set_Tree (v : list string) (s : t) : t :=
  mk (Root s) (GeneratedAt s) (GoModules s) (Proto s) (MakeTargets s) (Dockerfiles s) (SQLMigrations s) (Decisions s) (EnvExamples s) (Licenses s) (Readmes s) (ReadmeSummaries s) (TechStats s) v (NotableConfigs s) (TestCoverage s).
Definition set_TestCoverage (v : option CoverageSummary.t) (s : t) : t :=
  mk (Root s) (GeneratedAt s) (GoModules s) (Proto s) (MakeTargets s) (Dockerfiles s) (SQLMigrations s) (Decisions s) (EnvExamples s) (Licenses s) (Readmes s) (ReadmeSummaries s) (TechStats s) (Tree s) (NotableConfigs s) v.
End Summary.

Definition ellipsis : string :=
  String "226" (String "128" (String "166" EmptyString)).

Definition isEmpty (s : string) : bool := String.eqb s "".

Fixpoint splitCSVParts (parts : list string) : list string :=
  match parts with
  | [] => []
  | p :: parts' =>
      let p := TrimSpace p in
      if negb (isEmpty p) then p :: splitCSVParts parts' else splitCSVParts parts'
  end.

Definition splitCSV (s : string) : list string :=
  if isEmpty (TrimSpace s) then [] else splitCSVParts (Split s ",").

Section Extractors.
Context `{FilesPackage} `{EncodingJSON}.
Variable fs : filesystem.

(* The inner loop of parseGoMod over the pieces of a require line. *)
Fixpoint requireLoop (pieces : list string) (gm : GoModule.t) : GoModule.t :=
  match pieces with
  | [] => gm
  | r :: pieces' =>
      let r := TrimSpace r in
      if isEmpty r || HasPrefix r "//" then requireLoop pieces' gm
      else
        match Fields r with
        | part0 :: _ =>
            requireLoop pieces'
              (GoModule.set_Requires (GoModule.Requires gm ++ [part0]) gm)
        | [] => requireLoop pieces' gm
        end
  end.

Definition goModLine (gm : GoModule.t) (ln : string) : GoModule.t :=
  let ln := TrimSpace ln in
  let gm :=
    if HasPrefix ln "module "
    then GoModule.set_Module_ (TrimSpace (TrimPrefix ln "module")) gm
    else gm in
  if HasPrefix ln "require " then
    let rest := TrimSpace (TrimPrefix ln "require") in
    let rest := Trim rest "()" in
    requireLoop (Split rest LF) gm
  else gm.

Definition parseGoMod (path : string) : result GoModule.t :=
  match ReadFile fs path with
  | Err e => Err e
  | Ok data =>
      Ok (fold_left goModLine (Split data LF) (GoModule.mk path "" []))
  end.

Definition protoLine (pi : ProtoInfo.t) (ln : string) : ProtoInfo.t :=
  let ln := TrimSpace ln in
  let pi :=
    if HasPrefix ln "package "
    then ProtoInfo.set_Package
           (TrimSuffix (TrimSpace (TrimPrefix ln "package")) ";") pi
    else pi in
  let pi :=
    if HasPrefix ln "service " then
      let svc := TrimSpace (TrimPrefix ln "service") in
      let svc := TrimSpace (SplitN2_0 svc "{") in
      ProtoInfo.set_Services (ProtoInfo.Services pi ++ [svc]) pi
    else pi in
  if HasPrefix ln "rpc " then
    let rpc := TrimSpace (TrimPrefix ln "rpc") in
    let rpc := TrimSpace (SplitN2_0 rpc "(") in
    ProtoInfo.set_RPCs (ProtoInfo.RPCs pi ++ [rpc]) pi
  else pi.

Definition parseProto (path : string) (maxBytes : Z) : result ProtoInfo.t :=
  match files_ReadHead fs path maxBytes with
  | (_, Some e) => Err e
  | (head, None) =>
      Ok (fold_left protoLine (Split head LF) (ProtoInfo.mk path "" [] []))
  end.

Definition makeLine (targets : list string) (ln : string) : list string :=
  let ln := TrimSpace ln in
  if isEmpty ln || HasPrefix ln "#" then targets
  else if negb (Contains ln "=") && HasSuffix ln ":" && negb (Contains ln " ") then
    let t := TrimSuffix ln ":" in
    if negb (isEmpty t) then targets ++ [t] else targets
  else targets.

Definition parseMakeTargets (path : string) (maxBytes : Z) : result (list string) :=
  match files_ReadHead fs path maxBytes with
  | (_, Some e) => Err e
  | (head, None) => Ok (fold_left makeLine (Split head LF) [])
  end.

Fixpoint decisionLoop (lines : list string) (title summary : string)
    : string * string :=
  match lines with
  | [] => (title, summary)
  | ln :: lines' =>
      let trim := TrimSpace ln in
      if HasPrefix trim "# " && isEmpty title then
        decisionLoop lines' (TrimPrefix trim "# ") summary
      else
        let summary :=
          if isEmpty summary && negb (isEmpty trim) && negb (HasPrefix trim "#")
          then trim else summary in
        if negb (isEmpty title) && negb (isEmpty summary) then (title, summary)
        else decisionLoop lines' title summary
  end.

Definition parseDecision (path : string) (maxBytes : Z) : result Decision.t :=
  match files_ReadHead fs path maxBytes with
  | (_, Some e) => Err e
  | (head, None) =>
      let '(title, summary) := decisionLoop (Split head LF) "" "" in
      Ok (Decision.mk path title summary)
  end.

Fixpoint readmeTitle (lines : list string) : string :=
  match lines with
  | [] => ""
  | ln :: lines' =>
      let trim := TrimSpace ln in
      if HasPrefix trim "# " then TrimSpace (TrimPrefix trim "# ")
      else readmeTitle lines'
  end.

Fixpoint readmeFirstPara (lines : list string) : string :=
  match lines with
  | [] => ""
  | ln :: lines' =>
      let trim := TrimSpace ln in
      if isEmpty trim || HasPrefix trim "#" then readmeFirstPara lines'
      else if HasPrefix trim "- " || HasPrefix trim "* "
              || HasPrefix trim ">" || HasPrefix trim "`"
      then readmeFirstPara lines'
      else trim
  end.

(* The content lines gathered below a matching heading: at most three. *)
Fixpoint sectionBody (lines : list string) (buf : list string) : list string :=
  match lines with
  | [] => buf
  | ln :: lines' =>
      if (3 <=? length buf)%nat then buf
      else
        let t := TrimSpace ln in
        if isEmpty t || HasPrefix t "#" then sectionBody lines' buf
        else if HasPrefix t "- " || HasPrefix t "* " then
          sectionBody lines' (buf ++ [TrimPrefix (TrimPrefix t "- ") "* "])
        else sectionBody lines' (buf ++ [t])
  end.

Fixpoint findSection (names : list string) (lines : list string) : string :=
  match lines with
  | [] => ""
  | ln :: lines' =>
      let trim := TrimSpace ln in
      if HasPrefix trim "##"
         && (let name := TrimSpace (TrimSpace (TrimLeft trim "#")) in
             existsb (EqualFold name) names)
      then GoStrings.Join (sectionBody lines' []) " "
      else findSection names lines'
  end.

Definition limit (s : string) (n : nat) : string :=
  let s := ReplaceAll s CR " " in
  let s := ReplaceAll s LF " " in
  let s := TrimSpace s in
  if (n <? String.length s)%nat then sliceTo n s +:+ ellipsis else s.

Definition parseReadmeSummary (path : string) (maxBytes : Z)
    : result ReadmeSummary.t :=
  match files_ReadHead fs path maxBytes with
  | (_, Some e) => Err e
  | (head, None) =>
      let lines := Split head LF in
      let title := readmeTitle lines in
      let firstPara := readmeFirstPara lines in
      let objective := findSection ["Objetivo"; "Objective"; "Goals"] lines in
      Ok (ReadmeSummary.mk path (limit title 120) (limit firstPara 400)
            (limit objective 400))
  end.

Fixpoint atoiLoop (s : string) (n : Z) : Z :=
  match s with
  | EmptyString => n
  | String r s' =>
      let d := Utf8.byteZ r in
      if (d <? 48) || (57 <? d) then n
      else atoiLoop s' (wrap64 (wrap64 (n * 10) + (d - 48)))
  end.

Definition atoiSafe (s : string) : Z := atoiLoop s 0.

Definition coverLine (acc : Z * Z) (ln : string) : Z * Z :=
  let '(total, covered) := acc in
  let ln := TrimSpace ln in
  if isEmpty ln || HasPrefix ln "mode:" then acc
  else
    match Fields ln with
    | _ :: p1 :: p2 :: _ =>
        let numStmts := atoiSafe p1 in
        let count := atoiSafe p2 in
        (wrap64 (total + numStmts),
         if 0 <? count then wrap64 (covered + numStmts) else covered)
    | _ => acc
    end.

Definition parseGoCoverProfile (path : string) : Z * Z :=
  match ReadFile fs path with
  | Err _ => (0, 0)
  | Ok data => fold_left coverLine (Split data LF) (0, 0)
  end.

Definition cucumberElementStep (acc : Z * Z) (el : cucumberElement) : Z * Z :=
  let '(scenarios, steps) := acc in
  (if EqualFold (elemType el) "scenario" || isEmpty (elemType el)
   then wrap64 (scenarios + 1) else scenarios,
   wrap64 (steps + elemSteps el)).

Definition cucumberFeatureStep (acc : Z * Z * Z) (f : cucumberFeature)
    : Z * Z * Z :=
  let '(features, scenarios, steps) := acc in
  let '(scenarios, steps) :=
    fold_left cucumberElementStep (featElements f) (scenarios, steps) in
  (wrap64 (features + 1), scenarios, steps).

Definition parseCucumberJSON (path : string) : Z * Z * Z :=
  match ReadFile fs path with
  | Err _ => (0, 0, 0)
  | Ok data =>
      if isEmpty data then (0, 0, 0)
      else
        match UnmarshalFeatures data with
        | Ok arr => fold_left cucumberFeatureStep arr (0, 0, 0)
        | Err _ =>
            match UnmarshalRoot data with
            | Err _ => (0, 0, 0)
            | Ok arr => fold_left cucumberFeatureStep arr (0, 0, 0)
            end
        end
  end.

End Extractors.

(* Go's [<] on strings (byte-wise lexicographic), and the order the sort
   package derives from it: [a] may precede [b] unless [b < a].  The
   sort package's algorithm is not stable; the model sorts by merging,
   which is one of its possible outcomes and the only one when no two
   keys are equal. *)
Definition less (a b : string) : bool := String.ltb a b.
Definition notAfter (a b : string) : Prop := less b a = false.

#[export] Instance notAfter_dec : RelDecision notAfter :=
  fun a b => decide (less b a = false).

Definition sortStrings (l : list string) : list string := merge_sort notAfter l.

Definition byPath (x y : GoModule.t) : Prop :=
  notAfter (GoModule.Path x) (GoModule.Path y).

#[export] Instance byPath_dec : RelDecision byPath :=
  fun x y => decide (less (GoModule.Path y) (GoModule.Path x) = false).

Definition sortGoModules (l : list GoModule.t) : list GoModule.t :=
  merge_sort byPath l.

Inductive treeNode : Type :=
| TreeNode (Name : string) (IsDir : bool) (Children : list treeNode).

Definition treeName (n : treeNode) : string :=
  match n with TreeNode name _ _ => name end.

Definition byName (x y : treeNode) : Prop :=
  notAfter (treeName x) (treeName y).

#[export] Instance byName_dec : RelDecision byName :=
  fun x y => decide (less (treeName y) (treeName x) = false).

Definition sortChildren (l : list treeNode) : list treeNode :=
  merge_sort byName l.

Fixpoint render (n : treeNode) (prefix : string) : list string :=
  match n with
  | TreeNode name _ children =>
      (prefix +:+ name)
      :: flat_map (fun c => render c (prefix +:+ "  ")) children
  end.

Inductive phase : Type := Classifying | Counting.

(* The worker pool between the walk and the final phase: the candidate
   paths not yet dispatched, the workers holding a slot of the semaphore,
   and the summary they share under the mutex. *)
Record pool : Type := {
  queue : list string;
  running : list (string * phase);
  agg : Summary.t
}.

(* What can happen next: the loop hands the next path to a new worker
   (a free slot is needed), the loop sees the context cancelled and stops
   issuing work, the i-th running worker takes the mutex and merges what
   it extracted, or takes it again to count the extension and then gives
   its slot back. *)
Inductive action : Type :=
| Dispatch
| Cancel
| Merge (i : nat)
| Count (i : nat).

Definition isCancel (a : action) : bool :=
  match a with Cancel => true | _ => false end.

Section Scan.
Context `{FilesPackage} `{GoGitignore} `{EncodingJSON}.
Variable fs : filesystem.
(* the directory entry found at cfg.Root *)
Variable tree : node.
(* time.Now() and runtime.NumCPU() *)
Variable now : Z.
Variable numCPU : Z.

Definition visit (root : string) (matcher : Files.GitIgnoreMatcher)
    (includeGlobs excludeGlobs : list string)
    (path : string) (d : node) (paths : list string)
    : list string * walkVerdict :=
  let rel := Filepath.ToSlash (Filepath.Rel root path) in
  if String.eqb rel "." then (paths, Continue)
  else if Files.Match matcher rel then
    if IsDir d then (paths, SkipDir) else (paths, Continue)
  else if IsDir d then
    if files_MatchAny excludeGlobs (rel +:+ "/") then (paths, SkipDir)
    else (paths, Continue)
  else if files_MatchAny excludeGlobs rel && negb (files_MatchAny includeGlobs rel)
  then (paths, Continue)
  else (paths ++ [rel], Continue).

Definition includeGlobsOf (cfg : Config.t) : list string :=
  splitCSV (Config.IncludeGlobsCSV cfg).

Definition excludeGlobsOf (cfg : Config.t) : list string :=
  files_DefaultIgnore ++ splitCSV (Config.ExcludeGlobsCSV cfg).

(* Phase 1: the candidate paths, in walk order. *)
Definition candidates (cfg : Config.t) : list string :=
  WalkDir (Config.Root cfg) tree
    (visit (Config.Root cfg)
       (Files.NewGitIgnoreMatcher fs (Config.Root cfg) tree)
       (includeGlobsOf cfg) (excludeGlobsOf cfg))
    [].

Definition emptyCoverage : CoverageSummary.t :=
  CoverageSummary.mk [] 0 0 0%float false (BDDSum.mk 0 [] 0 0 0).

Definition coverageOf (sum : Summary.t) : CoverageSummary.t :=
  match Summary.TestCoverage sum with
  | None => emptyCoverage
  | Some tc => tc
  end.

Definition addReport (p : string) (sum : Summary.t) : Summary.t :=
  let tc := coverageOf sum in
  let bdd := CoverageSummary.BDD tc in
  Summary.set_TestCoverage
    (Some (CoverageSummary.set_BDD
             (BDDSum.set_Reports (BDDSum.Reports bdd ++ [p]) bdd) tc)) sum.

(* The switch of a worker, as the change it makes to the summary while it
   holds the mutex. *)
Definition classify (cfg : Config.t) (p : string) (sum : Summary.t) : Summary.t :=
  let full := Filepath.Join (Config.Root cfg) p in
  let lower := ToLower p in
  let maxBytes := Config.MaxFileBytes cfg in
  if HasSuffix lower "go.mod" then
    match parseGoMod fs full with
    | Ok gm => Summary.set_GoModules (Summary.GoModules sum ++ [gm]) sum
    | Err _ => sum
    end
  else if HasSuffix lower ".proto" then
    match parseProto fs full maxBytes with
    | Ok pi => Summary.set_Proto (Summary.Proto sum ++ [pi]) sum
    | Err _ => sum
    end
  else if String.eqb (Filepath.Base lower) "makefile" || HasSuffix lower ".mk" then
    match parseMakeTargets fs full maxBytes with
    | Ok ts => Summary.set_MakeTargets (Summary.MakeTargets sum ++ ts) sum
    | Err _ => sum
    end
  else if HasSuffix lower "dockerfile"
          || HasPrefix (Filepath.Base lower) "dockerfile." then
    Summary.set_Dockerfiles (Summary.Dockerfiles sum ++ [p]) sum
  else if HasSuffix lower ".sql" then
    if Contains lower "migrat" || Contains lower "schema"
    then Summary.set_SQLMigrations (Summary.SQLMigrations sum ++ [p]) sum
    else sum
  else if HasSuffix lower ".md"
          && (Contains lower "/docs/decisions/" || Contains lower "/adr") then
    match parseDecision fs full maxBytes with
    | Ok dec => Summary.set_Decisions (Summary.Decisions sum ++ [dec]) sum
    | Err _ => sum
    end
  else if HasSuffix lower ".env" || HasSuffix lower ".env.example"
          || HasSuffix lower ".sample" then
    Summary.set_EnvExamples (Summary.EnvExamples sum ++ [p]) sum
  else if Contains lower "license" then
    Summary.set_Licenses (Summary.Licenses sum ++ [p]) sum
  else if String.eqb (Filepath.Base lower) "readme.md" then
    match parseReadmeSummary fs full maxBytes with
    | Ok rs =>
        Summary.set_ReadmeSummaries (<[p := rs]> (Summary.ReadmeSummaries sum))
          (Summary.set_Readmes (Summary.Readmes sum ++ [p]) sum)
    | Err _ => Summary.set_Readmes (Summary.Readmes sum ++ [p]) sum
    end
  else if HasSuffix lower ".feature" then
    let tc := coverageOf sum in
    let bdd := CoverageSummary.BDD tc in
    Summary.set_TestCoverage
      (Some (CoverageSummary.set_BDD
               (BDDSum.set_FeatureFiles (wrap64 (BDDSum.FeatureFiles bdd + 1)) bdd)
               tc)) sum
  else if String.eqb (Filepath.Base lower) "coverage.out"
          || HasSuffix lower ".coverprofile" || HasSuffix lower "coverage.txt" then
    let tc := coverageOf sum in
    Summary.set_TestCoverage
      (Some (CoverageSummary.set_Sources (CoverageSummary.Sources tc ++ [p]) tc))
      sum
  else if HasSuffix lower ".json"
          && (Contains lower "cucumber" || Contains lower "godog") then
    addReport p sum
  else if HasSuffix lower ".xml"
          && (Contains lower "junit" || Contains lower "cucumber") then
    addReport p sum
  else sum.

(* sum.TechStats[ext]++ *)
Definition extOf (p : string) : string :=
  let lower := ToLower p in
  let ext := Filepath.Ext lower in
  if isEmpty ext && Contains lower "dockerfile" then ".dockerfile" else ext.

Definition countExt (p : string) (sum : Summary.t) : Summary.t :=
  let ext := extOf p in
  let stats := Summary.TechStats sum in
  Summary.set_TechStats (<[ext := wrap64 (default 0 (stats !! ext) + 1)]> stats) sum.

(* Phase 2, one action at a time; [None] when the action is not enabled. *)
Definition step (cfg : Config.t) (threads : Z) (a : action) (st : pool)
    : option pool :=
  match a with
  | Dispatch =>
      match queue st with
      | p :: q =>
          if Z.of_nat (length (running st)) <? threads
          then Some {| queue := q;
                       running := running st ++ [(p, Classifying)];
                       agg := agg st |}
          else None
      | [] => None
      end
  | Cancel =>
      match queue st with
      | _ :: _ => Some {| queue := []; running := running st; agg := agg st |}
      | [] => None
      end
  | Merge i =>
      match running st !! i with
      | Some (p, Classifying) =>
          Some {| queue := queue st;
                  running := <[i := (p, Counting)]> (running st);
                  agg := classify cfg p (agg st) |}
      | _ => None
      end
  | Count i =>
      match running st !! i with
      | Some (p, Counting) =>
          Some {| queue := queue st;
                  running := delete i (running st);
                  agg := countExt p (agg st) |}
      | _ => None
      end
  end.

Fixpoint runPool (cfg : Config.t) (threads : Z) (sched : list action) (st : pool)
    : option pool :=
  match sched with
  | [] => Some st
  | a :: sched' =>
      match step cfg threads a st with
      | Some st' => runPool cfg threads sched' st'
      | None => None
      end
  end.

(* wg.Wait() returns when nothing is queued or running any more. *)
Definition drained (st : pool) : bool :=
  match queue st, running st with
  | [], [] => true
  | _, _ => false
  end.

(* Phase 3. *)
Fixpoint goSourcesOf (root : string) (sources : list string) : list string :=
  match sources with
  | [] => []
  | s :: sources' =>
      let low := ToLower s in
      if HasSuffix low "coverage.out" || HasSuffix low ".coverprofile"
         || HasSuffix low "coverage.txt"
      then Filepath.Join root s :: goSourcesOf root sources'
      else goSourcesOf root sources'
  end.

Definition sumProfiles (goSources : list string) : Z * Z :=
  fold_left
    (fun acc path =>
       let '(total, covered) := acc in
       let '(t, c) := parseGoCoverProfile fs path in
       (wrap64 (total + t), wrap64 (covered + c)))
    goSources (0, 0).

Definition sumReports (root : string) (reports : list string) : Z * Z * Z :=
  fold_left
    (fun acc rel =>
       let '(f, sc, st) := acc in
       let '(ff, ss, tt') := parseCucumberJSON fs (Filepath.Join root rel) in
       (wrap64 (f + ff), wrap64 (sc + ss), wrap64 (st + tt')))
    reports (0, 0, 0).

Definition consolidateGo (root : string) (tc : CoverageSummary.t)
    : CoverageSummary.t :=
  let goSources := goSourcesOf root (CoverageSummary.Sources tc) in
  if (0 <? length goSources)%nat then
    let '(total, covered) := sumProfiles goSources in
    if 0 <? total then
      CoverageSummary.set_Percent
        (float64_of_int covered * 100 / float64_of_int total)%float
        (CoverageSummary.set_CoveredStmts covered
           (CoverageSummary.set_TotalStmts total
              (CoverageSummary.set_HasGoProfile true tc)))
    else tc
  else tc.

Definition consolidateBDD (root : string) (tc : CoverageSummary.t)
    : CoverageSummary.t :=
  let bdd := CoverageSummary.BDD tc in
  if (0 <? length (BDDSum.Reports bdd))%nat then
    let '(f, sc, st) := sumReports root (BDDSum.Reports bdd) in
    if 0 <? wrap64 (wrap64 (f + sc) + st) then
      CoverageSummary.set_BDD
        (BDDSum.set_Steps st (BDDSum.set_Scenarios sc (BDDSum.set_Features f bdd)))
        tc
    else tc
  else tc.

Definition consolidateCoverage (root : string) (sum : Summary.t) : Summary.t :=
  match Summary.TestCoverage sum with
  | None => sum
  | Some tc =>
      Summary.set_TestCoverage
        (Some (consolidateBDD root (consolidateGo root tc))) sum
  end.

Section BuildTree.
Variable root : string.
Variable exclude : list string.
Variable matcher : Files.GitIgnoreMatcher.

Fixpoint treeWalk (dir : string) (n : node) (d : Z) {struct n} : treeNode :=
  TreeNode (Filepath.Base dir) true
    (if d =? 0 then []
     else
       match n with
       | File _ => []
       | Dir _ entries =>
           sortChildren
             ((fix loop (es : list node) {struct es} : list treeNode :=
                 match es with
                 | [] => []
                 | e :: es' =>
                     let name := nodeName e in
                     if HasPrefix name "." && negb (String.eqb name ".github")
                     then loop es'
                     else
                       let path := Filepath.Join dir name in
                       let rel := Filepath.ToSlash (Filepath.Rel root path) in
                       if Files.Match matcher rel then loop es'
                       else if IsDir e then
                         if files_MatchAny exclude (rel +:+ "/") then loop es'
                         else treeWalk path e (d - 1) :: loop es'
                       else
                         if files_MatchAny exclude rel then loop es'
                         else TreeNode name false [] :: loop es'
                 end) entries)
       end).

End BuildTree.

Definition buildTree (root : string) (depth : Z) (exclude : list string)
    : list string :=
  let matcher := Files.NewGitIgnoreMatcher fs root tree in
  let depth := if depth <=? 0 then 3 else depth in
  render (treeWalk root exclude matcher root tree depth) "".

Definition finish (cfg : Config.t) (sum : Summary.t) : Summary.t :=
  let sum := consolidateCoverage (Config.Root cfg) sum in
  let sum :=
    Summary.set_Tree
      (buildTree (Config.Root cfg) (Config.TreeDepth cfg) (excludeGlobsOf cfg)) sum in
  let sum := Summary.set_GoModules (sortGoModules (Summary.GoModules sum)) sum in
  let sum := Summary.set_MakeTargets (sortStrings (Summary.MakeTargets sum)) sum in
  let sum := Summary.set_Dockerfiles (sortStrings (Summary.Dockerfiles sum)) sum in
  let sum := Summary.set_SQLMigrations (sortStrings (Summary.SQLMigrations sum)) sum in
  let sum := Summary.set_EnvExamples (sortStrings (Summary.EnvExamples sum)) sum in
  let sum := Summary.set_Licenses (sortStrings (Summary.Licenses sum)) sum in
  Summary.set_Readmes (sortStrings (Summary.Readmes sum)) sum.

Definition threadsOf (cfg : Config.t) : Z :=
  if Config.Threads cfg <=? 0 then numCPU else Config.Threads cfg.

Definition startPool (cfg : Config.t) : pool :=
  {| queue := candidates cfg;
     running := [];
     agg := Summary.mk (Config.Root cfg) now [] [] [] [] [] [] [] [] [] ∅ ∅ [] [] None |}.

(* Scan under a schedule of the worker pool: the summary it returns, when
   the schedule is one the pool can follow to the point where every worker
   is done.  The error result of Scan is always nil (the walk's visitor
   never reports one), so it is left out. *)
Definition Scan (sched : list action) (cfg : Config.t) : option Summary.t :=
  match runPool cfg (threadsOf cfg) sched (startPool cfg) with
  | Some st => if drained st then Some (finish cfg (agg st)) else None
  | None => None
  end.

(* The schedule of a run with one worker slot: each file is dispatched,
   merged and counted before the next. *)
Fixpoint sequential (paths : list string) : list action :=
  match paths with
  | [] => []
  | _ :: paths' => Dispatch :: Merge 0 :: Count 0 :: sequential paths'
  end.

End Scan.

End Collect.

Import Collect.

(** ** Vocabulary of the properties *)

(* Induction on directory trees, with the hypothesis for every entry. *)
Fixpoint node_nested_ind (P : node -> Prop)
    (HFile : forall name, P (File name))
    (HDir : forall name entries, Forall P entries -> P (Dir name entries))
    (n : node) {struct n} : P n :=
  match n with
  | File name => HFile name
  | Dir name entries =>
      HDir name entries
        ((fix all (es : list node) : Forall P es :=
            match es with
            | [] => @List.Forall_nil node P
            | e :: es' =>
                @List.Forall_cons node P e es' (node_nested_ind P HFile HDir e) (all es')
            end) entries)
  end.

(* The entries a walk from [d] visits, each with its path, in the order of
   the visits. *)
Fixpoint walked (path : string) (d : node) {struct d} : list (string * node) :=
  (path, d)
  :: match d with
     | File _ => []
     | Dir _ entries =>
         (fix loop (es : list node) {struct es} : list (string * node) :=
            match es with
            | [] => []
            | e :: es' => walked (Filepath.Join path (nodeName e)) e ++ loop es'
            end) entries
     end.

(* What the visitor of NewGitIgnoreMatcher does to the rule sets at one
   entry. *)
Definition loadRules `{GoGitignore} (fs : filesystem) (path : string) (info : node)
    (patterns : list GitIgnore) : list GitIgnore :=
  if HasSuffix (nodeName info) ".gitignore" then
    match CompileIgnoreFile fs path with
    | Ok g => patterns ++ [g]
    | Err _ => patterns
    end
  else patterns.

(* A glob matches a name: the boolean of filepath.Match, its error dropped
   as MatchAny drops it. *)
Definition matches (g name : string) : Prop := fst (Filepath.Match g name) = true.

(* The sum over all keys of the extension histogram. *)
Definition sumCounts (stats : gmap string Z) : Z :=
  map_fold (fun _ v acc => v + acc) 0 stats.

(* A schedule in which the context is never seen cancelled. *)
Definition noCancel (sched : list action) : bool :=
  forallb (fun a => negb (isCancel a)) sched.

(* The lines parseDecision looks for. *)
Definition isTitleLine (ln : string) : bool := HasPrefix (TrimSpace ln) "# ".

Definition isSummaryLine (ln : string) : bool :=
  negb (isEmpty (TrimSpace ln)) && negb (HasPrefix (TrimSpace ln) "#").

Definition firstTitle (lines : list string) : string :=
  match find isTitleLine lines with
  | Some ln => TrimPrefix (TrimSpace ln) "# "
  | None => ""
  end.

Definition firstSummary (lines : list string) : string :=
  match find isSummaryLine lines with
  | Some ln => TrimSpace ln
  | None => ""
  end.

(* The summary as the decision-record rule words it: the first non-empty,
   non-heading line among those that come after the title line. *)
Fixpoint afterTitle (lines : list string) : list string :=
  match lines with
  | [] => []
  | ln :: lines' => if isTitleLine ln then lines' else afterTitle lines'
  end.

Definition claimedSummary (lines : list string) : string :=
  firstSummary (afterTitle lines).

(* How a read that ran into the end of the data reports it. *)
Definition headError (e : error) : option error :=
  match e with
  | EOF | ErrUnexpectedEOF => None
  | _ => Some e
  end.

Definition headErrorAlt (e : error) : option error :=
  match e with
  | EOF => None
  | _ => Some e
  end.

(* The name test of the coverage consolidation. *)
Definition isGoProfileName (s : string) : bool :=
  let low := ToLower s in
  HasSuffix low "coverage.out" || HasSuffix low ".coverprofile"
  || HasSuffix low "coverage.txt".

(* The three modes a Go cover profile declares in its header. *)
Definition coverModes : list string := ["set"; "count"; "atomic"].

Section Eligible.
Context `{FilesPackage} `{GoGitignore}.

(* What phase 1 requires of a file path: no gitignore rule matches it, and
   the exclude globs spare it unless an include glob brings it back. *)
Definition eligible (fs : filesystem) (tree : node) (cfg : Config.t) (p : string)
    : Prop :=
  Files.Match (Files.NewGitIgnoreMatcher fs (Config.Root cfg) tree) p = false
  /\ (files_MatchAny (excludeGlobsOf cfg) p = false
      \/ files_MatchAny (includeGlobsOf cfg) p = true).

End Eligible.

(* The files accounted for by the pool: counted in the histogram, held by
   a worker, or still queued. *)
Definition accounted (st : pool) : Z :=
  sumCounts (Summary.TechStats (agg st))
  + Z.of_nat (length (running st)) + Z.of_nat (length (queue st)).

Definition countsOk (st : pool) : Prop :=
  map_Forall (fun _ v => 0 <= v) (Summary.TechStats (agg st)).

(* The summary with nothing in it, and the files of a pool whose extraction
   is not merged yet. *)
Definition blank : Summary.t :=
  Summary.mk "" 0 [] [] [] [] [] [] [] [] [] ∅ ∅ [] [] None.

Definition awaiting (w : string * phase) : option string :=
  match w with
  | (p, Classifying) => Some p
  | (_, Counting) => None
  end.

Definition unmerged (st : pool) : list string :=
  omap awaiting (running st) ++ queue st.

Section Contributions.
Context `{FilesPackage} `{GoGitignore}.

(* What a list of files adds to the collection [F], file after file. *)
Definition contributed {A : Type} (fs : filesystem) (cfg : Config.t)
    (F : Summary.t -> list A) (paths : list string) : list A :=
  flat_map (fun p => F (classify fs cfg p blank)) paths.

(* The collection [F] of a pool together with what is still to come. *)
Definition owed {A : Type} (fs : filesystem) (cfg : Config.t)
    (F : Summary.t -> list A) (st : pool) : list A :=
  F (agg st) ++ contributed fs cfg F (unmerged st).

(* What the candidates of the walk add to [F], in walk order. *)
Definition contributions {A : Type} (fs : filesystem) (tree : node)
    (cfg : Config.t) (F : Summary.t -> list A) : list A :=
  contributed fs cfg F (candidates fs tree cfg).

End Contributions.

(** ** Sample projects *)

Module Samples.

Definition text (lines : list string) : string :=
  GoStrings.Join lines (String LF EmptyString).

(* A disk of ordinary files, by absolute path. *)
Fixpoint disk (files : list (string * string)) (path : string) : result file :=
  match files with
  | [] => Err (PathError "open" path)
  | (name, data) :: files' =>
      if String.eqb name path then Ok {| contents := data; ending := EOF |}
      else disk files' path
  end.

(* A project without gitignore files. *)
Definition noGitignore : GoGitignore :=
  {| GitIgnore := unit;
     CompileIgnoreFile := fun _ path => Err (PathError "open" path);
     MatchesPath := fun _ _ => false |}.

(* A stand-in for the rule compiler, for examples: a rule file lists the
   relative paths it ignores, one per line. *)
Definition literalGitignore : GoGitignore :=
  {| GitIgnore := list string;
     CompileIgnoreFile := fun fs path =>
       match ReadFile fs path with
       | Ok data => Ok (Split data LF)
       | Err e => Err e
       end;
     MatchesPath := fun rules path => existsb (String.eqb path) rules |}.

(* No report decodes. *)
Definition noJSON : EncodingJSON :=
  {| UnmarshalFeatures := fun _ => Err ErrUnexpectedEOF;
     UnmarshalRoot := fun _ => Err ErrUnexpectedEOF |}.

Definition config (threads : Z) (includes : string) : Config.t :=
  Config.mk "/repo" (64 * 1024) threads includes "" 3.

Definition scan (fs : filesystem) (tree : node) (sched : list action)
    (cfg : Config.t) : option Summary.t :=
  @Scan Files_package noGitignore noJSON fs tree 1757872800 8 sched cfg.

(* The manifest of the manifest-parsing example. *)
Definition manifest : string :=
  text ["module example.com/app"; "require ("; "  github.com/x v1.0.0"; ")"].

(* Two schema files and two decision records. *)
Definition apiTree : node :=
  Dir "repo"
    [ Dir "api" [File "a.proto"; File "b.proto"];
      Dir "docs" [Dir "adr" [File "0001.md"; File "0002.md"]] ].

Definition apiDisk : filesystem :=
  disk [ ("/repo/api/a.proto", text ["package a;"; "service A {}"]);
         ("/repo/api/b.proto", text ["package b;"; "service B {}"]);
         ("/repo/docs/adr/0001.md", text ["# One"; "First decision."]);
         ("/repo/docs/adr/0002.md", text ["# Two"; "Second decision."]) ].

(* Two workers: both schema files, then both records, the second of each
   pair merging first. *)
Definition secondFirst : list action :=
  [ Dispatch; Dispatch; Merge 1; Merge 0; Count 0; Count 0;
    Dispatch; Dispatch; Merge 1; Merge 0; Count 0; Count 0 ].

(* One file of each kind that is stored as a record. *)
Definition serviceTree : node :=
  Dir "repo"
    [ File "Dockerfile"; File "README.md";
      Dir "api" [File "a.proto"];
      Dir "docs" [Dir "adr" [File "0001.md"]];
      File "go.mod" ].

Definition serviceDisk : filesystem :=
  disk [ ("/repo/Dockerfile", text ["FROM scratch"]);
         ("/repo/README.md", text ["# My Service"; ""; "This service does X."]);
         ("/repo/api/a.proto", text ["package a;"]);
         ("/repo/docs/adr/0001.md", text ["# One"; "First decision."]);
         ("/repo/go.mod", manifest) ].

(* A cover profile: the mode header and one data line. *)
Definition profile (mode line : string) : string :=
  text ["mode: " +:+ mode; line; ""].

Definition coverTree : node :=
  Dir "repo" [File "coverage.out"; Dir "pkg" [File "coverage.out"]].

Definition coverDisk : filesystem :=
  disk [ ("/repo/coverage.out", profile "set" "a.go:1.1,2.2 3 1");
         ("/repo/pkg/coverage.out", profile "set" "b.go:1.1,2.2 5 0") ].

(* A profile that was found but lists no statement. *)
Definition emptyProfileTree : node := Dir "repo" [File "coverage.out"].

Definition emptyProfileDisk : filesystem :=
  disk [("/repo/coverage.out", text ["mode: set"; ""])].

(* A record whose first text line comes before its title. *)
Definition statusFirst : string :=
  text ["Status: accepted"; "# Use Postgres"; "We store data in Postgres."].

(* A project whose gitignore file names a file and a directory. *)
Definition secretTree : node :=
  Dir "repo"
    [ File ".gitignore"; File "logo.png"; File "main.go";
      Dir "private" [File "key.pem"];
      File "secret.txt" ].

Definition secretDisk : filesystem :=
  disk [("/repo/.gitignore", text ["secret.txt"; "private"])].

Definition secretConfig : Config.t := config 2 "secret.txt, private/*, *.png".

End Samples.

(** ** Package [render]: the helper that lists make targets and requires *)

Module Render.

(* The first loop of uniqueSorted: the set of trimmed, non-empty inputs. *)
Fixpoint collectUnique (inputs : list string) (m : gset string) : gset string :=
  match inputs with
  | [] => m
  | s :: inputs' =>
      let s := TrimSpace s in
      if isEmpty s then collectUnique inputs' m
      else collectUnique inputs' ({[ s ]} ∪ m)
  end.

(* The second loop ranges over the map in an order Go leaves open;
   [elements] is one such order and the sort that follows forgets it. *)
Definition uniqueSorted (inputs : list string) : list string :=
  sortStrings (elements (collectUnique inputs ∅)).

End Render.

(** ** Package [collect], the listing without gitignore and coverage *)

(* The walk and the worker switch of the older Scan.  Its Summary has no
   TestCoverage field; here it is the newer record with that field carried
   along unchanged, so that the two listings can be compared. *)
Module CollectV0.
Section Scan.
Context `{FilesPackage}.
Variable fs : filesystem.
Variable tree : node.

Definition visit (root : string) (includeGlobs excludeGlobs : list string)
    (path : string) (d : node) (paths : list string)
    : list string * walkVerdict :=
  let rel := Filepath.ToSlash (Filepath.Rel root path) in
  if String.eqb rel "." then (paths, Continue)
  else if IsDir d then
    if files_MatchAny excludeGlobs (rel +:+ "/") then (paths, SkipDir)
    else (paths, Continue)
  else if files_MatchAny excludeGlobs rel && negb (files_MatchAny includeGlobs rel)
  then (paths, Continue)
  else (paths ++ [rel], Continue).

Definition candidates (cfg : Config.t) : list string :=
  WalkDir (Config.Root cfg) tree
    (visit (Config.Root cfg) (includeGlobsOf cfg) (excludeGlobsOf cfg))
    [].

Definition classify (cfg : Config.t) (p : string) (sum : Summary.t) : Summary.t :=
  let full := Filepath.Join (Config.Root cfg) p in
  let lower := ToLower p in
  let maxBytes := Config.MaxFileBytes cfg in
  if HasSuffix lower "go.mod" then
    match parseGoMod fs full with
    | Ok gm => Summary.set_GoModules (Summary.GoModules sum ++ [gm]) sum
    | Err _ => sum
    end
  else if HasSuffix lower ".proto" then
    match parseProto fs full maxBytes with
    | Ok pi => Summary.set_Proto (Summary.Proto sum ++ [pi]) sum
    | Err _ => sum
    end
  else if String.eqb (Filepath.Base lower) "makefile" || HasSuffix lower ".mk" then
    match parseMakeTargets fs full maxBytes with
    | Ok ts => Summary.set_MakeTargets (Summary.MakeTargets sum ++ ts) sum
    | Err _ => sum
    end
  else if HasSuffix lower "dockerfile"
          || HasPrefix (Filepath.Base lower) "dockerfile." then
    Summary.set_Dockerfiles (Summary.Dockerfiles sum ++ [p]) sum
  else if HasSuffix lower ".sql" then
    if Contains lower "migrat" || Contains lower "schema"
    then Summary.set_SQLMigrations (Summary.SQLMigrations sum ++ [p]) sum
    else sum
  else if HasSuffix lower ".md"
          && (Contains lower "/docs/decisions/" || Contains lower "/adr") then
    match parseDecision fs full maxBytes with
    | Ok dec => Summary.set_Decisions (Summary.Decisions sum ++ [dec]) sum
    | Err _ => sum
    end
  else if HasSuffix lower ".env" || HasSuffix lower ".env.example"
          || HasSuffix lower ".sample" then
    Summary.set_EnvExamples (Summary.EnvExamples sum ++ [p]) sum
  else if Contains lower "license" then
    Summary.set_Licenses (Summary.Licenses sum ++ [p]) sum
  else if String.eqb (Filepath.Base lower) "readme.md" then
    match parseReadmeSummary fs full maxBytes with
    | Ok rs =>
        Summary.set_ReadmeSummaries (<[p := rs]> (Summary.ReadmeSummaries sum))
          (Summary.set_Readmes (Summary.Readmes sum ++ [p]) sum)
    | Err _ => Summary.set_Readmes (Summary.Readmes sum ++ [p]) sum
    end
  else sum.

End Scan.
End CollectV0.

(** ** More vocabulary *)

(* Decimal digits. *)
Definition isDigit (c : ascii) : bool :=
  (48 <=? Utf8.byteZ c) && (Utf8.byteZ c <=? 57).

Fixpoint isDigits (s : string) : bool :=
  match s with
  | EmptyString => true
  | String c s' => isDigit c && isDigits s'
  end.

Definition startsWithDigit (s : string) : bool :=
  match s with
  | EmptyString => false
  | String c _ => isDigit c
  end.

(* The levels below the root of a rendered tree. *)
Fixpoint treeDepth (t : treeNode) : nat :=
  match t with
  | TreeNode _ _ children => list_max (map (fun c => S (treeDepth c)) children)
  end.

(* Every list of siblings of a tree is in the order of the names. *)
Fixpoint siblingsSorted (t : treeNode) : Prop :=
  match t with
  | TreeNode _ _ children =>
      StronglySorted byName children
      /\ fold_right (fun c rest => siblingsSorted c /\ rest) True children
  end.

(* A coverage summary as the workers leave it: sources, feature files and
   report paths may be recorded, every total is still zero. *)
Definition totalsUnset (tc : CoverageSummary.t) : Prop :=
  CoverageSummary.TotalStmts tc = 0
  /\ CoverageSummary.CoveredStmts tc = 0
  /\ CoverageSummary.Percent tc = 0%float
  /\ CoverageSummary.HasGoProfile tc = false.

(* The counts of a cover profile, from its text. *)
Definition coverCounts (data : string) : Z * Z :=
  fold_left coverLine (Split data LF) (0, 0).

(* A name as the schema extractor keeps it: nothing to trim, and cut at
   the separator. *)
Definition cleanName (sep : ascii) (name : string) : Prop :=
  TrimSpace name = name /\ ContainsByte name sep = false.

(* Every README summary is filed under the path of a listed README. *)
Definition summariesListed (root : string) (s : Summary.t) : Prop :=
  forall k rs, Summary.ReadmeSummaries s !! k = Some rs ->
    In k (Summary.Readmes s)
    /\ String.eqb (Filepath.Base (ToLower k)) "readme.md" = true
    /\ ReadmeSummary.File rs = Filepath.Join root k.

Definition coverageUnset (s : Summary.t) : Prop :=
  forall tc, Summary.TestCoverage s = Some tc -> totalsUnset tc.

(* The histogram of a list of files, counted one after the other. *)
Definition tally (paths : list string) : gmap string Z :=
  fold_right
    (fun p m => <[extOf p := wrap64 (default 0 (m !! extOf p) + 1)]> m) ∅ paths.

(* The files a pool still holds, and a pool whose histogram is the tally of
   the files it has let go. *)
Definition holding (st : pool) : list string := map fst (running st) ++ queue st.

Definition tallied (all : list string) (st : pool) : Prop :=
  exists counted,
    Summary.TechStats (agg st) = tally counted /\ counted ++ holding st ≡ₚ all.

(** ** More sample data *)

Module Cases.

(* A file of ten bytes, and a disk that holds it. *)
Definition note : file := {| contents := "0123456789"; ending := EOF |}.

Definition noteDisk : filesystem :=
  fun path => if String.eqb path "/note" then Ok note else Err (PathError "open" path).

(* Two cover profiles and the two in one file. *)
Definition profileA : string := Samples.profile "set" "a.go:1.1,2.2 3 1".
Definition profileB : string := Samples.profile "set" "b.go:1.1,2.2 5 0".

Definition profileDisk : filesystem :=
  Samples.disk [ ("/a.out", profileA); ("/b.out", profileB);
                 ("/ab.out", profileA +:+ String LF profileB) ].

Definition makeDisk : filesystem :=
  Samples.disk
    [("/repo/Makefile", Samples.text ["# build"; "VERSION = 1"; "build:"; "test:"])].

(* Two worker slots over the five files of the sample service. *)
Definition twoSlots : list action :=
  Samples.secondFirst ++ [Dispatch; Merge 0; Count 0].

(* The context is cancelled after the first file. *)
Definition cancelledEarly : list action := [Dispatch; Merge 0; Count 0; Cancel].

Definition serviceConfig : Config.t := Samples.config 2 "".

Definition serviceCandidates : list string :=
  @candidates Files_package Samples.noGitignore
    Samples.serviceDisk Samples.serviceTree serviceConfig.

End Cases.

(** * Properties *)

(** ** Strings *)

Lemma isEmpty_true s : isEmpty s = true <-> s = "".
Proof. unfold isEmpty. apply String.eqb_eq. Qed.

Lemma isEmpty_false s : isEmpty s = false <-> s <> "".
Proof. unfold isEmpty. apply String.eqb_neq. Qed.

Lemma HasPrefix_empty s : HasPrefix s "" = true.
Proof. by destruct s. Qed.

(* What TrimRightFunc leaves does not end in a trimmed byte. *)
Lemma TrimRightFunc_last f s r c :
  TrimRightFunc f s = r +:+ String c "" -> f c = false.
Proof.
  revert r. induction s as [|d s IH]; intros r; simpl.
  - destruct r; discriminate.
  - destruct (TrimRightFunc f s) as [|e t] eqn:E.
    + destruct (f d) eqn:Fd.
      * destruct r; discriminate.
      * destruct r as [|r0 r]; simpl; intros [= <-]; [done|].
        destruct r; discriminate.
    + destruct r as [|r0 r]; simpl; intros Heq.
      * discriminate.
      * injection Heq as _ Heq. by apply (IH r).
Qed.

Lemma TrimSpace_last s r c : TrimSpace s = r +:+ String c "" -> isSpace c = false.
Proof. apply TrimRightFunc_last. Qed.

Lemma append_cons c s t : String c s +:+ t = String c (s +:+ t).
Proof. reflexivity. Qed.

Lemma append_empty_r s : s +:+ "" = s.
Proof. induction s as [|c s IH]; [done|]. by rewrite append_cons, IH. Qed.

Lemma append_assoc s t u : (s +:+ t) +:+ u = s +:+ (t +:+ u).
Proof. induction s as [|c s IH]; [done|]. by rewrite !append_cons, IH. Qed.

Lemma sliceTo_all n s : (String.length s <= n)%nat -> sliceTo n s = s.
Proof.
  revert n. induction s as [|c s IH]; intros [|n] Hn; simpl in *; try done; try lia.
  rewrite IH; [done|lia].
Qed.

Lemma length_sliceTo n s : String.length (sliceTo n s) = Nat.min n (String.length s).
Proof.
  revert n. induction s as [|c s IH]; intros [|n]; simpl; try done.
  by rewrite IH.
Qed.

Lemma length_sliceFrom n s : String.length (sliceFrom n s) = (String.length s - n)%nat.
Proof.
  revert n. induction s as [|c s IH]; intros [|n]; simpl; try done.
Qed.

Lemma sliceTo_sliceFrom k m s :
  sliceTo k s +:+ sliceTo m (sliceFrom k s) = sliceTo (k + m) s.
Proof.
  revert k. induction s as [|c s IH]; intros [|k]; simpl; try done.
  - by destruct m.
  - by rewrite append_cons, IH.
Qed.

(** ** The decision-record extractor *)

Lemma title_nonempty ln :
  isTitleLine ln = true -> TrimPrefix (TrimSpace ln) "# " <> "".
Proof.
  unfold isTitleLine, TrimPrefix. intros Hp. rewrite Hp.
  destruct (TrimSpace ln) as [|a [|b [|c t]]] eqn:E; simpl in *.
  - discriminate.
  - rewrite andb_false_r in Hp. discriminate.
  - apply andb_prop in Hp as [_ Hb].
    destruct (Ascii.eqb b " ") eqn:Hb'; [|discriminate].
    apply Ascii.eqb_eq in Hb'. subst b.
    pose proof (TrimSpace_last ln (String a "") " " E). discriminate.
  - discriminate.
Qed.

Lemma firstTitle_cons ln lines :
  firstTitle (ln :: lines) =
  if isTitleLine ln then TrimPrefix (TrimSpace ln) "# " else firstTitle lines.
Proof. unfold firstTitle. simpl. by destruct (isTitleLine ln). Qed.

Lemma firstSummary_cons ln lines :
  firstSummary (ln :: lines) =
  if isSummaryLine ln then TrimSpace ln else firstSummary lines.
Proof. unfold firstSummary. simpl. by destruct (isSummaryLine ln). Qed.

Lemma title_not_summary ln : isTitleLine ln = true -> isSummaryLine ln = false.
Proof.
  unfold isTitleLine, isSummaryLine. intros Ht.
  destruct (TrimSpace ln) as [|a s]; simpl in *; [discriminate|].
  apply andb_prop in Ht as [-> _]. by destruct s.
Qed.

Lemma summary_nonempty ln :
  isSummaryLine ln = true -> isEmpty (TrimSpace ln) = false.
Proof. unfold isSummaryLine. by destruct (isEmpty (TrimSpace ln)). Qed.

Lemma decisionLoop_cons ln lines title summary :
  decisionLoop (ln :: lines) title summary =
  if isTitleLine ln && isEmpty title
  then decisionLoop lines (TrimPrefix (TrimSpace ln) "# ") summary
  else
    let summary :=
      if isEmpty summary && isSummaryLine ln then TrimSpace ln else summary in
    if negb (isEmpty title) && negb (isEmpty summary) then (title, summary)
    else decisionLoop lines title summary.
Proof. simpl. unfold isTitleLine, isSummaryLine. by rewrite andb_assoc. Qed.

(* The loop from any state: a field already set is kept, a field still
   empty gets the first line of its kind. *)
Lemma decisionLoop_spec lines title summary :
  decisionLoop lines title summary =
  (if isEmpty title then firstTitle lines else title,
   if isEmpty summary then firstSummary lines else summary).
Proof.
  revert title summary. induction lines as [|ln lines IH]; intros title summary.
  - simpl. unfold firstTitle, firstSummary. simpl.
    destruct (isEmpty title) eqn:Et, (isEmpty summary) eqn:Es;
      rewrite ?isEmpty_true in *; subst; reflexivity.
  - rewrite decisionLoop_cons, firstTitle_cons, firstSummary_cons.
    destruct (isTitleLine ln) eqn:Ht.
    + rewrite (title_not_summary ln Ht), andb_false_r.
      pose proof (title_nonempty ln Ht) as Hne. apply isEmpty_false in Hne.
      destruct (isEmpty title) eqn:Et; simpl.
      * by rewrite IH, Hne.
      * destruct (isEmpty summary) eqn:Es; simpl; [|done].
        by rewrite IH, Et, Es.
    + simpl.
      destruct (isSummaryLine ln) eqn:Hs.
      * pose proof (summary_nonempty ln Hs) as Hne.
        destruct (isEmpty summary) eqn:Es, (isEmpty title) eqn:Et; simpl;
          rewrite ?Hne, ?Es; simpl; rewrite ?IH, ?Et, ?Es, ?Hne; done.
      * rewrite andb_false_r.
        destruct (isEmpty summary) eqn:Es, (isEmpty title) eqn:Et; simpl;
          rewrite ?IH, ?Et, ?Es; done.
Qed.

Lemma find_app_Some {A : Type} (f : A -> bool) l1 l2 x :
  find f l1 = Some x -> find f (l1 ++ l2) = Some x.
Proof.
  induction l1 as [|a l1 IH]; simpl; [done|]. destruct (f a); [done|]. apply IH.
Qed.

(* Once both fields are found no later line matters. *)
Lemma decisionLoop_stops lines more :
  firstTitle lines <> "" -> firstSummary lines <> "" ->
  decisionLoop (lines ++ more) "" "" = decisionLoop lines "" "".
Proof.
  rewrite !decisionLoop_spec. simpl. intros Ht Hs.
  unfold firstTitle, firstSummary in *.
  destruct (find isTitleLine lines) as [x|] eqn:E1; [|done].
  destruct (find isSummaryLine lines) as [y|] eqn:E2; [|done].
  by rewrite (find_app_Some _ _ more _ E1), (find_app_Some _ _ more _ E2).
Qed.

(** C7 (as amended): for every text read from a decision record,
    parseDecision takes as title the first line that, trimmed, starts with
    the one-hash heading marker, and as summary the first non-empty line
    that does not start with a hash, wherever that line stands with respect
    to the title line; once both are found no further line is looked at. *)
Theorem parseDecision_first_title_first_summary `{FilesPackage}
    (fs : filesystem) (path : string) (maxBytes : Z) (head : string) :
  files_ReadHead fs path maxBytes = (head, None) ->
  parseDecision fs path maxBytes
  = Ok (Decision.mk path (firstTitle (Split head LF)) (firstSummary (Split head LF)))
  /\ (firstTitle (Split head LF) <> "" -> firstSummary (Split head LF) <> "" ->
      forall more,
        decisionLoop (Split head LF ++ more) "" ""
        = (firstTitle (Split head LF), firstSummary (Split head LF))).
Proof.
  intros Hread. split.
  - unfold parseDecision. rewrite Hread, decisionLoop_spec. reflexivity.
  - intros Ht Hs more. rewrite decisionLoop_stops by done.
    by rewrite decisionLoop_spec.
Qed.

Lemma parseDecision_first_title_first_summary_witness :
  parseDecision (Samples.disk [("/repo/docs/adr/0001.md", Samples.statusFirst)])
    "/repo/docs/adr/0001.md" 65536
  = Ok (Decision.mk "/repo/docs/adr/0001.md" "Use Postgres" "Status: accepted").
Proof.
  exact (proj1 (parseDecision_first_title_first_summary
                  (Samples.disk [("/repo/docs/adr/0001.md", Samples.statusFirst)])
                  "/repo/docs/adr/0001.md" 65536 Samples.statusFirst eq_refl)).
Defined.

(** C7 (as stated) fails: in a record whose first text line precedes the
    title, the summary is that line, not the first one after the title. *)
Lemma parseDecision_summary_before_title :
  exists dec,
    parseDecision (Samples.disk [("/repo/docs/adr/0001.md", Samples.statusFirst)])
      "/repo/docs/adr/0001.md" 65536 = Ok dec
    /\ Decision.Title dec = "Use Postgres"
    /\ Decision.Summary dec = "Status: accepted"
    /\ claimedSummary (Split Samples.statusFirst LF) = "We store data in Postgres."
    /\ Decision.Summary dec <> claimedSummary (Split Samples.statusFirst LF).
Proof.
  eexists. split; [vm_compute; reflexivity|].
  repeat split; try (vm_compute; reflexivity). vm_compute. discriminate.
Qed.

(** ** The manifest extractor *)

Lemma parseGoMod_Path fs path gm :
  parseGoMod fs path = Ok gm -> GoModule.Path gm = path.
Proof.
  unfold parseGoMod. destruct (ReadFile fs path) as [data|e]; [|discriminate].
  intros [= <-].
  assert (Hline : forall gm ln, GoModule.Path (goModLine gm ln) = GoModule.Path gm).
  { intros gm ln. unfold goModLine.
    assert (Hreq : forall pieces g,
               GoModule.Path (requireLoop pieces g) = GoModule.Path g).
    { induction pieces as [|r pieces IH]; intros g; simpl; [done|].
      repeat case_match; rewrite ?IH; done. }
    repeat case_match; rewrite ?Hreq; done. }
  assert (Hfold : forall lines gm0,
             GoModule.Path (fold_left goModLine lines gm0) = GoModule.Path gm0).
  { induction lines as [|ln lines IH]; intros gm0; simpl; [done|].
    rewrite IH. apply Hline. }
  apply Hfold.
Qed.

(** C1: on the manifest [module example.com/app], [require (],
    [  github.com/x v1.0.0], [)], with or without a final newline,
    parseGoMod returns the module identifier [example.com/app] and an empty
    dependency list: the lines of a parenthesized require block are never
    read as dependencies. *)
Theorem parseGoMod_require_block_yields_no_dependency
    (fs : filesystem) (path : string) (data : string) :
  data = Samples.manifest \/ data = Samples.manifest +:+ String LF "" ->
  ReadFile fs path = Ok data ->
  parseGoMod fs path = Ok (GoModule.mk path "example.com/app" []).
Proof.
  intros Hdata Hread. unfold parseGoMod. rewrite Hread.
  destruct Hdata as [-> | ->]; reflexivity.
Qed.

Lemma parseGoMod_require_block_yields_no_dependency_witness :
  parseGoMod (Samples.disk [("/repo/go.mod", Samples.manifest)]) "/repo/go.mod"
  = Ok (GoModule.mk "/repo/go.mod" "example.com/app" []).
Proof.
  apply (parseGoMod_require_block_yields_no_dependency
           (Samples.disk [("/repo/go.mod", Samples.manifest)])
           "/repo/go.mod" Samples.manifest).
  - left. reflexivity.
  - reflexivity.
Defined.

(* A require line that carries its dependency is read. *)
Example parseGoMod_single_line_require :
  parseGoMod
    (Samples.disk
       [("/repo/go.mod",
         Samples.text ["module example.com/app"; "require github.com/x v1.0.0"])])
    "/repo/go.mod"
  = Ok (GoModule.mk "/repo/go.mod" "example.com/app" ["github.com/x"]).
Proof. reflexivity. Qed.

(** ** Glob matching *)

Lemma Files_MatchAny_iff globs path :
  Files.MatchAny globs path = true <-> exists g, In g globs /\ matches g path.
Proof.
  unfold Files.MatchAny, matches.
  destruct globs as [|g0 globs0]; simpl length.
  { simpl. split; [done|]. by intros (g & [] & _). }
  change (S (length globs0) =? 0)%nat with false. cbv iota.
  generalize (g0 :: globs0) as globs. clear. intros globs.
  induction globs as [|g globs IH]; simpl.
  - split; [done|]. by intros (g & [] & _).
  - destruct (fst (Filepath.Match g path)) eqn:Hg.
    + split; [|done]. intros _. exists g. auto.
    + rewrite IH. split.
      * intros (g' & Hin & Hm). exists g'. auto.
      * intros (g' & [<-|Hin] & Hm); [congruence|]. exists g'. auto.
Qed.

Lemma FilesAlt_MatchAny_iff globs path :
  FilesAlt.MatchAny globs path = true <->
  exists g, In g globs /\ (matches g path \/ matches g (Filepath.Base path)).
Proof.
  unfold matches. induction globs as [|g globs IH]; simpl.
  - split; [done|]. by intros (g & [] & _).
  - destruct (fst (Filepath.Match g path)) eqn:Hg.
    { split; [|done]. intros _. exists g. auto. }
    destruct (fst (Filepath.Match g (Filepath.Base path))) eqn:Hb.
    { split; [|done]. intros _. exists g. auto. }
    rewrite IH. split.
    + intros (g' & Hin & Hm). exists g'. auto.
    + intros (g' & [<-|Hin] & Hm); [destruct Hm; congruence|]. exists g'. auto.
Qed.

(** C8 (as amended): for every pattern list and every path, the MatchAny
    that retries on the base name returns true exactly when some pattern
    matches the full path or the base name; the MatchAny of the listing
    with the gitignore matcher returns true exactly when some pattern
    matches the full path. *)
Theorem MatchAny_characterised (globs : list string) (path : string) :
  (FilesAlt.MatchAny globs path = true <->
   exists g, In g globs /\ (matches g path \/ matches g (Filepath.Base path)))
  /\ (Files.MatchAny globs path = true <->
      exists g, In g globs /\ matches g path).
Proof. split; [apply FilesAlt_MatchAny_iff|apply Files_MatchAny_iff]. Qed.

(** C8 (as stated) fails for the MatchAny that tests the full path only:
    [*.png] matches the base name of [a/b.png], yet the answer is false. *)
Lemma Files_MatchAny_skips_base_name :
  ~ (forall globs path,
       Files.MatchAny globs path = true <->
       exists g, In g globs /\ (matches g path \/ matches g (Filepath.Base path))).
Proof.
  intros Hclaim. specialize (Hclaim ["*.png"] "a/b.png").
  assert (Hno : Files.MatchAny ["*.png"] "a/b.png" = false) by reflexivity.
  rewrite Hno in Hclaim. destruct Hclaim as [_ Hback].
  assert (false = true); [|discriminate].
  apply Hback. exists "*.png". split; [by left|]. right. reflexivity.
Qed.

(* The default binary-extension globs therefore reach nested files only
   through the base-name retry. *)
Example default_ignore_nested_png :
  Files.MatchAny Files.DefaultIgnore "assets/logo.png" = false
  /\ FilesAlt.MatchAny FilesAlt.DefaultIgnore "assets/logo.png" = true
  /\ Files.MatchAny Files.DefaultIgnore "logo.png" = true.
Proof. repeat split; vm_compute; reflexivity. Qed.

(** ** Head reads *)

Lemma Files_readHeadLoop_spec fuel r maxBytes total builder :
  (String.length (contents r) < fuel)%nat ->
  Files.readHeadLoop fuel r maxBytes total builder
  = (builder +:+ sliceTo (Z.to_nat (maxBytes - total)) (contents r),
     if maxBytes - total <=? Z.of_nat (String.length (contents r))
     then None else headError (ending r)).
Proof.
  revert r total builder.
  induction fuel as [|fuel IH]; intros r total builder Hfuel; [lia|].
  cbn [Files.readHeadLoop].
  destruct (Z.ltb_spec total maxBytes) as [Hlt|Hge].
  2:{ assert (Z.to_nat (maxBytes - total) = 0%nat) as -> by lia.
      simpl. rewrite append_empty_r.
      by assert ((maxBytes - total <=? Z.of_nat (String.length (contents r))) = true)
        as -> by (apply Z.leb_le; lia). }
  set (toRead := if maxBytes - total <? 32 * 1024 then maxBytes - total else 32 * 1024).
  assert (HtoRead : 0 < toRead <= maxBytes - total).
  { unfold toRead. destruct (Z.ltb_spec (maxBytes - total) (32 * 1024)); lia. }
  clearbody toRead.
  unfold ReadFull.
  destruct (Nat.leb_spec (Z.to_nat toRead) (String.length (contents r))) as [Hk|Hk].
  - assert (Hlen : String.length (sliceTo (Z.to_nat toRead) (contents r)) = Z.to_nat toRead).
    { rewrite length_sliceTo. lia. }
    rewrite Hlen.
    assert ((0 <? Z.of_nat (Z.to_nat toRead)) = true) as -> by (apply Z.ltb_lt; lia).
    rewrite IH by (simpl; rewrite length_sliceFrom; lia).
    simpl contents. simpl ending.
    rewrite append_assoc, sliceTo_sliceFrom, length_sliceFrom.
    f_equal.
    + do 2 f_equal. lia.
    + destruct (Z.leb_spec (maxBytes - (total + Z.of_nat (Z.to_nat toRead)))
                  (Z.of_nat (String.length (contents r) - Z.to_nat toRead)));
        destruct (Z.leb_spec (maxBytes - total) (Z.of_nat (String.length (contents r))));
        try done; lia.
  - assert ((maxBytes - total <=? Z.of_nat (String.length (contents r))) = false)
      as -> by (apply Z.leb_gt; lia).
    rewrite (sliceTo_all (Z.to_nat (maxBytes - total))) by lia.
    assert (Hb : (if 0 <? Z.of_nat (String.length (contents r))
                  then builder +:+ contents r else builder) = builder +:+ contents r).
    { destruct (contents r); simpl; [by rewrite append_empty_r|done]. }
    rewrite Hb.
    destruct (ending r); simpl; try done.
    by destruct (String.length (contents r) =? 0)%nat.
Qed.

Lemma FilesAlt_readHeadLoop_spec fuel r max n b :
  (S (String.length (contents r)) < fuel)%nat ->
  FilesAlt.readHeadLoop fuel r max n b
  = (b +:+ sliceTo (Z.to_nat (max - n)) (contents r),
     if max - n <=? Z.of_nat (String.length (contents r))
     then None else headErrorAlt (ending r)).
Proof.
  revert r n b.
  induction fuel as [|fuel IH]; intros r n b Hfuel; [lia|].
  cbn [FilesAlt.readHeadLoop].
  destruct (Z.leb_spec max n) as [Hge|Hlt].
  { assert (Z.to_nat (max - n) = 0%nat) as -> by lia.
    simpl. rewrite append_empty_r.
    by assert ((max - n <=? Z.of_nat (String.length (contents r))) = true)
      as -> by (apply Z.leb_le; lia). }
  set (chunk := if max - n <? 4096 then max - n else 4096).
  assert (Hchunk : 0 < chunk <= max - n).
  { unfold chunk. destruct (Z.ltb_spec (max - n) 4096); lia. }
  clearbody chunk.
  unfold Read.
  destruct (contents r) as [|c0 rest] eqn:Hc.
  - cbn [String.eqb String.length].
    destruct (Z.leb_spec (max - n) (Z.of_nat 0)) as [Hx|_]; [lia|].
    assert (Hnil : forall k, sliceTo k "" = "") by (by intros []).
    rewrite Hnil, append_empty_r. simpl. by destruct (ending r).
  - rewrite <- Hc in *. cbn [String.eqb].
    assert (String.eqb (contents r) "" = false) as ->.
    { rewrite Hc. reflexivity. }
    assert (Hpos : (0 < String.length (contents r))%nat) by (rewrite Hc; simpl; lia).
    assert (Hlen : (0 < String.length (sliceTo (Z.to_nat chunk) (contents r)))%nat).
    { rewrite length_sliceTo. lia. }
    assert ((0 <? Z.of_nat (String.length (sliceTo (Z.to_nat chunk) (contents r)))) = true)
      as -> by (apply Z.ltb_lt; lia).
    rewrite IH by (simpl; rewrite length_sliceFrom; lia).
    simpl contents. simpl ending.
    rewrite append_assoc, length_sliceTo, length_sliceFrom.
    destruct (Nat.leb_spec (Z.to_nat chunk) (String.length (contents r))) as [Hk|Hk].
    + rewrite Nat.min_l by done. rewrite sliceTo_sliceFrom.
      f_equal.
      * do 2 f_equal. lia.
      * destruct (Z.leb_spec (max - (n + Z.of_nat (Z.to_nat chunk)))
                    (Z.of_nat (String.length (contents r) - Z.to_nat chunk)));
          destruct (Z.leb_spec (max - n) (Z.of_nat (String.length (contents r))));
          try done; lia.
    + rewrite Nat.min_r by lia.
      rewrite (sliceTo_all (Z.to_nat chunk)) by lia.
      rewrite (sliceTo_all (Z.to_nat (max - n))) by lia.
      assert (sliceFrom (Z.to_nat chunk) (contents r) = "") as ->.
      { pose proof (length_sliceFrom (Z.to_nat chunk) (contents r)) as Hz.
        destruct (sliceFrom (Z.to_nat chunk) (contents r)); [done|].
        simpl in Hz. lia. }
      assert (Hnil : forall k, sliceTo k "" = "") by (by intros []).
      rewrite Hnil, append_empty_r. f_equal.
      destruct (Z.leb_spec (max - (n + Z.of_nat (String.length (contents r))))
                  (Z.of_nat (String.length (contents r) - Z.to_nat chunk)));
        destruct (Z.leb_spec (max - n) (Z.of_nat (String.length (contents r))));
        try done; lia.
Qed.

(* Both listings return the first maxBytes bytes of the file, with the error
   that cut the read short when the file ended before the cap: the fuel of
   the read loops is never used up. *)
Lemma ReadHead_spec fs path f maxBytes :
  fs path = Ok f ->
  Files.ReadHead fs path maxBytes
  = (sliceTo (Z.to_nat maxBytes) (contents f),
     if maxBytes <=? Z.of_nat (String.length (contents f))
     then None else headError (ending f))
  /\ FilesAlt.ReadHead fs path maxBytes
  = (sliceTo (Z.to_nat maxBytes) (contents f),
     if maxBytes <=? Z.of_nat (String.length (contents f))
     then None else headErrorAlt (ending f)).
Proof.
  intros Hf. unfold Files.ReadHead, FilesAlt.ReadHead. rewrite Hf. split.
  - destruct (Z.leb_spec maxBytes 0) as [Hle|Hgt].
    + assert (Z.to_nat maxBytes = 0%nat) as -> by lia. simpl.
      by assert ((maxBytes <=? Z.of_nat (String.length (contents f))) = true)
        as -> by (apply Z.leb_le; lia).
    + rewrite Files_readHeadLoop_spec by lia. simpl. by rewrite Z.sub_0_r.
  - rewrite FilesAlt_readHeadLoop_spec by lia. simpl. by rewrite Z.sub_0_r.
Qed.

Lemma ReadHead_nonpositive fs path f maxBytes :
  fs path = Ok f -> maxBytes <= 0 ->
  Files.ReadHead fs path maxBytes = ("", None)
  /\ FilesAlt.ReadHead fs path maxBytes = ("", None).
Proof.
  intros Hf Hm. unfold Files.ReadHead, FilesAlt.ReadHead. rewrite Hf.
  assert ((maxBytes <=? 0) = true) as Hle by lia. rewrite Hle.
  split; [done|]. simpl. by rewrite Hle.
Qed.

Lemma ReadHead_unopened fs path e maxBytes :
  fs path = Err e ->
  Files.ReadHead fs path maxBytes = ("", Some e)
  /\ FilesAlt.ReadHead fs path maxBytes = ("", Some e).
Proof. intros Hf. unfold Files.ReadHead, FilesAlt.ReadHead. by rewrite Hf. Qed.

(** C10 (as amended): for every path that can be opened, even that of a
    non-empty readable file, ReadHead with a non-positive byte cap returns
    the empty string and no error, in both listings of the files package;
    for a path that cannot be opened it returns the empty string with the
    error of the open, whatever the cap. *)
Theorem ReadHead_nonpositive_cap
    (fs : filesystem) (path : string) (maxBytes : Z) :
  (forall f, fs path = Ok f -> maxBytes <= 0 ->
     Files.ReadHead fs path maxBytes = ("", None)
     /\ FilesAlt.ReadHead fs path maxBytes = ("", None))
  /\ (forall e, fs path = Err e ->
        Files.ReadHead fs path maxBytes = ("", Some e)
        /\ FilesAlt.ReadHead fs path maxBytes = ("", Some e)).
Proof.
  split.
  - intros f. apply ReadHead_nonpositive.
  - intros e. apply ReadHead_unopened.
Qed.

Lemma ReadHead_nonpositive_cap_witness :
  Files.ReadHead Samples.serviceDisk "/repo/README.md" (-1) = ("", None)
  /\ FilesAlt.ReadHead Samples.serviceDisk "/repo/README.md" (-1) = ("", None).
Proof.
  apply (proj1 (ReadHead_nonpositive_cap Samples.serviceDisk "/repo/README.md" (-1))
           {| contents := Samples.text ["# My Service"; ""; "This service does X."];
              ending := EOF |}).
  - reflexivity.
  - lia.
Defined.

(** C10 (as stated) fails: not for every path, since a path that cannot be
    opened yields the error of the open even with a zero cap. *)
Lemma ReadHead_nonpositive_cap_missing_file :
  ~ (forall (fs : filesystem) (path : string) (maxBytes : Z),
       maxBytes <= 0 -> Files.ReadHead fs path maxBytes = ("", None)).
Proof.
  intros Hclaim.
  specialize (Hclaim Samples.serviceDisk "/repo/missing.md" 0 ltac:(lia)).
  discriminate.
Qed.

(** ** The walk *)

(* A property of the visitor's state that every call keeps is kept by the
   whole walk. *)
Lemma walkDir_preserves {S : Type} (Inv : S -> Prop)
    (fn : string -> node -> S -> S * walkVerdict) :
  (forall path d s, Inv s -> Inv (fst (fn path d s))) ->
  forall d path s, Inv s -> Inv (fst (walkDir fn path d s)).
Proof.
  intros Hfn d. induction d as [name|name entries IH] using node_nested_ind;
    intros path s Hs; simpl.
  - specialize (Hfn path (File name) s Hs). by destruct (fn path (File name) s).
  - specialize (Hfn path (Dir name entries) s Hs).
    destruct (fn path (Dir name entries) s) as [s1 [|]]; simpl in *; [|done].
    revert s1 Hfn. induction IH as [|e es He _ IHes]; intros s1 Hs1; [done|].
    specialize (He (Filepath.Join path (nodeName e)) s1 Hs1).
    destruct (walkDir fn (Filepath.Join path (nodeName e)) e s1) as [s2 [|]];
      simpl in *; [done|]. by apply IHes.
Qed.

Section WalkProperties.
Context `{FilesPackage} `{GoGitignore}.
Variable fs : filesystem.
Variable tree : node.

(* The matcher answers true exactly when one of the compiled gitignore
   files has a rule for the path. *)
Lemma Files_Match_iff (g : Files.GitIgnoreMatcher) path :
  Files.Match g path = true <->
  exists ig, In ig (Files.ignores g) /\ MatchesPath ig path = true.
Proof.
  unfold Files.Match. induction (Files.ignores g) as [|ig igs IH]; simpl.
  - split; [done|]. by intros (ig & [] & _).
  - destruct (MatchesPath ig path) eqn:Hig.
    + split; [|done]. intros _. exists ig. auto.
    + rewrite IH. split.
      * intros (ig' & Hin & Hm). exists ig'. auto.
      * intros (ig' & [<-|Hin] & Hm); [congruence|]. exists ig'. auto.
Qed.

Lemma visit_eligible cfg path d paths :
  Forall (eligible fs tree cfg) paths ->
  Forall (eligible fs tree cfg)
    (fst (visit (Config.Root cfg)
            (Files.NewGitIgnoreMatcher fs (Config.Root cfg) tree)
            (includeGlobsOf cfg) (excludeGlobsOf cfg) path d paths)).
Proof.
  intros Hall. unfold visit.
  repeat case_match; simpl; try done.
  apply Forall_app. split; [done|]. apply Forall_singleton.
  split; [done|].
  destruct (files_MatchAny (excludeGlobsOf cfg) _) eqn:He; [|by left].
  destruct (files_MatchAny (includeGlobsOf cfg) _) eqn:Hi; [by right|].
  discriminate.
Qed.

Lemma candidates_eligible cfg p :
  In p (candidates fs tree cfg) -> eligible fs tree cfg p.
Proof.
  intros Hin.
  assert (Hall : Forall (eligible fs tree cfg) (candidates fs tree cfg)).
  { apply (walkDir_preserves (Forall (eligible fs tree cfg))); [|done].
    intros path d s. apply visit_eligible. }
  rewrite Forall_forall in Hall. apply Hall. by apply list_elem_of_In.
Qed.

Lemma ignored_pruned root matcher incl excl path d paths :
  Filepath.Rel root path <> "." ->
  Files.Match matcher (Filepath.Rel root path) = true ->
  walkDir (visit root matcher incl excl) path d paths = (paths, false).
Proof.
  intros Hrel Hm. apply String.eqb_neq in Hrel.
  destruct d; simpl; unfold visit, Filepath.ToSlash; rewrite Hrel, Hm; reflexivity.
Qed.

Lemma include_overrides root matcher incl excl path name paths :
  Filepath.Rel root path <> "." ->
  Files.Match matcher (Filepath.Rel root path) = false ->
  files_MatchAny incl (Filepath.Rel root path) = true ->
  visit root matcher incl excl path (File name) paths
  = (paths ++ [Filepath.Rel root path], Continue).
Proof.
  intros Hrel Hm Hi. apply String.eqb_neq in Hrel.
  unfold visit, Filepath.ToSlash. rewrite Hrel, Hm, Hi. simpl.
  by rewrite andb_false_r.
Qed.

End WalkProperties.

(* A visitor that never skips is applied to every entry of the tree. *)
Lemma walkDir_every_entry {S : Type}
    (fn : string -> node -> S -> S * walkVerdict) (g : string -> node -> S -> S) d :
  (forall p n s, fn p n s = (g p n s, Continue)) ->
  forall path s,
    walkDir fn path d s
    = (fold_left (fun s pn => g (fst pn) (snd pn) s) (walked path d) s, false).
Proof.
  intros Hfn.
  induction d as [name|name entries IH] using node_nested_ind; intros path s.
  - cbn [walkDir]. by rewrite Hfn.
  - cbn [walkDir walked fold_left fst snd]. rewrite Hfn. f_equal.
    generalize (g path (Dir name entries) s). clear s.
    induction IH as [|e es He _ IHes]; intros s; [done|].
    rewrite He, fold_left_app. apply IHes.
Qed.

Lemma loadRules_keeps `{GoGitignore} (fs : filesystem) entries patterns ig :
  In ig patterns ->
  In ig (fold_left (fun s pn => loadRules fs (fst pn) (snd pn) s) entries patterns).
Proof.
  revert patterns. induction entries as [|[p n] entries IH]; intros patterns Hin; [done|].
  simpl. apply IH. unfold loadRules. repeat case_match; try done.
  apply in_or_app. by left.
Qed.

(* Every entry of the tree named as a gitignore file that compiles is among
   the rule sets of the matcher. *)
Lemma NewGitIgnoreMatcher_loaded `{GoGitignore} (fs : filesystem)
    root tree path info ig :
  In (path, info) (walked root tree) ->
  HasSuffix (nodeName info) ".gitignore" = true ->
  CompileIgnoreFile fs path = Ok ig ->
  In ig (Files.ignores (Files.NewGitIgnoreMatcher fs root tree)).
Proof.
  intros Hin Hname Hig. unfold Files.NewGitIgnoreMatcher, WalkDir. simpl.
  rewrite (walkDir_every_entry _ (loadRules fs));
    [|intros p n s; unfold loadRules; repeat case_match; reflexivity].
  simpl.
  generalize (@nil GitIgnore).
  induction (walked root tree) as [|[p n] entries IH]; intros patterns; [done|].
  destruct Hin as [[= -> ->]|Hin]; simpl.
  - apply loadRules_keeps. unfold loadRules. rewrite Hname, Hig.
    apply in_or_app. right. by left.
  - by apply IH.
Qed.

(** C9: the rule sets of the matcher include the compiled form of every
    gitignore file found under the root; whatever the include globs are,
    no rule set of the matcher has a rule (MatchesPath) for a candidate
    path, and every candidate is spared by the exclude globs or brought
    back by an include glob; the walk takes nothing from a file or a
    directory subtree for whose relative path some rule set has a rule; a
    file for which no rule set has a rule and which an include glob names
    becomes a candidate whatever the exclude globs say. *)
Theorem gitignore_rules_beat_include_globs `{FilesPackage} `{GoGitignore}
    (fs : filesystem) (tree : node) (cfg : Config.t) :
  let root := Config.Root cfg in
  let matcher := Files.NewGitIgnoreMatcher fs root tree in
  let incl := includeGlobsOf cfg in
  let excl := excludeGlobsOf cfg in
  (forall path info ig,
     In (path, info) (walked root tree) ->
     HasSuffix (nodeName info) ".gitignore" = true ->
     CompileIgnoreFile fs path = Ok ig ->
     In ig (Files.ignores matcher))
  /\ (forall p, In p (candidates fs tree cfg) ->
        (forall ig, In ig (Files.ignores matcher) -> MatchesPath ig p = false)
        /\ (files_MatchAny excl p = false \/ files_MatchAny incl p = true))
  /\ (forall path d paths ig,
        Filepath.Rel root path <> "." ->
        In ig (Files.ignores matcher) ->
        MatchesPath ig (Filepath.Rel root path) = true ->
        walkDir (visit root matcher incl excl) path d paths = (paths, false))
  /\ (forall path name paths,
        Filepath.Rel root path <> "." ->
        (forall ig, In ig (Files.ignores matcher) ->
           MatchesPath ig (Filepath.Rel root path) = false) ->
        files_MatchAny incl (Filepath.Rel root path) = true ->
        visit root matcher incl excl path (File name) paths
        = (paths ++ [Filepath.Rel root path], Continue)).
Proof.
  intros root matcher incl excl.
  assert (Hnone : forall p,
            Files.Match matcher p = false <->
            forall ig, In ig (Files.ignores matcher) -> MatchesPath ig p = false).
  { intros p. split.
    - intros Hm ig Hin. destruct (MatchesPath ig p) eqn:Hig; [|done].
      rewrite <- Hm. symmetry. apply Files_Match_iff. eauto.
    - intros Hall. destruct (Files.Match matcher p) eqn:Hm; [|done].
      apply Files_Match_iff in Hm as (ig & Hin & Hig).
      by rewrite (Hall ig Hin) in Hig. }
  split; [|split; [|split]].
  - intros path info ig. apply NewGitIgnoreMatcher_loaded.
  - intros p Hin. destruct (candidates_eligible fs tree cfg p Hin) as [Hm Hglobs].
    split; [by apply Hnone|done].
  - intros path d paths ig Hrel Hin Hig. apply ignored_pruned; [done|].
    apply Files_Match_iff. eauto.
  - intros path name paths Hrel Hall. apply include_overrides; [done|].
    by apply Hnone.
Qed.

(* The sample project names secret.txt and private/ in its gitignore file
   and asks for both back with include globs, as it does for the PNG files
   that the default globs exclude: the image comes back, the ignored file
   and directory do not. *)
Example secret_candidates :
  @candidates Files_package Samples.literalGitignore
    Samples.secretDisk Samples.secretTree Samples.secretConfig
  = [".gitignore"; "logo.png"; "main.go"]
  /\ @candidates Files_package Samples.literalGitignore
       Samples.secretDisk Samples.secretTree (Samples.config 2 "")
     = [".gitignore"; "main.go"].
Proof. split; vm_compute; reflexivity. Qed.

(* The gitignore file of the sample project is loaded; secret.txt, which
   it names and an include glob asks back, is no candidate, and the walk
   takes nothing from the directory private/. *)
Lemma gitignore_rules_beat_include_globs_witness :
  ~ In "secret.txt"
      (@candidates Files_package Samples.literalGitignore
         Samples.secretDisk Samples.secretTree Samples.secretConfig)
  /\ walkDir
       (@visit Files_package Samples.literalGitignore "/repo"
          (@Files.NewGitIgnoreMatcher Samples.literalGitignore
             Samples.secretDisk "/repo" Samples.secretTree)
          (includeGlobsOf Samples.secretConfig) (excludeGlobsOf Samples.secretConfig))
       "/repo/private" (Dir "private" [File "key.pem"]) [".gitignore"]
     = ([".gitignore"], false).
Proof.
  pose proof (@gitignore_rules_beat_include_globs Files_package
                Samples.literalGitignore Samples.secretDisk Samples.secretTree
                Samples.secretConfig) as Hthm.
  cbv zeta in Hthm. destruct Hthm as (Hload & Hcand & Hprune & _).
  assert (Hrules :
    In ["secret.txt"; "private"]
       (@Files.ignores Samples.literalGitignore
          (@Files.NewGitIgnoreMatcher Samples.literalGitignore Samples.secretDisk
             (Config.Root Samples.secretConfig) Samples.secretTree))).
  { apply (Hload "/repo/.gitignore" (File ".gitignore")).
    - vm_compute. right. left. reflexivity.
    - reflexivity.
    - reflexivity. }
  split.
  - intros Hin. destruct (Hcand "secret.txt" Hin) as [Hnone _].
    specialize (Hnone _ Hrules). vm_compute in Hnone. discriminate.
  - apply (Hprune "/repo/private" (Dir "private" [File "key.pem"]) [".gitignore"]
             ["secret.txt"; "private"]).
    + vm_compute. discriminate.
    + exact Hrules.
    + reflexivity.
Defined.

(** ** The worker pool and the extension histogram *)

Lemma wrap64_small z : - 2 ^ 63 <= z < 2 ^ 63 -> wrap64 z = z.
Proof. intros Hz. unfold wrap64. rewrite Z.mod_small; lia. Qed.

Lemma sumCounts_empty : sumCounts ∅ = 0.
Proof. apply map_fold_empty. Qed.

Lemma sumCounts_insert_fresh (m : gmap string Z) k v :
  m !! k = None -> sumCounts (<[k:=v]> m) = v + sumCounts m.
Proof.
  intros Hk. unfold sumCounts.
  rewrite map_fold_insert_L; [done| |done]. intros; lia.
Qed.

Lemma sumCounts_delete (m : gmap string Z) k v :
  m !! k = Some v -> sumCounts m = v + sumCounts (delete k m).
Proof.
  intros Hk. unfold sumCounts.
  rewrite (map_fold_delete_L _ _ k v m); [done| |done]. intros; lia.
Qed.

Lemma sumCounts_insert (m : gmap string Z) k v :
  sumCounts (<[k:=v]> m) = v + sumCounts m - default 0 (m !! k).
Proof.
  destruct (m !! k) as [w|] eqn:Hk; simpl.
  - rewrite <- (insert_delete_eq m k v).
    rewrite sumCounts_insert_fresh by apply lookup_delete_eq.
    rewrite (sumCounts_delete m k w Hk). lia.
  - rewrite sumCounts_insert_fresh by done. lia.
Qed.

Lemma sumCounts_nonneg (m : gmap string Z) :
  map_Forall (fun _ v => 0 <= v) m -> 0 <= sumCounts m.
Proof.
  induction m as [|k v m Hk IH] using map_ind.
  - rewrite sumCounts_empty. lia.
  - intros Hall. rewrite sumCounts_insert_fresh by done.
    apply map_Forall_insert in Hall as [Hv Hm]; [|done].
    specialize (IH Hm). lia.
Qed.

Lemma sumCounts_lookup_le (m : gmap string Z) k v :
  map_Forall (fun _ v => 0 <= v) m -> m !! k = Some v -> v <= sumCounts m.
Proof.
  intros Hall Hk. rewrite (sumCounts_delete m k v Hk).
  assert (0 <= sumCounts (delete k m)); [|lia].
  apply sumCounts_nonneg. intros j w Hj.
  apply lookup_delete_Some in Hj as [_ Hj]. by apply (Hall j w).
Qed.

Section PoolProperties.
Context `{FilesPackage} `{GoGitignore} `{EncodingJSON}.
Variable fs : filesystem.
Variable tree : node.
Variable now numCPU : Z.

Lemma classify_TechStats cfg p sum :
  Summary.TechStats (classify fs cfg p sum) = Summary.TechStats sum.
Proof. unfold classify, addReport. repeat case_match; reflexivity. Qed.

Lemma finish_TechStats cfg sum :
  Summary.TechStats (finish fs tree cfg sum) = Summary.TechStats sum.
Proof. unfold finish, consolidateCoverage. simpl. by case_match. Qed.

Lemma step_accounted cfg threads a st st' :
  isCancel a = false ->
  step fs cfg threads a st = Some st' ->
  countsOk st -> accounted st < 2 ^ 63 ->
  countsOk st' /\ accounted st' = accounted st.
Proof.
  intros Hc Hstep Hok Hlt. unfold accounted, countsOk in *.
  destruct a as [| |i|i]; simpl in *; try discriminate.
  - destruct (queue st) as [|p q] eqn:Hq; [discriminate|].
    case_match; [|discriminate]. injection Hstep as <-. simpl.
    rewrite length_app. simpl. split; [done|lia].
  - destruct (running st !! i) as [[p [|]]|] eqn:Hi; try discriminate.
    injection Hstep as <-. simpl.
    rewrite classify_TechStats, length_insert. done.
  - destruct (running st !! i) as [[p [|]]|] eqn:Hi; try discriminate.
    injection Hstep as <-. simpl.
    pose proof (lookup_lt_Some _ _ _ Hi) as Hlen.
    rewrite length_delete by eauto.
    pose proof (sumCounts_nonneg _ Hok) as Hnn.
    set (stats := Summary.TechStats (agg st)) in *.
    assert (Hold : 0 <= default 0 (stats !! extOf p) <= sumCounts stats).
    { destruct (stats !! extOf p) as [v|] eqn:Hv; simpl; [|lia].
      split; [by apply (Hok _ _ Hv)|by apply (sumCounts_lookup_le stats (extOf p))]. }
    rewrite wrap64_small by lia.
    split.
    + apply map_Forall_insert_2; [lia|done].
    + rewrite sumCounts_insert. lia.
Qed.

Lemma runPool_accounted cfg threads sched st st' :
  noCancel sched = true ->
  runPool fs cfg threads sched st = Some st' ->
  countsOk st -> accounted st < 2 ^ 63 ->
  countsOk st' /\ accounted st' = accounted st.
Proof.
  revert st. induction sched as [|a sched IH]; intros st Hnc Hrun Hok Hlt; simpl in *.
  - by injection Hrun as <-.
  - apply andb_prop in Hnc as [Ha Hnc].
    destruct (step fs cfg threads a st) as [st1|] eqn:Hstep; [|discriminate].
    destruct (step_accounted cfg threads a st st1) as [Hok1 Hacc1]; auto.
    { by destruct (isCancel a). }
    destruct (IH st1) as [Hok' Hacc']; auto; [lia|].
    split; [done|lia].
Qed.

(* With at least one slot the sequential schedule is a run of the pool:
   Scan does return. *)
Lemma runPool_sequential cfg threads paths sum :
  0 < threads ->
  runPool fs cfg threads (sequential paths)
    {| queue := paths; running := []; agg := sum |}
  = Some {| queue := []; running := [];
            agg := fold_left (fun s p => countExt p (classify fs cfg p s)) paths sum |}.
Proof.
  intros Hthreads. revert sum.
  induction paths as [|p paths IH]; intros sum; [done|].
  cbn [sequential runPool step queue running agg length].
  assert ((Z.of_nat 0 <? threads) = true) as -> by (apply Z.ltb_lt; simpl; lia).
  cbn. apply IH.
Qed.

Lemma Scan_returns cfg :
  0 < threadsOf numCPU cfg ->
  exists sum,
    Scan fs tree now numCPU (sequential (candidates fs tree cfg)) cfg = Some sum.
Proof.
  intros Hthreads. unfold Scan, startPool.
  rewrite runPool_sequential by done. simpl. eauto.
Qed.

Lemma noCancel_sequential paths : noCancel (sequential paths) = true.
Proof. induction paths; [done|]. simpl. apply IHpaths. Qed.

End PoolProperties.

(** C4: for every tree, configuration and schedule of the worker pool in
    which the context is never seen cancelled, when Scan returns, the
    counts of the extension histogram add up to the number of candidate
    paths of the walk, whatever each file was classified as.  (The number
    of candidates is the length of a Go slice, hence below 2^63.) *)
Theorem TechStats_total_is_candidate_count
    `{FilesPackage} `{GoGitignore} `{EncodingJSON}
    (fs : filesystem) (tree : node) (now numCPU : Z)
    (sched : list action) (cfg : Config.t) (sum : Summary.t) :
  noCancel sched = true ->
  Z.of_nat (length (candidates fs tree cfg)) < 2 ^ 63 ->
  Scan fs tree now numCPU sched cfg = Some sum ->
  sumCounts (Summary.TechStats sum) = Z.of_nat (length (candidates fs tree cfg)).
Proof.
  intros Hnc Hlen. unfold Scan.
  destruct (runPool _ _ _ _ _) as [st|] eqn:Hrun; [|discriminate].
  destruct (drained st) eqn:Hd; [|discriminate]. intros [= <-].
  rewrite finish_TechStats.
  destruct (runPool_accounted fs _ _ _ _ _ Hnc Hrun) as [_ Hacc].
  - intros k v Hk. simpl in Hk. by rewrite lookup_empty in Hk.
  - unfold accounted. simpl. rewrite sumCounts_empty. lia.
  - unfold accounted in Hacc. simpl in Hacc. rewrite sumCounts_empty in Hacc.
    unfold drained in Hd.
    destruct (queue st), (running st); try discriminate. simpl in Hacc. lia.
Qed.

Lemma TechStats_total_is_candidate_count_witness :
  match Samples.scan Samples.apiDisk Samples.apiTree Samples.secondFirst
          (Samples.config 2 "") with
  | Some sum => sumCounts (Summary.TechStats sum) = 4
  | None => False
  end.
Proof.
  destruct (Samples.scan Samples.apiDisk Samples.apiTree Samples.secondFirst
              (Samples.config 2 "")) as [sum|] eqn:Hscan.
  - apply (@TechStats_total_is_candidate_count Files_package Samples.noGitignore
             Samples.noJSON Samples.apiDisk Samples.apiTree 1757872800 8
             Samples.secondFirst (Samples.config 2 "") sum).
    + reflexivity.
    + vm_compute. reflexivity.
    + exact Hscan.
  - vm_compute in Hscan. discriminate.
Defined.

(** ** Coverage consolidation *)

Section CoverageProperties.
Context `{FilesPackage} `{EncodingJSON}.
Variable fs : filesystem.

(* Every recorded source passes the name test of the consolidation: the
   walk records a path under the same three names. *)
Lemma consolidateGo_HasGoProfile root tc :
  CoverageSummary.HasGoProfile (consolidateGo fs root tc)
  = CoverageSummary.HasGoProfile tc
    || ((0 <? length (goSourcesOf root (CoverageSummary.Sources tc)))%nat
        && (0 <? fst (sumProfiles fs (goSourcesOf root (CoverageSummary.Sources tc))))).
Proof.
  unfold consolidateGo.
  destruct (0 <? length _)%nat; simpl; [|by rewrite orb_false_r].
  destruct (sumProfiles fs _) as [total covered]. simpl.
  destruct (0 <? total); simpl; [by rewrite orb_true_r|by rewrite orb_false_r].
Qed.

Lemma consolidateGo_Sources root tc :
  CoverageSummary.Sources (consolidateGo fs root tc) = CoverageSummary.Sources tc.
Proof.
  unfold consolidateGo. destruct (0 <? length _)%nat; [|done].
  destruct (sumProfiles fs _) as [total covered]. by destruct (0 <? total).
Qed.

End CoverageProperties.

(** C5: given two coverage profiles, each with a mode header, the first
    with the data line [a.go:1.1,2.2 3 1] and the second with
    [b.go:1.1,2.2 5 0], the consolidation sets TotalStmts to 8,
    CoveredStmts to 3 and Percent to 37.5 (and the profile flag). *)
Theorem coverage_of_two_profiles
    (fs : filesystem) (root : string) (tc : CoverageSummary.t)
    (s1 s2 m1 m2 : string) :
  In m1 coverModes -> In m2 coverModes ->
  CoverageSummary.Sources tc = [s1; s2] ->
  isGoProfileName s1 = true -> isGoProfileName s2 = true ->
  ReadFile fs (Filepath.Join root s1) = Ok (Samples.profile m1 "a.go:1.1,2.2 3 1") ->
  ReadFile fs (Filepath.Join root s2) = Ok (Samples.profile m2 "b.go:1.1,2.2 5 0") ->
  let tc' := consolidateGo fs root tc in
  CoverageSummary.TotalStmts tc' = 8
  /\ CoverageSummary.CoveredStmts tc' = 3
  /\ CoverageSummary.Percent tc' = 37.5%float
  /\ CoverageSummary.HasGoProfile tc' = true.
Proof.
  intros Hm1 Hm2 Hsrc Hn1 Hn2 Hr1 Hr2. unfold consolidateGo. rewrite Hsrc.
  unfold isGoProfileName in Hn1, Hn2.
  cbn [goSourcesOf]. rewrite Hn1, Hn2.
  cbn [length Nat.ltb Nat.leb].
  unfold sumProfiles. cbn [fold_left]. unfold parseGoCoverProfile.
  rewrite Hr1, Hr2.
  unfold coverModes in Hm1, Hm2. simpl in Hm1, Hm2.
  destruct Hm1 as [<-|[<-|[<-|[]]]]; destruct Hm2 as [<-|[<-|[<-|[]]]];
    vm_compute; repeat split.
Qed.

Lemma coverage_of_two_profiles_witness :
  let tc' :=
    consolidateGo Samples.coverDisk "/repo"
      (CoverageSummary.set_Sources ["coverage.out"; "pkg/coverage.out"]
         emptyCoverage) in
  CoverageSummary.TotalStmts tc' = 8
  /\ CoverageSummary.CoveredStmts tc' = 3
  /\ CoverageSummary.Percent tc' = 37.5%float
  /\ CoverageSummary.HasGoProfile tc' = true.
Proof.
  apply (coverage_of_two_profiles Samples.coverDisk "/repo"
           (CoverageSummary.set_Sources ["coverage.out"; "pkg/coverage.out"]
              emptyCoverage)
           "coverage.out" "pkg/coverage.out" "set" "set").
  - left. reflexivity.
  - left. reflexivity.
  - reflexivity.
  - reflexivity.
  - reflexivity.
  - reflexivity.
  - reflexivity.
Defined.

(* The same through a whole scan. *)
Example Scan_coverage_of_two_profiles :
  Summary.TestCoverage
    <$> Samples.scan Samples.coverDisk Samples.coverTree
          (sequential ["coverage.out"; "pkg/coverage.out"]) (Samples.config 1 "")
  = Some (Some (CoverageSummary.mk ["coverage.out"; "pkg/coverage.out"] 8 3
                  37.5%float true (BDDSum.mk 0 [] 0 0 0))).
Proof. vm_compute. reflexivity. Qed.

(** C6: a scan that finds exactly one coverage profile, [coverage.out] with
    its mode header and no data line, records the profile among the sources
    and leaves HasGoProfile false: the flag follows the statement total, not
    the finding of a profile. *)
Theorem HasGoProfile_false_for_found_empty_profile :
  Summary.TestCoverage
    <$> Samples.scan Samples.emptyProfileDisk Samples.emptyProfileTree
          (sequential ["coverage.out"]) (Samples.config 1 "")
  = Some (Some (CoverageSummary.mk ["coverage.out"] 0 0 0%float false
                  (BDDSum.mk 0 [] 0 0 0))).
Proof. vm_compute. reflexivity. Qed.

(** ** Order of the collections *)

(** C2: with two worker slots, two runs of Scan over the same tree (two
    schema files, two decision records) return the schema collection and
    the decision collection in different orders, one of them out of
    lexicographic order: these two collections are left as the workers
    merged them. *)
Theorem Scan_proto_and_decisions_follow_the_schedule :
  let cfg := Samples.config 2 "" in
  let inOrder :=
    Samples.scan Samples.apiDisk Samples.apiTree
      (sequential (@candidates Files_package Samples.noGitignore
                     Samples.apiDisk Samples.apiTree cfg)) cfg in
  let swapped :=
    Samples.scan Samples.apiDisk Samples.apiTree Samples.secondFirst cfg in
  (map ProtoInfo.File ∘ Summary.Proto) <$> inOrder
    = Some ["/repo/api/a.proto"; "/repo/api/b.proto"]
  /\ (map ProtoInfo.File ∘ Summary.Proto) <$> swapped
    = Some ["/repo/api/b.proto"; "/repo/api/a.proto"]
  /\ (map Decision.File ∘ Summary.Decisions) <$> inOrder
    = Some ["/repo/docs/adr/0001.md"; "/repo/docs/adr/0002.md"]
  /\ (map Decision.File ∘ Summary.Decisions) <$> swapped
    = Some ["/repo/docs/adr/0002.md"; "/repo/docs/adr/0001.md"].
Proof. repeat split; vm_compute; reflexivity. Qed.

(** ** Stored paths *)

(** C3: in the summary of the sample service under [/repo], the path lists
    and the keys of the readme summaries are relative to the root, while
    GoModule.Path, ProtoInfo.File, Decision.File and ReadmeSummary.File
    hold the path joined to the root. *)
Theorem Scan_records_store_root_joined_paths :
  let cfg := Samples.config 1 "" in
  let sum :=
    Samples.scan Samples.serviceDisk Samples.serviceTree
      (sequential (@candidates Files_package Samples.noGitignore
                     Samples.serviceDisk Samples.serviceTree cfg)) cfg in
  (map GoModule.Path ∘ Summary.GoModules) <$> sum = Some ["/repo/go.mod"]
  /\ (map ProtoInfo.File ∘ Summary.Proto) <$> sum = Some ["/repo/api/a.proto"]
  /\ (map Decision.File ∘ Summary.Decisions) <$> sum = Some ["/repo/docs/adr/0001.md"]
  /\ (fun s => ReadmeSummary.File <$> (Summary.ReadmeSummaries s !! "README.md")) <$> sum
     = Some (Some "/repo/README.md")
  /\ Summary.Readmes <$> sum = Some ["README.md"]
  /\ Summary.Dockerfiles <$> sum = Some ["Dockerfile"].
Proof. repeat split; vm_compute; reflexivity. Qed.

(** ** What every schedule agrees on *)

Lemma notAfter_leb a b : notAfter a b <-> String.leb a b = true.
Proof.
  unfold notAfter, less, String.ltb, String.leb.
  rewrite (String.compare_antisym a b).
  destruct (String.compare b a); simpl; split; congruence.
Qed.

Lemma leb_trans a b c :
  String.leb a b = true -> String.leb b c = true -> String.leb a c = true.
Proof.
  unfold String.leb. revert b c.
  induction a as [|x a IH]; intros [|y b] [|z c]; simpl; try done.
  change (Ascii.compare x y) with (N.compare (N_of_ascii x) (N_of_ascii y)).
  change (Ascii.compare y z) with (N.compare (N_of_ascii y) (N_of_ascii z)).
  change (Ascii.compare x z) with (N.compare (N_of_ascii x) (N_of_ascii z)).
  destruct (N.compare_spec (N_of_ascii x) (N_of_ascii y)) as [Exy|Lxy|Gxy];
    destruct (N.compare_spec (N_of_ascii y) (N_of_ascii z)) as [Eyz|Lyz|Gyz];
    destruct (N.compare_spec (N_of_ascii x) (N_of_ascii z)) as [Exz|Lxz|Gxz];
    try done; try lia.
  apply IH.
Qed.

#[local] Instance notAfter_total : Total notAfter.
Proof. intros a b. rewrite !notAfter_leb. apply String.leb_total. Qed.

#[local] Instance notAfter_trans : Transitive notAfter.
Proof. intros a b c. rewrite !notAfter_leb. apply leb_trans. Qed.

#[local] Instance notAfter_antisym : AntiSymm eq notAfter.
Proof. intros a b. rewrite !notAfter_leb. apply String.leb_antisym. Qed.

#[local] Instance byPath_total : Total byPath.
Proof. intros a b. apply notAfter_total. Qed.

#[local] Instance byPath_trans : Transitive byPath.
Proof. intros a b c. apply notAfter_trans. Qed.

Lemma sortStrings_sorted l : StronglySorted notAfter (sortStrings l).
Proof. apply StronglySorted_merge_sort; apply _. Qed.

Lemma sortStrings_perm l : sortStrings l ≡ₚ l.
Proof. apply merge_sort_Permutation. Qed.

(* A sorted list of strings depends on its elements only. *)
Lemma sortStrings_order_free l1 l2 : l1 ≡ₚ l2 -> sortStrings l1 = sortStrings l2.
Proof.
  intros Hp.
  apply (StronglySorted_unique notAfter); try apply sortStrings_sorted.
  by rewrite !sortStrings_perm.
Qed.

Lemma sortGoModules_sorted l : StronglySorted byPath (sortGoModules l).
Proof. apply StronglySorted_merge_sort; apply _. Qed.

Section OwedCollections.
Context `{FilesPackage} `{GoGitignore} `{EncodingJSON}.
Variable fs : filesystem.
Variable tree : node.
Variable now : Z.
Variable cfg : Config.t.
Context {A : Type}.
Variable F : Summary.t -> list A.
Hypothesis F_classify :
  forall p s, F (classify fs cfg p s) = F s ++ F (classify fs cfg p blank).
Hypothesis F_countExt : forall p s, F (countExt p s) = F s.

(* Merging moves a file's share from what is owed to the collection;
   nothing else changes the two together. *)
Lemma step_owed threads a st st' :
  isCancel a = false ->
  step fs cfg threads a st = Some st' ->
  owed fs cfg F st' ≡ₚ owed fs cfg F st.
Proof.
  intros Hc Hstep. unfold owed, contributed, unmerged.
  destruct a as [| |i|i]; simpl in *; try discriminate.
  - destruct (queue st) as [|p q] eqn:Hq; [discriminate|].
    case_match; [|discriminate]. injection Hstep as <-. simpl.
    rewrite omap_app. simpl. by rewrite <- app_assoc.
  - destruct (running st !! i) as [[p [|]]|] eqn:Hi; try discriminate.
    injection Hstep as <-. simpl.
    pose proof (lookup_lt_Some _ _ _ Hi) as Hlen.
    rewrite insert_take_drop by done.
    rewrite <- (take_drop_middle (running st) i _ Hi) at 3.
    rewrite F_classify, !omap_app. simpl. rewrite !flat_map_app. simpl.
    rewrite <- !app_assoc. apply Permutation_app_head.
    rewrite !app_assoc. apply Permutation_app_tail.
    rewrite <- !app_assoc. apply Permutation_app_swap_app.
  - destruct (running st !! i) as [[p [|]]|] eqn:Hi; try discriminate.
    injection Hstep as <-. simpl.
    rewrite delete_take_drop.
    rewrite <- (take_drop_middle (running st) i _ Hi) at 3.
    rewrite F_countExt, !omap_app. simpl. done.
Qed.

Lemma runPool_owed threads sched st st' :
  noCancel sched = true ->
  runPool fs cfg threads sched st = Some st' ->
  owed fs cfg F st' ≡ₚ owed fs cfg F st.
Proof.
  revert st. induction sched as [|a sched IH]; intros st Hnc Hrun; simpl in *.
  - by injection Hrun as <-.
  - apply andb_prop in Hnc as [Ha Hnc].
    destruct (step fs cfg threads a st) as [st1|] eqn:Hstep; [|discriminate].
    rewrite (IH st1 Hnc Hrun).
    apply (step_owed threads a); [by destruct (isCancel a)|done].
Qed.

Lemma drained_pool_merged threads sched st :
  noCancel sched = true ->
  F (agg (startPool fs tree now cfg)) = [] ->
  runPool fs cfg threads sched (startPool fs tree now cfg) = Some st ->
  drained st = true ->
  F (agg st) ≡ₚ contributions fs tree cfg F.
Proof.
  intros Hnc Hblank Hrun Hd.
  pose proof (runPool_owed _ _ _ _ Hnc Hrun) as Hp.
  unfold owed, contributed, unmerged in Hp. rewrite Hblank in Hp.
  unfold drained in Hd.
  destruct (queue st), (running st); try discriminate.
  cbn [omap list_omap flat_map app] in Hp. by rewrite app_nil_r in Hp.
Qed.

End OwedCollections.

Section ScheduleFreedom.
Context `{FilesPackage} `{GoGitignore} `{EncodingJSON}.
Variable fs : filesystem.
Variable tree : node.
Variable now numCPU : Z.
Variable cfg : Config.t.

Ltac classify_appends :=
  intros; unfold classify, addReport;
  repeat case_match; simpl; rewrite ?app_nil_r; reflexivity.

Lemma classify_GoModules p s :
  Summary.GoModules (classify fs cfg p s)
  = Summary.GoModules s ++ Summary.GoModules (classify fs cfg p blank).
Proof. classify_appends. Qed.

Lemma classify_Proto p s :
  Summary.Proto (classify fs cfg p s)
  = Summary.Proto s ++ Summary.Proto (classify fs cfg p blank).
Proof. classify_appends. Qed.

Lemma classify_MakeTargets p s :
  Summary.MakeTargets (classify fs cfg p s)
  = Summary.MakeTargets s ++ Summary.MakeTargets (classify fs cfg p blank).
Proof. classify_appends. Qed.

Lemma classify_Dockerfiles p s :
  Summary.Dockerfiles (classify fs cfg p s)
  = Summary.Dockerfiles s ++ Summary.Dockerfiles (classify fs cfg p blank).
Proof. classify_appends. Qed.

Lemma classify_SQLMigrations p s :
  Summary.SQLMigrations (classify fs cfg p s)
  = Summary.SQLMigrations s ++ Summary.SQLMigrations (classify fs cfg p blank).
Proof. classify_appends. Qed.

Lemma classify_Decisions p s :
  Summary.Decisions (classify fs cfg p s)
  = Summary.Decisions s ++ Summary.Decisions (classify fs cfg p blank).
Proof. classify_appends. Qed.

Lemma classify_EnvExamples p s :
  Summary.EnvExamples (classify fs cfg p s)
  = Summary.EnvExamples s ++ Summary.EnvExamples (classify fs cfg p blank).
Proof. classify_appends. Qed.

Lemma classify_Licenses p s :
  Summary.Licenses (classify fs cfg p s)
  = Summary.Licenses s ++ Summary.Licenses (classify fs cfg p blank).
Proof. classify_appends. Qed.

Lemma classify_Readmes p s :
  Summary.Readmes (classify fs cfg p s)
  = Summary.Readmes s ++ Summary.Readmes (classify fs cfg p blank).
Proof. classify_appends. Qed.

Lemma finish_lists s :
  let s' := finish fs tree cfg s in
  Summary.GoModules s' = sortGoModules (Summary.GoModules s)
  /\ Summary.Proto s' = Summary.Proto s
  /\ Summary.MakeTargets s' = sortStrings (Summary.MakeTargets s)
  /\ Summary.Dockerfiles s' = sortStrings (Summary.Dockerfiles s)
  /\ Summary.SQLMigrations s' = sortStrings (Summary.SQLMigrations s)
  /\ Summary.Decisions s' = Summary.Decisions s
  /\ Summary.EnvExamples s' = sortStrings (Summary.EnvExamples s)
  /\ Summary.Licenses s' = sortStrings (Summary.Licenses s)
  /\ Summary.Readmes s' = sortStrings (Summary.Readmes s).
Proof.
  unfold finish, consolidateCoverage. simpl.
  destruct (Summary.TestCoverage s); simpl; repeat split; reflexivity.
Qed.

(* When Scan returns and the context was not cancelled: the six path and
   target lists are the sorted contributions of the candidates, whatever
   the schedule; the module list is sorted by path and holds the modules
   of the candidates; the schema and decision lists hold theirs, in the
   order of merging. *)
Lemma Scan_collections sched sum :
  noCancel sched = true ->
  Scan fs tree now numCPU sched cfg = Some sum ->
  Summary.MakeTargets sum = sortStrings (contributions fs tree cfg Summary.MakeTargets)
  /\ Summary.Dockerfiles sum = sortStrings (contributions fs tree cfg Summary.Dockerfiles)
  /\ Summary.SQLMigrations sum
     = sortStrings (contributions fs tree cfg Summary.SQLMigrations)
  /\ Summary.EnvExamples sum = sortStrings (contributions fs tree cfg Summary.EnvExamples)
  /\ Summary.Licenses sum = sortStrings (contributions fs tree cfg Summary.Licenses)
  /\ Summary.Readmes sum = sortStrings (contributions fs tree cfg Summary.Readmes)
  /\ (StronglySorted byPath (Summary.GoModules sum)
      /\ Summary.GoModules sum ≡ₚ contributions fs tree cfg Summary.GoModules)
  /\ Summary.Proto sum ≡ₚ contributions fs tree cfg Summary.Proto
  /\ Summary.Decisions sum ≡ₚ contributions fs tree cfg Summary.Decisions.
Proof.
  intros Hnc. unfold Scan.
  destruct (runPool _ _ _ _ _) as [st|] eqn:Hrun; [|discriminate].
  destruct (drained st) eqn:Hd; [|discriminate]. intros [= <-].
  destruct (finish_lists (agg st))
    as (-> & -> & -> & -> & -> & -> & -> & -> & ->).
  repeat split.
  - apply sortStrings_order_free.
    by eapply (drained_pool_merged fs tree now cfg _ classify_MakeTargets
                 (fun _ _ => eq_refl)).
  - apply sortStrings_order_free.
    by eapply (drained_pool_merged fs tree now cfg _ classify_Dockerfiles
                 (fun _ _ => eq_refl)).
  - apply sortStrings_order_free.
    by eapply (drained_pool_merged fs tree now cfg _ classify_SQLMigrations
                 (fun _ _ => eq_refl)).
  - apply sortStrings_order_free.
    by eapply (drained_pool_merged fs tree now cfg _ classify_EnvExamples
                 (fun _ _ => eq_refl)).
  - apply sortStrings_order_free.
    by eapply (drained_pool_merged fs tree now cfg _ classify_Licenses
                 (fun _ _ => eq_refl)).
  - apply sortStrings_order_free.
    by eapply (drained_pool_merged fs tree now cfg _ classify_Readmes
                 (fun _ _ => eq_refl)).
  - apply sortGoModules_sorted.
  - unfold sortGoModules. rewrite merge_sort_Permutation.
    by eapply (drained_pool_merged fs tree now cfg _ classify_GoModules
                 (fun _ _ => eq_refl)).
  - by eapply (drained_pool_merged fs tree now cfg _ classify_Proto
                 (fun _ _ => eq_refl)).
  - by eapply (drained_pool_merged fs tree now cfg _ classify_Decisions
                 (fun _ _ => eq_refl)).
Qed.

(* Two runs that were not cancelled agree on the six sorted string lists. *)
Lemma Scan_string_lists_schedule_free sched1 sched2 sum1 sum2 :
  noCancel sched1 = true -> noCancel sched2 = true ->
  Scan fs tree now numCPU sched1 cfg = Some sum1 ->
  Scan fs tree now numCPU sched2 cfg = Some sum2 ->
  Summary.MakeTargets sum1 = Summary.MakeTargets sum2
  /\ Summary.Dockerfiles sum1 = Summary.Dockerfiles sum2
  /\ Summary.SQLMigrations sum1 = Summary.SQLMigrations sum2
  /\ Summary.EnvExamples sum1 = Summary.EnvExamples sum2
  /\ Summary.Licenses sum1 = Summary.Licenses sum2
  /\ Summary.Readmes sum1 = Summary.Readmes sum2.
Proof.
  intros Hn1 Hn2 Hs1 Hs2.
  destruct (Scan_collections sched1 sum1 Hn1 Hs1)
    as (-> & -> & -> & -> & -> & -> & _).
  destruct (Scan_collections sched2 sum2 Hn2 Hs2)
    as (-> & -> & -> & -> & -> & -> & _).
  done.
Qed.

End ScheduleFreedom.

(** ** What the records and the path lists store *)

Section StoredPaths.
Context `{FilesPackage} `{GoGitignore} `{EncodingJSON}.
Variable fs : filesystem.
Variable tree : node.
Variable now numCPU : Z.
Variable cfg : Config.t.

Lemma parseProto_File path maxBytes pi :
  parseProto fs path maxBytes = Ok pi -> ProtoInfo.File pi = path.
Proof.
  unfold parseProto. destruct (files_ReadHead fs path maxBytes) as [head [e|]];
    [discriminate|]. intros [= <-].
  assert (Hfold : forall lines pi0,
             ProtoInfo.File (fold_left protoLine lines pi0) = ProtoInfo.File pi0).
  { induction lines as [|ln lines IH]; intros pi0; simpl; [done|].
    rewrite IH. unfold protoLine. repeat case_match; reflexivity. }
  apply Hfold.
Qed.

Lemma parseDecision_File path maxBytes dec :
  parseDecision fs path maxBytes = Ok dec -> Decision.File dec = path.
Proof.
  unfold parseDecision. destruct (files_ReadHead fs path maxBytes) as [head [e|]];
    [discriminate|]. destruct (decisionLoop _ _ _). by intros [= <-].
Qed.

Lemma parseReadmeSummary_File path maxBytes rs :
  parseReadmeSummary fs path maxBytes = Ok rs -> ReadmeSummary.File rs = path.
Proof.
  unfold parseReadmeSummary.
  destruct (files_ReadHead fs path maxBytes) as [head [e|]]; [discriminate|].
  by intros [= <-].
Qed.

(* A module, schema or decision record that a file contributes holds the
   path of the file joined to the root. *)
Lemma classify_GoModule_Path p gm :
  In gm (Summary.GoModules (classify fs cfg p blank)) ->
  GoModule.Path gm = Filepath.Join (Config.Root cfg) p.
Proof.
  unfold classify, addReport.
  repeat case_match; simpl; try tauto.
  intros [<-|[]]. by eapply parseGoMod_Path.
Qed.

Lemma classify_Proto_File p pi :
  In pi (Summary.Proto (classify fs cfg p blank)) ->
  ProtoInfo.File pi = Filepath.Join (Config.Root cfg) p.
Proof.
  unfold classify, addReport.
  repeat case_match; simpl; try tauto.
  intros [<-|[]]. by eapply parseProto_File.
Qed.

Lemma classify_Decision_File p dec :
  In dec (Summary.Decisions (classify fs cfg p blank)) ->
  Decision.File dec = Filepath.Join (Config.Root cfg) p.
Proof.
  unfold classify, addReport.
  repeat case_match; simpl; try tauto.
  intros [<-|[]]. by eapply parseDecision_File.
Qed.

(* A path list takes the relative path of the file itself. *)
Lemma classify_path_lists p x :
  In x (Summary.Dockerfiles (classify fs cfg p blank)
        ++ Summary.SQLMigrations (classify fs cfg p blank)
        ++ Summary.EnvExamples (classify fs cfg p blank)
        ++ Summary.Licenses (classify fs cfg p blank)
        ++ Summary.Readmes (classify fs cfg p blank)) ->
  x = p.
Proof.
  unfold classify, addReport.
  repeat case_match; simpl; try tauto; intros [<-|[]]; reflexivity.
Qed.

Lemma In_contributions {A : Type} (F : Summary.t -> list A) x :
  In x (contributions fs tree cfg F) ->
  exists p, In p (candidates fs tree cfg) /\ In x (F (classify fs cfg p blank)).
Proof.
  unfold contributions, contributed. rewrite in_flat_map. intros (p & Hp & Hx). eauto.
Qed.

(* In the summary of a run that was not cancelled, every record holds the
   root-joined path of a candidate. *)
Lemma Scan_record_paths sched sum :
  noCancel sched = true ->
  Scan fs tree now numCPU sched cfg = Some sum ->
  (forall gm, In gm (Summary.GoModules sum) ->
     exists p, In p (candidates fs tree cfg)
               /\ GoModule.Path gm = Filepath.Join (Config.Root cfg) p)
  /\ (forall pi, In pi (Summary.Proto sum) ->
        exists p, In p (candidates fs tree cfg)
                  /\ ProtoInfo.File pi = Filepath.Join (Config.Root cfg) p)
  /\ (forall dec, In dec (Summary.Decisions sum) ->
        exists p, In p (candidates fs tree cfg)
                  /\ Decision.File dec = Filepath.Join (Config.Root cfg) p).
Proof.
  intros Hnc Hscan.
  destruct (Scan_collections fs tree now numCPU cfg sched sum Hnc Hscan)
    as (_ & _ & _ & _ & _ & _ & [_ Hgm] & Hpi & Hdec).
  repeat split.
  - intros gm Hin. apply list_elem_of_In in Hin. rewrite Hgm in Hin.
    apply list_elem_of_In, In_contributions in Hin as (p & Hp & Hin).
    exists p. split; [done|]. by apply classify_GoModule_Path.
  - intros pi Hin. apply list_elem_of_In in Hin. rewrite Hpi in Hin.
    apply list_elem_of_In, In_contributions in Hin as (p & Hp & Hin).
    exists p. split; [done|]. by apply classify_Proto_File.
  - intros dec Hin. apply list_elem_of_In in Hin. rewrite Hdec in Hin.
    apply list_elem_of_In, In_contributions in Hin as (p & Hp & Hin).
    exists p. split; [done|]. by apply classify_Decision_File.
Qed.

End StoredPaths.

(* Joined to an absolute root, no path is relative. *)
Lemma Join_absolute root p :
  HasPrefix root "/" = true -> HasPrefix (Filepath.Join root p) "/" = true.
Proof.
  unfold Filepath.Join. destruct root as [|c root]; [discriminate|].
  intros Hroot. apply andb_prop in Hroot as [Hc _].
  destruct (HasSuffix _ _); rewrite append_cons; simpl; rewrite Hc;
    apply HasPrefix_empty.
Qed.

(** * Further properties *)

(** ** More on strings *)

Lemma ContainsByte_append a b c :
  ContainsByte (a +:+ b) c = ContainsByte a c || ContainsByte b c.
Proof.
  induction a as [|d a IH]; [done|].
  rewrite append_cons. simpl. by rewrite IH, orb_assoc.
Qed.

Lemma ContainsByte_sliceTo n s c :
  ContainsByte s c = false -> ContainsByte (sliceTo n s) c = false.
Proof.
  revert n. induction s as [|d s IH]; intros [|n]; simpl; try done.
  intros [-> Hs]%orb_false_iff. simpl. by apply IH.
Qed.

Lemma ContainsByte_TrimLeftFunc f s c :
  ContainsByte s c = false -> ContainsByte (TrimLeftFunc f s) c = false.
Proof.
  induction s as [|d s IH]; simpl; [done|].
  intros Hs. destruct (f d); [|done].
  apply orb_false_iff in Hs as [_ Hs]. by apply IH.
Qed.

Lemma ContainsByte_TrimRightFunc f s c :
  ContainsByte s c = false -> ContainsByte (TrimRightFunc f s) c = false.
Proof.
  induction s as [|d s IH]; simpl; [done|].
  intros [Hd Hs]%orb_false_iff. specialize (IH Hs).
  destruct (TrimRightFunc f s) as [|e t].
  - destruct (f d); simpl; [done|]. by rewrite Hd.
  - simpl in *. by rewrite Hd, IH.
Qed.

Lemma ContainsByte_TrimSpace s c :
  ContainsByte s c = false -> ContainsByte (TrimSpace s) c = false.
Proof.
  intros Hs. unfold TrimSpace, TrimFunc.
  by apply ContainsByte_TrimRightFunc, ContainsByte_TrimLeftFunc.
Qed.

Lemma ContainsByte_ReplaceAll s old new :
  old <> new -> ContainsByte (ReplaceAll s old new) old = false.
Proof.
  intros Hne. induction s as [|d s IH]; simpl; [done|].
  rewrite IH, orb_false_r.
  destruct (Ascii.eqb_spec d old) as [->|Hd].
  - by apply Ascii.eqb_neq.
  - by apply Ascii.eqb_neq.
Qed.

Lemma ContainsByte_ReplaceAll_other s old new c :
  c <> new -> ContainsByte s c = false ->
  ContainsByte (ReplaceAll s old new) c = false.
Proof.
  intros Hne. induction s as [|d s IH]; simpl; [done|].
  intros [Hd Hs]%orb_false_iff. rewrite (IH Hs), orb_false_r.
  destruct (Ascii.eqb d old); [|done]. apply Ascii.eqb_neq. congruence.
Qed.

(* A one-byte needle: Contains is ContainsByte. *)
Lemma Contains_byte s c : Contains s (String c "") = ContainsByte s c.
Proof.
  induction s as [|d s IH]; simpl; [done|].
  rewrite IH. by rewrite HasPrefix_empty, andb_true_r.
Qed.

(* What TrimLeftFunc leaves does not start with a trimmed byte. *)
Lemma TrimLeftFunc_first f s c t :
  TrimLeftFunc f s = String c t -> f c = false.
Proof.
  induction s as [|d s IH]; simpl; [done|].
  destruct (f d) eqn:Hd; [done|]. by intros [= <- _].
Qed.

Lemma TrimRightFunc_idem f s :
  TrimRightFunc f (TrimRightFunc f s) = TrimRightFunc f s.
Proof.
  induction s as [|c s IH]; simpl; [done|].
  destruct (TrimRightFunc f s) as [|e t] eqn:E.
  - destruct (f c) eqn:Hc; simpl; [done|]. by rewrite Hc.
  - simpl. simpl in IH. by rewrite IH.
Qed.

Lemma TrimRightFunc_keeps_first f c s :
  f c = false -> exists t, TrimRightFunc f (String c s) = String c t.
Proof.
  intros Hc. simpl. destruct (TrimRightFunc f s); [rewrite Hc|]; eauto.
Qed.

Lemma TrimFunc_idem f s : TrimFunc f (TrimFunc f s) = TrimFunc f s.
Proof.
  unfold TrimFunc.
  destruct (TrimLeftFunc f s) as [|c t] eqn:E; [done|].
  pose proof (TrimLeftFunc_first f s c t E) as Hc.
  destruct (TrimRightFunc_keeps_first f c t Hc) as [u Hu].
  rewrite Hu. simpl TrimLeftFunc. rewrite Hc. rewrite <- Hu.
  apply TrimRightFunc_idem.
Qed.

Lemma TrimSpace_idem s : TrimSpace (TrimSpace s) = TrimSpace s.
Proof. apply TrimFunc_idem. Qed.

(* No piece of a split holds the separator. *)
Lemma Split_pieces s sep :
  Forall (fun piece => ContainsByte piece sep = false) (Split s sep).
Proof.
  induction s as [|c s IH]; simpl.
  - by apply Forall_singleton.
  - destruct (Ascii.eqb c sep) eqn:Hc.
    + constructor; [done|exact IH].
    + destruct (Split s sep) as [|h t]; [apply Forall_singleton; simpl; by rewrite Hc|].
      apply Forall_cons_1 in IH as [Hh Ht].
      constructor; [|done]. simpl. by rewrite Hc, Hh.
Qed.

Lemma Split_append s t sep :
  Split (s +:+ String sep t) sep = Split s sep ++ Split t sep.
Proof.
  induction s as [|c s IH].
  - simpl. by rewrite Ascii.eqb_refl.
  - rewrite append_cons. simpl. rewrite IH.
    destruct (Ascii.eqb c sep); [done|].
    destruct (Split s sep) as [|h u] eqn:E; [|done].
    exfalso. clear -E. induction s as [|d s IHs]; simpl in E; [done|].
    destruct (Ascii.eqb d sep); [done|]. destruct (Split s sep); done.
Qed.

(** ** splitCSV *)

Lemma splitCSVParts_entries parts :
  Forall (fun p => ContainsByte p "," = false) parts ->
  Forall (fun x => x <> "" /\ TrimSpace x = x /\ ContainsByte x "," = false)
    (splitCSVParts parts).
Proof.
  induction 1 as [|p parts Hp _ IH]; simpl; [done|].
  destruct (isEmpty (TrimSpace p)) eqn:He; simpl; [done|].
  constructor; [|done].
  split; [by apply isEmpty_false|]. split; [apply TrimSpace_idem|].
  by apply ContainsByte_TrimSpace.
Qed.

(** X1: every entry that splitCSV returns is non-empty, has no white space
    around it and holds no comma; a text that is blank after trimming gives
    no entry at all. *)
Theorem splitCSV_entries (s : string) :
  Forall (fun x => x <> "" /\ TrimSpace x = x /\ ContainsByte x "," = false)
    (splitCSV s)
  /\ (TrimSpace s = "" -> splitCSV s = []).
Proof.
  split.
  - unfold splitCSV. destruct (isEmpty (TrimSpace s)); [done|].
    apply splitCSVParts_entries, Split_pieces.
  - intros Hs. unfold splitCSV. by rewrite Hs.
Qed.

(** ** atoiSafe *)

Lemma wrap64_range z : - 2 ^ 63 <= wrap64 z < 2 ^ 63.
Proof. unfold wrap64. pose proof (Z.mod_pos_bound (z + 2 ^ 63) (2 ^ 64)). lia. Qed.

Lemma wrap64_add_l a b : wrap64 (wrap64 a + b) = wrap64 (a + b).
Proof.
  unfold wrap64. f_equal.
  replace ((a + 2 ^ 63) mod 2 ^ 64 - 2 ^ 63 + b + 2 ^ 63)
    with ((a + 2 ^ 63) mod 2 ^ 64 + b) by lia.
  rewrite Z.add_mod_idemp_l by lia. f_equal. lia.
Qed.

Lemma wrap64_add_r a b : wrap64 (a + wrap64 b) = wrap64 (a + b).
Proof. rewrite (Z.add_comm a), wrap64_add_l. f_equal. lia. Qed.

Lemma isDigit_spec c :
  isDigit c = true ->
  (Utf8.byteZ c <? 48) || (57 <? Utf8.byteZ c) = false
  /\ 0 <= Utf8.byteZ c - 48 <= 9.
Proof.
  unfold isDigit. intros [Hlo Hhi]%andb_prop.
  destruct (Z.ltb_spec (Utf8.byteZ c) 48); [lia|].
  destruct (Z.ltb_spec 57 (Utf8.byteZ c)); [lia|]. simpl. lia.
Qed.

Lemma atoiLoop_append ds rest n :
  isDigits ds = true -> atoiLoop (ds +:+ rest) n = atoiLoop rest (atoiLoop ds n).
Proof.
  revert n. induction ds as [|c ds IH]; intros n Hd; [done|].
  rewrite append_cons. simpl in *. apply andb_prop in Hd as [Hc Hd].
  destruct (isDigit_spec c Hc) as [-> _]. by apply IH.
Qed.

Lemma atoiLoop_stops tail n : startsWithDigit tail = false -> atoiLoop tail n = n.
Proof.
  destruct tail as [|c t]; [done|]. simpl. unfold isDigit. intros Hc.
  destruct (Z.ltb_spec (Utf8.byteZ c) 48); [done|].
  destruct (Z.ltb_spec 57 (Utf8.byteZ c)); [done|].
  apply andb_false_iff in Hc as [Hc|Hc]; lia.
Qed.

Lemma atoiLoop_value ds n :
  isDigits ds = true ->
  0 <= n ->
  n * 10 ^ Z.of_nat (String.length ds) + 10 ^ Z.of_nat (String.length ds) <= 2 ^ 63 ->
  atoiLoop ds n = n * 10 ^ Z.of_nat (String.length ds) + atoiLoop ds 0
  /\ 0 <= atoiLoop ds 0 < 10 ^ Z.of_nat (String.length ds).
Proof.
  revert n. induction ds as [|c ds IH]; intros n Hd Hn Hb.
  - simpl. lia.
  - simpl in Hd. apply andb_prop in Hd as [Hc Hd].
    destruct (isDigit_spec c Hc) as [Hnd Hd09].
    cbn [atoiLoop String.length]. cbn [String.length] in Hb.
    rewrite Hnd.
    rewrite Nat2Z.inj_succ, Z.pow_succ_r in * by lia.
    set (P := 10 ^ Z.of_nat (String.length ds)) in *.
    assert (HP : 0 < P) by (apply Z.pow_pos_nonneg; lia).
    clearbody P.
    set (d := Utf8.byteZ c - 48) in *. clearbody d.
    assert (H63 : 2 ^ 63 = 9223372036854775808) by reflexivity.
    rewrite H63 in Hb.
    assert (Hmono : (n * 10 + 10) * 1 <= (n * 10 + 10) * P)
      by (apply Z.mul_le_mono_nonneg_l; lia).
    assert (Hn10 : n * 10 + 10 <= 9223372036854775808) by lia.
    rewrite !Z.mul_0_l, !Z.add_0_l.
    rewrite (wrap64_small (n * 10)) by (rewrite H63; lia).
    rewrite (wrap64_small (n * 10 + d)) by (rewrite H63; lia).
    rewrite (wrap64_small d) by (rewrite H63; lia).
    assert (HdP : d * P <= 9 * P) by (apply Z.mul_le_mono_nonneg_r; lia).
    assert (HdP0 : 0 <= d * P) by (apply Z.mul_nonneg_nonneg; lia).
    assert (HnP0 : 0 <= n * P) by (apply Z.mul_nonneg_nonneg; lia).
    destruct (IH (n * 10 + d)) as [E1 B1]; [done|lia|rewrite H63; lia|].
    destruct (IH d) as [E2 B2]; [done|lia|rewrite H63; lia|].
    rewrite E1, E2. split; lia.
Qed.

(** X2: atoiSafe reads decimal digits up to the first byte that is not a
    digit and ignores the rest: for digit strings [a] and [b] of at most 18
    digits together, followed by a tail that does not start with a digit,
    the value is that of [a] shifted by the length of [b] plus that of [b]. *)
Theorem atoiSafe_leading_digits (a b tail : string) :
  isDigits a = true -> isDigits b = true -> startsWithDigit tail = false ->
  (String.length a + String.length b <= 18)%nat ->
  atoiSafe (a +:+ b +:+ tail)
  = atoiSafe a * 10 ^ Z.of_nat (String.length b) + atoiSafe b
  /\ 0 <= atoiSafe b < 10 ^ Z.of_nat (String.length b).
Proof.
  intros Ha Hb Ht Hlen. unfold atoiSafe.
  rewrite atoiLoop_append by done. rewrite atoiLoop_append by done.
  rewrite atoiLoop_stops by done.
  assert (H18 : 10 ^ 18 < 2 ^ 63) by reflexivity.
  assert (Hpow : 10 ^ Z.of_nat (String.length a) * 10 ^ Z.of_nat (String.length b)
                 <= 10 ^ 18).
  { rewrite <- Z.pow_add_r by lia. apply Z.pow_le_mono_r; lia. }
  assert (HPa : 0 < 10 ^ Z.of_nat (String.length a)) by (apply Z.pow_pos_nonneg; lia).
  assert (HPb : 0 < 10 ^ Z.of_nat (String.length b)) by (apply Z.pow_pos_nonneg; lia).
  destruct (atoiLoop_value a 0 Ha) as [_ Ba]; [lia| |].
  { rewrite Z.mul_0_l, Z.add_0_l.
    assert (10 ^ Z.of_nat (String.length a) * 1
            <= 10 ^ Z.of_nat (String.length a) * 10 ^ Z.of_nat (String.length b))
      by (apply Z.mul_le_mono_nonneg_l; lia). lia. }
  set (A := atoiLoop a 0) in *. set (PA := 10 ^ Z.of_nat (String.length a)) in *.
  set (PB := 10 ^ Z.of_nat (String.length b)) in *.
  apply (atoiLoop_value b A Hb); [lia|].
  change (A * PB + PB <= 2 ^ 63).
  clearbody A PA PB.
  assert ((A + 1) * PB <= PA * PB) by (apply Z.mul_le_mono_nonneg_r; lia).
  assert (H10 : 10 ^ 18 = 1000000000000000000) by reflexivity.
  assert (H63 : 2 ^ 63 = 9223372036854775808) by reflexivity.
  rewrite H10 in Hpow. rewrite H63. lia.
Qed.

Lemma atoiSafe_leading_digits_witness :
  atoiSafe ("12" +:+ "34" +:+ " of 99")
  = atoiSafe "12" * 10 ^ Z.of_nat (String.length "34") + atoiSafe "34"
  /\ 0 <= atoiSafe "34" < 10 ^ Z.of_nat (String.length "34").
Proof.
  apply (atoiSafe_leading_digits "12" "34" " of 99");
    [reflexivity|reflexivity|reflexivity|simpl; lia].
Defined.

(** ** Cover profiles *)

(* One line adds its statement count to the total and, when it was hit, to
   the covered count, whatever was counted before. *)
Lemma coverLine_shift t c ln :
  - 2 ^ 63 <= t < 2 ^ 63 -> - 2 ^ 63 <= c < 2 ^ 63 ->
  coverLine (t, c) ln
  = (wrap64 (t + fst (coverLine (0, 0) ln)), wrap64 (c + snd (coverLine (0, 0) ln))).
Proof.
  intros Ht Hc. unfold coverLine.
  destruct (isEmpty (TrimSpace ln) || HasPrefix (TrimSpace ln) "mode:").
  { simpl. by rewrite !Z.add_0_r, !wrap64_small. }
  destruct (Fields (TrimSpace ln)) as [|p0 [|p1 [|p2 rest]]];
    try (simpl; by rewrite !Z.add_0_r, !wrap64_small).
  simpl. rewrite wrap64_add_r. f_equal.
  destruct (0 <? atoiSafe p2).
  - by rewrite wrap64_add_r.
  - by rewrite Z.add_0_r, wrap64_small.
Qed.

Lemma coverLine_range acc ln :
  (- 2 ^ 63 <= fst acc < 2 ^ 63 /\ - 2 ^ 63 <= snd acc < 2 ^ 63) ->
  - 2 ^ 63 <= fst (coverLine acc ln) < 2 ^ 63
  /\ - 2 ^ 63 <= snd (coverLine acc ln) < 2 ^ 63.
Proof.
  destruct acc as [t c]. cbn [fst snd]. intros [Ht Hc].
  rewrite coverLine_shift by done. cbn [fst snd]. split; apply wrap64_range.
Qed.

Lemma coverLines_range lines acc :
  (- 2 ^ 63 <= fst acc < 2 ^ 63 /\ - 2 ^ 63 <= snd acc < 2 ^ 63) ->
  - 2 ^ 63 <= fst (fold_left coverLine lines acc) < 2 ^ 63
  /\ - 2 ^ 63 <= snd (fold_left coverLine lines acc) < 2 ^ 63.
Proof.
  revert acc. induction lines as [|ln lines IH]; intros acc Hacc; cbn [fold_left];
    [done|].
  by apply IH, coverLine_range.
Qed.

Lemma coverLines_shift lines t c :
  - 2 ^ 63 <= t < 2 ^ 63 -> - 2 ^ 63 <= c < 2 ^ 63 ->
  fold_left coverLine lines (t, c)
  = (wrap64 (t + fst (fold_left coverLine lines (0, 0))),
     wrap64 (c + snd (fold_left coverLine lines (0, 0)))).
Proof.
  revert t c. induction lines as [|ln lines IH]; intros t c Ht Hc; cbn [fold_left].
  - cbn [fst snd]. by rewrite !Z.add_0_r, !wrap64_small.
  - rewrite coverLine_shift by done.
    rewrite IH by apply wrap64_range.
    destruct (coverLine_range (0, 0) ln) as [Hr1 Hr2]; [cbn [fst snd]; lia|].
    destruct (coverLine (0, 0) ln) as [t1 c1] eqn:E. cbn [fst snd] in *.
    rewrite (IH t1 c1) by done. cbn [fst snd].
    rewrite !wrap64_add_l, !wrap64_add_r. f_equal; f_equal; lia.
Qed.

Lemma coverCounts_append a b :
  coverCounts (a +:+ String LF b)
  = (wrap64 (fst (coverCounts a) + fst (coverCounts b)),
     wrap64 (snd (coverCounts a) + snd (coverCounts b))).
Proof.
  unfold coverCounts. rewrite Split_append, fold_left_app.
  destruct (coverLines_range (Split a LF) (0, 0)) as [Hr1 Hr2]; [cbn [fst snd]; lia|].
  destruct (fold_left coverLine (Split a LF) (0, 0)) as [t c]. cbn [fst snd] in *.
  by apply coverLines_shift.
Qed.

(** X3: a cover profile that is two profiles one after the other counts as
    the two together: its totals are the wrapped sums of theirs. *)
Theorem parseGoCoverProfile_concatenation
    (fs : filesystem) (pa pb pab a b : string) :
  ReadFile fs pa = Ok a -> ReadFile fs pb = Ok b ->
  ReadFile fs pab = Ok (a +:+ String LF b) ->
  parseGoCoverProfile fs pab
  = (wrap64 (fst (parseGoCoverProfile fs pa) + fst (parseGoCoverProfile fs pb)),
     wrap64 (snd (parseGoCoverProfile fs pa) + snd (parseGoCoverProfile fs pb))).
Proof.
  intros Ha Hb Hab. unfold parseGoCoverProfile. rewrite Ha, Hb, Hab.
  apply coverCounts_append.
Qed.

Lemma parseGoCoverProfile_concatenation_witness :
  parseGoCoverProfile Cases.profileDisk "/ab.out"
  = (wrap64 (fst (parseGoCoverProfile Cases.profileDisk "/a.out")
             + fst (parseGoCoverProfile Cases.profileDisk "/b.out")),
     wrap64 (snd (parseGoCoverProfile Cases.profileDisk "/a.out")
             + snd (parseGoCoverProfile Cases.profileDisk "/b.out"))).
Proof.
  apply (parseGoCoverProfile_concatenation Cases.profileDisk "/a.out" "/b.out"
           "/ab.out" Cases.profileA Cases.profileB); reflexivity.
Defined.

(** ** Readme summaries and make targets *)

Lemma length_append a b :
  String.length (a +:+ b) = (String.length a + String.length b)%nat.
Proof. induction a as [|c a IH]; [done|]. rewrite append_cons. simpl. by rewrite IH. Qed.

Lemma limit_bounded s n :
  (String.length (limit s n) <= n + 3)%nat
  /\ ContainsByte (limit s n) LF = false
  /\ ContainsByte (limit s n) CR = false.
Proof.
  unfold limit.
  set (t := TrimSpace (ReplaceAll (ReplaceAll s CR " ") LF " ")).
  assert (Hlf : ContainsByte t LF = false).
  { apply ContainsByte_TrimSpace, ContainsByte_ReplaceAll. done. }
  assert (Hcr : ContainsByte t CR = false).
  { apply ContainsByte_TrimSpace, ContainsByte_ReplaceAll_other; [done|].
    by apply ContainsByte_ReplaceAll. }
  destruct (Nat.ltb_spec n (String.length t)) as [Hlong|Hshort].
  - rewrite length_append, length_sliceTo, !ContainsByte_append.
    rewrite !ContainsByte_sliceTo by done.
    split; [simpl; lia|]. by split.
  - split; [lia|]. by split.
Qed.

(** X4: whatever the README holds, the summary is short and on one line:
    the title has at most 120 bytes and each of the two paragraphs at most
    400, plus the three bytes of the ellipsis, and no field holds a line
    feed or a carriage return. *)
Theorem parseReadmeSummary_bounded `{FilesPackage}
    (fs : filesystem) (path : string) (maxBytes : Z) (rs : ReadmeSummary.t) :
  parseReadmeSummary fs path maxBytes = Ok rs ->
  (String.length (ReadmeSummary.Title rs) <= 123)%nat
  /\ (String.length (ReadmeSummary.FirstPara rs) <= 403)%nat
  /\ (String.length (ReadmeSummary.Objective rs) <= 403)%nat
  /\ Forall (fun field => ContainsByte field LF = false /\ ContainsByte field CR = false)
       [ReadmeSummary.Title rs; ReadmeSummary.FirstPara rs; ReadmeSummary.Objective rs].
Proof.
  unfold parseReadmeSummary.
  destruct (files_ReadHead fs path maxBytes) as [head [e|]]; [discriminate|].
  intros [= <-]. simpl.
  pose proof (limit_bounded (readmeTitle (Split head LF)) 120) as (H1 & H2 & H3).
  pose proof (limit_bounded (readmeFirstPara (Split head LF)) 400) as (H4 & H5 & H6).
  pose proof (limit_bounded
                (findSection ["Objetivo"; "Objective"; "Goals"] (Split head LF)) 400)
    as (H7 & H8 & H9).
  repeat split; try done; try lia.
  repeat constructor; done.
Qed.

Lemma parseReadmeSummary_bounded_witness :
  match @parseReadmeSummary Files_package Samples.serviceDisk "/repo/README.md" 65536
  with
  | Ok rs =>
      (String.length (ReadmeSummary.Title rs) <= 123)%nat
      /\ (String.length (ReadmeSummary.FirstPara rs) <= 403)%nat
      /\ (String.length (ReadmeSummary.Objective rs) <= 403)%nat
      /\ Forall (fun field =>
                   ContainsByte field LF = false /\ ContainsByte field CR = false)
           [ReadmeSummary.Title rs; ReadmeSummary.FirstPara rs;
            ReadmeSummary.Objective rs]
  | Err _ => False
  end.
Proof.
  destruct (@parseReadmeSummary Files_package Samples.serviceDisk "/repo/README.md"
              65536) as [rs|e] eqn:Hrs.
  - exact (@parseReadmeSummary_bounded Files_package Samples.serviceDisk
             "/repo/README.md" 65536 rs Hrs).
  - vm_compute in Hrs. discriminate.
Defined.

Lemma makeLine_targets targets ln :
  Forall (fun t => t <> "" /\ Contains t "=" = false /\ Contains t " " = false) targets ->
  Forall (fun t => t <> "" /\ Contains t "=" = false /\ Contains t " " = false)
    (makeLine targets ln).
Proof.
  intros Hall. unfold makeLine.
  destruct (isEmpty (TrimSpace ln) || HasPrefix (TrimSpace ln) "#"); [done|].
  destruct (negb (Contains (TrimSpace ln) "=")) eqn:Heq; simpl; [|done].
  destruct (HasSuffix (TrimSpace ln) ":") eqn:Hcolon; simpl; [|done].
  destruct (negb (Contains (TrimSpace ln) " ")) eqn:Hsp; simpl; [|done].
  destruct (isEmpty (TrimSuffix (TrimSpace ln) ":")) eqn:He; simpl; [done|].
  apply Forall_app. split; [done|]. apply Forall_singleton.
  split; [by apply isEmpty_false|].
  apply negb_true_iff in Heq, Hsp.
  unfold TrimSuffix. rewrite Hcolon.
  rewrite !Contains_byte in *. split; by apply ContainsByte_sliceTo.
Qed.

(** X5: a make target that parseMakeTargets returns is a non-empty name
    without an equals sign and without a space. *)
Theorem parseMakeTargets_targets `{FilesPackage}
    (fs : filesystem) (path : string) (maxBytes : Z) (targets : list string) :
  parseMakeTargets fs path maxBytes = Ok targets ->
  Forall (fun t => t <> "" /\ Contains t "=" = false /\ Contains t " " = false) targets.
Proof.
  unfold parseMakeTargets.
  destruct (files_ReadHead fs path maxBytes) as [head [e|]]; [discriminate|].
  intros [= <-].
  assert (Hfold : forall lines acc,
             Forall (fun t => t <> "" /\ Contains t "=" = false /\ Contains t " " = false) acc ->
             Forall (fun t => t <> "" /\ Contains t "=" = false /\ Contains t " " = false)
               (fold_left makeLine lines acc)).
  { induction lines as [|ln lines IH]; intros acc Hacc; simpl; [done|].
    by apply IH, makeLine_targets. }
  by apply Hfold.
Qed.

Lemma parseMakeTargets_targets_witness :
  match @parseMakeTargets Files_package Cases.makeDisk "/repo/Makefile" 65536 with
  | Ok targets =>
      Forall (fun t => t <> "" /\ Contains t "=" = false /\ Contains t " " = false)
        targets
  | Err _ => False
  end.
Proof.
  destruct (@parseMakeTargets Files_package Cases.makeDisk "/repo/Makefile" 65536)
    as [targets|e] eqn:Hts.
  - exact (@parseMakeTargets_targets Files_package Cases.makeDisk "/repo/Makefile"
             65536 targets Hts).
  - vm_compute in Hts. discriminate.
Defined.

(** ** Head reads, again *)

(** X7: for a file that opens, both listings of ReadHead return the first
    maxBytes bytes of the file (all of it when it is shorter), never more
    than the cap. *)
Theorem ReadHead_returns_head (fs : filesystem) (path : string) (f : file) (maxBytes : Z) :
  fs path = Ok f ->
  fst (Files.ReadHead fs path maxBytes) = sliceTo (Z.to_nat maxBytes) (contents f)
  /\ fst (FilesAlt.ReadHead fs path maxBytes) = sliceTo (Z.to_nat maxBytes) (contents f)
  /\ Z.of_nat (String.length (fst (Files.ReadHead fs path maxBytes))) <= Z.max 0 maxBytes.
Proof.
  intros Hf. destruct (ReadHead_spec fs path f maxBytes Hf) as [-> ->]. simpl.
  repeat split. rewrite length_sliceTo. lia.
Qed.

Lemma ReadHead_returns_head_witness :
  fst (Files.ReadHead Cases.noteDisk "/note" 4) = sliceTo (Z.to_nat 4) (contents Cases.note)
  /\ fst (FilesAlt.ReadHead Cases.noteDisk "/note" 4)
     = sliceTo (Z.to_nat 4) (contents Cases.note)
  /\ Z.of_nat (String.length (fst (Files.ReadHead Cases.noteDisk "/note" 4)))
     <= Z.max 0 4.
Proof.
  apply (ReadHead_returns_head Cases.noteDisk "/note" Cases.note 4). reflexivity.
Defined.

(** X8: for a file that opens, ReadHead reports no error when the cap is
    reached or when the file ends in the ordinary way; when a read fails
    with a path error before the cap, both listings return what was read
    together with that error. *)
Theorem ReadHead_errors (fs : filesystem) (path : string) (f : file) (maxBytes : Z) :
  fs path = Ok f ->
  (maxBytes <= Z.of_nat (String.length (contents f)) ->
   snd (Files.ReadHead fs path maxBytes) = None
   /\ snd (FilesAlt.ReadHead fs path maxBytes) = None)
  /\ (ending f = EOF ->
      snd (Files.ReadHead fs path maxBytes) = None
      /\ snd (FilesAlt.ReadHead fs path maxBytes) = None)
  /\ (forall op p, ending f = PathError op p ->
      Z.of_nat (String.length (contents f)) < maxBytes ->
      Files.ReadHead fs path maxBytes = (contents f, Some (PathError op p))
      /\ FilesAlt.ReadHead fs path maxBytes = (contents f, Some (PathError op p))).
Proof.
  intros Hf. destruct (ReadHead_spec fs path f maxBytes Hf) as [-> ->]. simpl.
  split; [|split].
  - intros Hle. apply Z.leb_le in Hle. by rewrite Hle.
  - intros ->. by destruct (_ <=? _).
  - intros op p -> Hlt. apply Z.leb_gt in Hlt. rewrite Hlt. simpl.
    rewrite sliceTo_all by lia. done.
Qed.

Lemma ReadHead_errors_witness :
  snd (Files.ReadHead Cases.noteDisk "/note" 64) = None
  /\ snd (FilesAlt.ReadHead Cases.noteDisk "/note" 64) = None.
Proof.
  apply (proj1 (proj2 (ReadHead_errors Cases.noteDisk "/note" Cases.note 64 eq_refl))).
  reflexivity.
Defined.

(** X9: the two listings of ReadHead return the same text and the same
    error, unless the file's reads end with an unexpected end of file. *)
Theorem ReadHead_listings_agree (fs : filesystem) (path : string) (maxBytes : Z) :
  (forall f, fs path = Ok f -> ending f <> ErrUnexpectedEOF) ->
  Files.ReadHead fs path maxBytes = FilesAlt.ReadHead fs path maxBytes.
Proof.
  intros Hend. destruct (fs path) as [f|e] eqn:Hf.
  - destruct (ReadHead_spec fs path f maxBytes Hf) as [-> ->].
    specialize (Hend f eq_refl). f_equal.
    destruct (_ <=? _); [done|]. by destruct (ending f).
  - by destruct (ReadHead_unopened fs path e maxBytes Hf) as [-> ->].
Qed.

Lemma ReadHead_listings_agree_witness :
  Files.ReadHead Cases.noteDisk "/note" 64 = FilesAlt.ReadHead Cases.noteDisk "/note" 64.
Proof.
  apply (ReadHead_listings_agree Cases.noteDisk "/note" 64).
  intros f Hf. vm_compute in Hf. injection Hf as <-. discriminate.
Defined.

(** ** Glob lists *)

Lemma Files_matchLoop_app g1 g2 path :
  Files.matchLoop (g1 ++ g2) path = Files.matchLoop g1 path || Files.matchLoop g2 path.
Proof.
  induction g1 as [|g g1 IH]; simpl; [done|].
  by destruct (fst (Filepath.Match g path)).
Qed.

Lemma Files_MatchAny_matchLoop globs path :
  Files.MatchAny globs path = Files.matchLoop globs path.
Proof. by destruct globs. Qed.

(** X10: a path matches a concatenation of two glob lists exactly when it
    matches one of the two, in both listings: the default globs and the
    user's globs are tried as one list. *)
Theorem MatchAny_append (g1 g2 : list string) (path : string) :
  Files.MatchAny (g1 ++ g2) path = Files.MatchAny g1 path || Files.MatchAny g2 path
  /\ FilesAlt.MatchAny (g1 ++ g2) path
     = FilesAlt.MatchAny g1 path || FilesAlt.MatchAny g2 path.
Proof.
  split.
  - rewrite !Files_MatchAny_matchLoop. apply Files_matchLoop_app.
  - induction g1 as [|g g1 IH]; simpl; [done|].
    destruct (fst (Filepath.Match g path)); [done|].
    by destruct (fst (Filepath.Match g (Filepath.Base path))).
Qed.

Lemma lastElem_no_separator s :
  ContainsByte s Filepath.Separator = false -> Filepath.lastElem s = s.
Proof.
  destruct s as [|c s]; simpl; [done|].
  intros [Hc Hs]%orb_false_iff. rewrite Hs. unfold Filepath.isSep. by rewrite Hc.
Qed.

Lemma TrimRightFunc_none f s :
  (forall c, f c = true -> ContainsByte s c = false) -> TrimRightFunc f s = s.
Proof.
  induction s as [|d s IH]; intros Hf; simpl; [done|].
  assert (Hd : f d = false).
  { destruct (f d) eqn:E; [|done]. specialize (Hf d E). simpl in Hf.
    by rewrite Ascii.eqb_refl in Hf. }
  rewrite IH.
  - destruct s; [by rewrite Hd|done].
  - intros c Hc. specialize (Hf c Hc). simpl in Hf. by apply orb_false_iff in Hf as [_ ?].
Qed.

Lemma Base_plain_name p :
  p <> "" -> ContainsByte p Filepath.Separator = false -> Filepath.Base p = p.
Proof.
  intros Hne Hsep. unfold Filepath.Base.
  apply String.eqb_neq in Hne. rewrite Hne.
  rewrite TrimRightFunc_none.
  - rewrite lastElem_no_separator by done. by rewrite Hne.
  - intros c Hc. unfold Filepath.isSep in Hc. apply Ascii.eqb_eq in Hc. by subst.
Qed.

(** X11: whatever the first listing of MatchAny matches, the listing that
    also tries the base name matches; on a name without a separator the
    two listings agree. *)
Theorem MatchAny_listings (globs : list string) (path : string) :
  (Files.MatchAny globs path = true -> FilesAlt.MatchAny globs path = true)
  /\ (path <> "" -> ContainsByte path Filepath.Separator = false ->
      FilesAlt.MatchAny globs path = Files.MatchAny globs path).
Proof.
  split.
  - rewrite Files_MatchAny_iff, FilesAlt_MatchAny_iff.
    intros (g & Hin & Hm). exists g. auto.
  - intros Hne Hsep. rewrite Files_MatchAny_matchLoop.
    induction globs as [|g globs IH]; simpl; [done|].
    rewrite (Base_plain_name path) by done.
    destruct (fst (Filepath.Match g path)); [done|]. apply IH.
Qed.

(** ** The gitignore matcher *)


Section GitignoreRules.
Context `{GoGitignore}.

Lemma NewGitIgnoreMatcher_provenance fs root tree :
  Forall (fun ig => exists path, CompileIgnoreFile fs path = Ok ig)
    (Files.ignores (Files.NewGitIgnoreMatcher fs root tree)).
Proof.
  unfold Files.NewGitIgnoreMatcher, WalkDir. simpl.
  apply (walkDir_preserves
           (Forall (fun ig => exists path, CompileIgnoreFile fs path = Ok ig)));
    [|done].
  intros path d s Hs.
  destruct (HasSuffix (nodeName d) ".gitignore"); [|done].
  destruct (CompileIgnoreFile fs path) as [g|e] eqn:E; simpl; [|done].
  apply Forall_app. split; [done|]. apply Forall_singleton. eauto.
Qed.

End GitignoreRules.

(** X12: every rule set of the matcher is the compiled form of a file that
    the rule compiler accepted, and when the compiler accepts no file the
    matcher matches no path. *)
Theorem NewGitIgnoreMatcher_compiled_rules `{GoGitignore}
    (fs : filesystem) (root : string) (tree : node) :
  (forall ig, In ig (Files.ignores (Files.NewGitIgnoreMatcher fs root tree)) ->
     exists path, CompileIgnoreFile fs path = Ok ig)
  /\ ((forall path ig, CompileIgnoreFile fs path <> Ok ig) ->
      forall p, Files.Match (Files.NewGitIgnoreMatcher fs root tree) p = false).
Proof.
  pose proof (NewGitIgnoreMatcher_provenance fs root tree) as Hall.
  rewrite Forall_forall in Hall. split.
  - intros ig Hin. apply Hall. by apply list_elem_of_In.
  - intros Hnone p. unfold Files.Match.
    destruct (Files.ignores (Files.NewGitIgnoreMatcher fs root tree)) as [|ig igs];
      [done|].
    destruct (Hall ig) as [path Hpath]; [left|]. by destruct (Hnone path ig).
Qed.

(** ** Excluded directories *)

(** X13: a directory whose relative path with a trailing slash matches an
    exclude glob is skipped with everything below it, whatever the include
    globs are: the walk takes no path from it. *)
Theorem excluded_directory_pruned `{FilesPackage} `{GoGitignore}
    (root : string) (matcher : Files.GitIgnoreMatcher) (incl excl : list string)
    (path name : string) (entries : list node) (paths : list string) :
  Filepath.Rel root path <> "." ->
  files_MatchAny excl (Filepath.Rel root path +:+ "/") = true ->
  walkDir (visit root matcher incl excl) path (Dir name entries) paths = (paths, false).
Proof.
  intros Hrel Hex. apply String.eqb_neq in Hrel.
  simpl. unfold visit, Filepath.ToSlash. rewrite Hrel. simpl.
  destruct (Files.Match matcher _); [done|]. by rewrite Hex.
Qed.

Lemma excluded_directory_pruned_witness :
  walkDir
    (@visit Files_package Samples.noGitignore "/repo"
       (@Files.NewGitIgnoreMatcher Samples.noGitignore Samples.serviceDisk "/repo"
          Samples.serviceTree)
       ["node_modules/*"] Files.DefaultIgnore)
    "/repo/node_modules" (Dir "node_modules" [File "index.js"]) []
  = ([], false).
Proof.
  apply (@excluded_directory_pruned Files_package Samples.noGitignore "/repo" _
           ["node_modules/*"] Files.DefaultIgnore "/repo/node_modules" "node_modules"
           [File "index.js"] []).
  - vm_compute. discriminate.
  - vm_compute. reflexivity.
Defined.

(** ** The pool under any schedule *)

Section AnySchedule.
Context `{FilesPackage} `{GoGitignore} `{EncodingJSON}.
Variable fs : filesystem.
Variable tree : node.
Variable now numCPU : Z.
Variable cfg : Config.t.

(* What classification and counting keep, every run of the pool keeps. *)
Lemma runPool_keeps (Inv : Summary.t -> Prop) threads sched st st' :
  (forall p s, Inv s -> Inv (classify fs cfg p s)) ->
  (forall p s, Inv s -> Inv (countExt p s)) ->
  runPool fs cfg threads sched st = Some st' ->
  Inv (agg st) -> Inv (agg st').
Proof.
  intros Hc Hk. revert st. induction sched as [|a sched IH]; intros st Hrun Hinv.
  - by injection Hrun as <-.
  - simpl in Hrun. destruct (step fs cfg threads a st) as [st1|] eqn:Hstep; [|done].
    apply (IH st1 Hrun).
    destruct a as [| |i|i]; simpl in Hstep.
    + destruct (queue st); [done|]. case_match; [|done]. by injection Hstep as <-.
    + destruct (queue st); [done|]. by injection Hstep as <-.
    + destruct (running st !! i) as [[p [|]]|]; try done.
      injection Hstep as <-. simpl. by apply Hc.
    + destruct (running st !! i) as [[p [|]]|]; try done.
      injection Hstep as <-. simpl. by apply Hk.
Qed.

Section Owed.
Context {A : Type}.
Variable F : Summary.t -> list A.
Hypothesis F_classify :
  forall p s, F (classify fs cfg p s) = F s ++ F (classify fs cfg p blank).
Hypothesis F_countExt : forall p s, F (countExt p s) = F s.

Lemma step_owed_sub threads a st st' :
  step fs cfg threads a st = Some st' ->
  owed fs cfg F st' ⊆+ owed fs cfg F st.
Proof.
  intros Hstep. destruct (isCancel a) eqn:Hc.
  - destruct a; try discriminate. simpl in Hstep.
    destruct (queue st) as [|p q] eqn:Hq; [done|]. injection Hstep as <-.
    unfold owed, contributed, unmerged. simpl. rewrite Hq.
    apply submseteq_app; [done|].
    rewrite app_nil_r, flat_map_app. apply submseteq_inserts_r. done.
  - apply Permutation_submseteq. by eapply step_owed.
Qed.

Lemma runPool_owed_sub threads sched st st' :
  runPool fs cfg threads sched st = Some st' ->
  owed fs cfg F st' ⊆+ owed fs cfg F st.
Proof.
  revert st. induction sched as [|a sched IH]; intros st Hrun; simpl in *.
  - by injection Hrun as <-.
  - destruct (step fs cfg threads a st) as [st1|] eqn:Hstep; [|discriminate].
    etrans; [by apply IH|]. by eapply step_owed_sub.
Qed.

Lemma drained_pool_sub threads sched st :
  F (agg (startPool fs tree now cfg)) = [] ->
  runPool fs cfg threads sched (startPool fs tree now cfg) = Some st ->
  F (agg st) ⊆+ contributions fs tree cfg F.
Proof.
  intros Hblank Hrun.
  pose proof (runPool_owed_sub _ _ _ _ Hrun) as Hp.
  etrans; [|etrans; [exact Hp|]].
  - unfold owed. by apply submseteq_inserts_r.
  - unfold owed. rewrite Hblank. done.
Qed.

End Owed.

Lemma Scan_sub_collections sched sum :
  Scan fs tree now numCPU sched cfg = Some sum ->
  Summary.GoModules sum ⊆+ contributions fs tree cfg Summary.GoModules
  /\ Summary.Proto sum ⊆+ contributions fs tree cfg Summary.Proto
  /\ Summary.MakeTargets sum ⊆+ contributions fs tree cfg Summary.MakeTargets
  /\ Summary.Dockerfiles sum ⊆+ contributions fs tree cfg Summary.Dockerfiles
  /\ Summary.SQLMigrations sum ⊆+ contributions fs tree cfg Summary.SQLMigrations
  /\ Summary.Decisions sum ⊆+ contributions fs tree cfg Summary.Decisions
  /\ Summary.EnvExamples sum ⊆+ contributions fs tree cfg Summary.EnvExamples
  /\ Summary.Licenses sum ⊆+ contributions fs tree cfg Summary.Licenses
  /\ Summary.Readmes sum ⊆+ contributions fs tree cfg Summary.Readmes.
Proof.
  unfold Scan.
  destruct (runPool _ _ _ _ _) as [st|] eqn:Hrun; [|discriminate].
  destruct (drained st) eqn:Hd; [|discriminate]. intros [= <-].
  destruct (finish_lists fs tree cfg (agg st))
    as (-> & -> & -> & -> & -> & -> & -> & -> & ->).
  unfold sortGoModules, sortStrings. rewrite !merge_sort_Permutation.
  repeat split.
  - by eapply (drained_pool_sub _ (classify_GoModules fs cfg) (fun _ _ => eq_refl)).
  - by eapply (drained_pool_sub _ (classify_Proto fs cfg) (fun _ _ => eq_refl)).
  - by eapply (drained_pool_sub _ (classify_MakeTargets fs cfg) (fun _ _ => eq_refl)).
  - by eapply (drained_pool_sub _ (classify_Dockerfiles fs cfg) (fun _ _ => eq_refl)).
  - by eapply (drained_pool_sub _ (classify_SQLMigrations fs cfg) (fun _ _ => eq_refl)).
  - by eapply (drained_pool_sub _ (classify_Decisions fs cfg) (fun _ _ => eq_refl)).
  - by eapply (drained_pool_sub _ (classify_EnvExamples fs cfg) (fun _ _ => eq_refl)).
  - by eapply (drained_pool_sub _ (classify_Licenses fs cfg) (fun _ _ => eq_refl)).
  - by eapply (drained_pool_sub _ (classify_Readmes fs cfg) (fun _ _ => eq_refl)).
Qed.

End AnySchedule.

Section AnySchedule2.
Context `{FilesPackage} `{GoGitignore} `{EncodingJSON}.
Variable fs : filesystem.
Variable tree : node.
Variable now numCPU : Z.
Variable cfg : Config.t.

(* Cancelling drops the queue: the files accounted for can only go down. *)
Lemma step_accounted_le threads a st st' :
  step fs cfg threads a st = Some st' ->
  countsOk st -> accounted st < 2 ^ 63 ->
  countsOk st' /\ accounted st' <= accounted st.
Proof.
  intros Hstep Hok Hlt. destruct (isCancel a) eqn:Hc.
  - destruct a; try discriminate. simpl in Hstep.
    destruct (queue st) as [|p q] eqn:Hq; [done|]. injection Hstep as <-.
    unfold countsOk, accounted in *. simpl. split; [done|]. rewrite Hq. lia.
  - destruct (step_accounted fs cfg threads a st st' Hc Hstep Hok Hlt) as [? ->].
    split; [done|lia].
Qed.

Lemma runPool_accounted_le threads sched st st' :
  runPool fs cfg threads sched st = Some st' ->
  countsOk st -> accounted st < 2 ^ 63 ->
  countsOk st' /\ accounted st' <= accounted st.
Proof.
  revert st. induction sched as [|a sched IH]; intros st Hrun Hok Hlt; simpl in *.
  - injection Hrun as <-. split; [done|lia].
  - destruct (step fs cfg threads a st) as [st1|] eqn:Hstep; [|discriminate].
    destruct (step_accounted_le threads a st st1) as [Hok1 Hacc1]; auto.
    destruct (IH st1) as [Hok' Hacc']; auto; [lia|].
    split; [done|lia].
Qed.

End AnySchedule2.

(** X14: under every schedule, cancelled or not, no count of the extension
    histogram is negative and the counts add up to no more than the number
    of candidate paths of the walk.  (The number of candidates is the
    length of a Go slice, hence below 2^63.) *)
Theorem TechStats_total_at_most_candidates
    `{FilesPackage} `{GoGitignore} `{EncodingJSON}
    (fs : filesystem) (tree : node) (now numCPU : Z)
    (sched : list action) (cfg : Config.t) (sum : Summary.t) :
  Z.of_nat (length (candidates fs tree cfg)) < 2 ^ 63 ->
  Scan fs tree now numCPU sched cfg = Some sum ->
  map_Forall (fun _ v => 0 <= v) (Summary.TechStats sum)
  /\ sumCounts (Summary.TechStats sum) <= Z.of_nat (length (candidates fs tree cfg)).
Proof.
  intros Hlen. unfold Scan.
  destruct (runPool _ _ _ _ _) as [st|] eqn:Hrun; [|discriminate].
  destruct (drained st) eqn:Hd; [|discriminate]. intros [= <-].
  rewrite finish_TechStats.
  destruct (runPool_accounted_le fs _ _ _ _ _ Hrun) as [Hok Hacc].
  - intros k v Hk. simpl in Hk. by rewrite lookup_empty in Hk.
  - unfold accounted. simpl. rewrite sumCounts_empty. lia.
  - split; [exact Hok|].
    unfold accounted in Hacc. simpl in Hacc. rewrite sumCounts_empty in Hacc.
    unfold drained in Hd.
    destruct (queue st), (running st); try discriminate. simpl in Hacc. lia.
Qed.

Lemma TechStats_total_at_most_candidates_witness :
  match Samples.scan Samples.serviceDisk Samples.serviceTree Cases.cancelledEarly
          Cases.serviceConfig with
  | Some sum =>
      map_Forall (fun _ v => 0 <= v) (Summary.TechStats sum)
      /\ sumCounts (Summary.TechStats sum) <= Z.of_nat (length Cases.serviceCandidates)
  | None => False
  end.
Proof.
  destruct (Samples.scan Samples.serviceDisk Samples.serviceTree Cases.cancelledEarly
              Cases.serviceConfig) as [sum|] eqn:Hscan.
  - apply (@TechStats_total_at_most_candidates Files_package Samples.noGitignore Samples.noJSON
             Samples.serviceDisk Samples.serviceTree 1757872800 8
             Cases.cancelledEarly Cases.serviceConfig sum).
    + vm_compute. reflexivity.
    + exact Hscan.
  - vm_compute in Hscan. discriminate.
Defined.

(** X15: in every summary that Scan returns, under every schedule, the
    module list is sorted by path and the six string lists (make targets,
    Dockerfiles, SQL migrations, env examples, licenses, READMEs) are
    sorted. *)
Theorem Scan_sorted_collections
    `{FilesPackage} `{GoGitignore} `{EncodingJSON}
    (fs : filesystem) (tree : node) (now numCPU : Z)
    (sched : list action) (cfg : Config.t) (sum : Summary.t) :
  Scan fs tree now numCPU sched cfg = Some sum ->
  StronglySorted byPath (Summary.GoModules sum)
  /\ StronglySorted notAfter (Summary.MakeTargets sum)
  /\ StronglySorted notAfter (Summary.Dockerfiles sum)
  /\ StronglySorted notAfter (Summary.SQLMigrations sum)
  /\ StronglySorted notAfter (Summary.EnvExamples sum)
  /\ StronglySorted notAfter (Summary.Licenses sum)
  /\ StronglySorted notAfter (Summary.Readmes sum).
Proof.
  unfold Scan.
  destruct (runPool _ _ _ _ _) as [st|] eqn:Hrun; [|discriminate].
  destruct (drained st) eqn:Hd; [|discriminate]. intros [= <-].
  destruct (finish_lists fs tree cfg (agg st))
    as (-> & _ & -> & -> & -> & _ & -> & -> & ->).
  repeat split; try apply sortStrings_sorted. apply sortGoModules_sorted.
Qed.

Lemma Scan_sorted_collections_witness :
  match Samples.scan Samples.serviceDisk Samples.serviceTree Cases.twoSlots
          Cases.serviceConfig with
  | Some sum =>
      StronglySorted byPath (Summary.GoModules sum)
      /\ StronglySorted notAfter (Summary.MakeTargets sum)
      /\ StronglySorted notAfter (Summary.Dockerfiles sum)
      /\ StronglySorted notAfter (Summary.SQLMigrations sum)
      /\ StronglySorted notAfter (Summary.EnvExamples sum)
      /\ StronglySorted notAfter (Summary.Licenses sum)
      /\ StronglySorted notAfter (Summary.Readmes sum)
  | None => False
  end.
Proof.
  destruct (Samples.scan Samples.serviceDisk Samples.serviceTree Cases.twoSlots
              Cases.serviceConfig) as [sum|] eqn:Hscan.
  - apply (@Scan_sorted_collections Files_package Samples.noGitignore Samples.noJSON
             Samples.serviceDisk Samples.serviceTree 1757872800 8
             Cases.twoSlots Cases.serviceConfig sum).
    + exact Hscan.
  - vm_compute in Hscan. discriminate.
Defined.

(** ** The histogram does not depend on the schedule *)

Lemma tally_cons p paths :
  tally (p :: paths)
  = <[extOf p := wrap64 (default 0 (tally paths !! extOf p) + 1)]> (tally paths).
Proof. reflexivity. Qed.

Lemma tally_perm l1 l2 : l1 ≡ₚ l2 -> tally l1 = tally l2.
Proof.
  induction 1 as [|p l1 l2 _ IH|p q l|l1 l2 l3 _ IH1 _ IH2].
  - done.
  - by rewrite !tally_cons, IH.
  - rewrite !tally_cons.
    destruct (decide (extOf p = extOf q)) as [Heq|Hne].
    + rewrite Heq. by rewrite !lookup_insert_eq.
    + rewrite !lookup_insert_ne by done. by apply insert_insert_ne.
  - by rewrite IH1.
Qed.

Section Tally.
Context `{FilesPackage} `{GoGitignore} `{EncodingJSON}.
Variable fs : filesystem.
Variable tree : node.
Variable now numCPU : Z.
Variable cfg : Config.t.

Lemma countExt_tally p s counted :
  Summary.TechStats s = tally counted ->
  Summary.TechStats (countExt p s) = tally (p :: counted).
Proof. intros Hs. rewrite tally_cons, <- Hs. reflexivity. Qed.

Lemma step_tallied all threads a st st' :
  isCancel a = false ->
  step fs cfg threads a st = Some st' ->
  tallied all st -> tallied all st'.
Proof.
  intros Hc Hstep (counted & Hstats & Hperm). unfold tallied, holding in *.
  destruct a as [| |i|i]; simpl in *; try discriminate.
  - destruct (queue st) as [|p q] eqn:Hq; [discriminate|].
    case_match; [|discriminate]. injection Hstep as <-. simpl.
    exists counted. split; [done|]. rewrite map_app. simpl.
    by rewrite <- app_assoc.
  - destruct (running st !! i) as [[p [|]]|] eqn:Hi; try discriminate.
    injection Hstep as <-. simpl. exists counted.
    rewrite classify_TechStats. split; [done|].
    rewrite <- Hperm. do 2 f_equiv.
    rewrite list_fmap_insert. simpl.
    rewrite list_insert_id; [done|]. by rewrite list_lookup_fmap, Hi.
  - destruct (running st !! i) as [[p [|]]|] eqn:Hi; try discriminate.
    injection Hstep as <-. simpl. exists (p :: counted).
    split; [by apply countExt_tally|].
    rewrite <- Hperm. rewrite <- (take_drop_middle (running st) i _ Hi) at 2.
    rewrite delete_take_drop, !map_app. simpl.
    rewrite <- !app_assoc. simpl.
    rewrite (app_assoc counted _ (p :: _)), (app_assoc counted _ (_ ++ queue st)).
    apply Permutation_middle.
Qed.

Lemma runPool_tallied all threads sched st st' :
  noCancel sched = true ->
  runPool fs cfg threads sched st = Some st' ->
  tallied all st -> tallied all st'.
Proof.
  revert st. induction sched as [|a sched IH]; intros st Hnc Hrun Ht; simpl in *.
  - by injection Hrun as <-.
  - apply andb_prop in Hnc as [Ha Hnc].
    destruct (step fs cfg threads a st) as [st1|] eqn:Hstep; [|discriminate].
    apply (IH st1 Hnc Hrun). apply (step_tallied all threads a st); [|done..].
    by destruct (isCancel a).
Qed.

End Tally.

(** X16: the extension histogram of a run that was not cancelled is the
    tally of the candidate paths, whatever the schedule of the workers. *)
Theorem TechStats_schedule_free
    `{FilesPackage} `{GoGitignore} `{EncodingJSON}
    (fs : filesystem) (tree : node) (now numCPU : Z)
    (sched : list action) (cfg : Config.t) (sum : Summary.t) :
  noCancel sched = true ->
  Scan fs tree now numCPU sched cfg = Some sum ->
  Summary.TechStats sum = tally (candidates fs tree cfg).
Proof.
  intros Hnc. unfold Scan.
  destruct (runPool _ _ _ _ _) as [st|] eqn:Hrun; [|discriminate].
  destruct (drained st) eqn:Hd; [|discriminate]. intros [= <-].
  rewrite finish_TechStats.
  destruct (runPool_tallied fs cfg (candidates fs tree cfg) _ _ _ _ Hnc Hrun)
    as (counted & -> & Hperm).
  - exists []. split; [reflexivity|done].
  - apply tally_perm. unfold holding, drained in *.
    destruct (queue st), (running st); try discriminate.
    simpl in Hperm. by rewrite app_nil_r in Hperm.
Qed.

Lemma TechStats_schedule_free_witness :
  match Samples.scan Samples.serviceDisk Samples.serviceTree Cases.twoSlots
          Cases.serviceConfig with
  | Some sum =>
      Summary.TechStats sum = tally Cases.serviceCandidates
  | None => False
  end.
Proof.
  destruct (Samples.scan Samples.serviceDisk Samples.serviceTree Cases.twoSlots
              Cases.serviceConfig) as [sum|] eqn:Hscan.
  - apply (@TechStats_schedule_free Files_package Samples.noGitignore Samples.noJSON
             Samples.serviceDisk Samples.serviceTree 1757872800 8
             Cases.twoSlots Cases.serviceConfig sum).
    + reflexivity.
    + exact Hscan.
  - vm_compute in Hscan. discriminate.
Defined.

Lemma finish_ReadmeSummaries `{FilesPackage} `{GoGitignore} `{EncodingJSON}
    (fs : filesystem) (tree : node) (cfg : Config.t) (s : Summary.t) :
  Summary.ReadmeSummaries (finish fs tree cfg s) = Summary.ReadmeSummaries s.
Proof. unfold finish, consolidateCoverage. simpl. by case_match. Qed.

(** ** Coverage totals *)

Section Totals.
Context `{FilesPackage} `{GoGitignore} `{EncodingJSON}.
Variable fs : filesystem.
Variable tree : node.
Variable now numCPU : Z.
Variable cfg : Config.t.

Lemma classify_coverageUnset p s :
  coverageUnset s -> coverageUnset (classify fs cfg p s).
Proof.
  intros Hs tc. unfold classify, addReport, coverageOf.
  repeat case_match; simpl; try apply Hs;
    intros [= <-]; unfold totalsUnset; simpl;
    try (repeat split; reflexivity);
    match goal with Htc : Summary.TestCoverage s = Some _ |- _ => exact (Hs _ Htc) end.
Qed.

Lemma consolidateGo_totals root tc :
  totalsUnset tc ->
  let tc' := consolidateGo fs root tc in
  (CoverageSummary.HasGoProfile tc' = true /\ 0 < CoverageSummary.TotalStmts tc')
  \/ totalsUnset tc'.
Proof.
  intros Htc. unfold consolidateGo.
  destruct (0 <? length _)%nat; [|by right].
  destruct (sumProfiles _ _) as [total covered].
  destruct (Z.ltb_spec 0 total); [|by right].
  left. simpl. done.
Qed.

Lemma consolidateBDD_totals root tc :
  let tc' := consolidateBDD fs root tc in
  CoverageSummary.TotalStmts tc' = CoverageSummary.TotalStmts tc
  /\ CoverageSummary.CoveredStmts tc' = CoverageSummary.CoveredStmts tc
  /\ CoverageSummary.Percent tc' = CoverageSummary.Percent tc
  /\ CoverageSummary.HasGoProfile tc' = CoverageSummary.HasGoProfile tc.
Proof.
  unfold consolidateBDD. destruct (0 <? length _)%nat; [|done].
  destruct (sumReports _ _ _) as [[f sc] st']. by case_match.
Qed.

End Totals.

(** X17: in every summary that Scan returns with a coverage part, the Go
    profile flag is set exactly when the total of statements is positive,
    and without the flag the statement totals and the percentage are
    zero. *)
Theorem HasGoProfile_iff_statements
    `{FilesPackage} `{GoGitignore} `{EncodingJSON}
    (fs : filesystem) (tree : node) (now numCPU : Z)
    (sched : list action) (cfg : Config.t) (sum : Summary.t)
    (tc : CoverageSummary.t) :
  Scan fs tree now numCPU sched cfg = Some sum ->
  Summary.TestCoverage sum = Some tc ->
  (CoverageSummary.HasGoProfile tc = true <-> 0 < CoverageSummary.TotalStmts tc)
  /\ (CoverageSummary.HasGoProfile tc = false ->
      CoverageSummary.TotalStmts tc = 0
      /\ CoverageSummary.CoveredStmts tc = 0
      /\ CoverageSummary.Percent tc = 0%float).
Proof.
  unfold Scan.
  destruct (runPool _ _ _ _ _) as [st|] eqn:Hrun; [|discriminate].
  destruct (drained st) eqn:Hd; [|discriminate]. intros [= <-].
  assert (Hinv : coverageUnset (agg st)).
  { apply (runPool_keeps fs cfg coverageUnset _ _ _ _
             (classify_coverageUnset fs cfg) (fun _ _ H => H) Hrun).
    intros tc0 Htc0. discriminate. }
  unfold finish, consolidateCoverage. simpl.
  destruct (Summary.TestCoverage (agg st)) as [tc0|] eqn:Htc0; simpl;
    [|rewrite Htc0; discriminate].
  intros [= <-].
  destruct (consolidateBDD_totals fs (Config.Root cfg)
              (consolidateGo fs (Config.Root cfg) tc0)) as (-> & -> & -> & ->).
  destruct (consolidateGo_totals fs (Config.Root cfg) tc0 (Hinv _ Htc0))
    as [[Hp Ht]|(Ht & Hc & Hpc & Hp)].
  - rewrite Hp. split; [tauto|discriminate].
  - rewrite Hp, Ht. split; [split; [discriminate|lia]|done].
Qed.

Lemma HasGoProfile_iff_statements_witness :
  match Samples.scan Samples.coverDisk Samples.coverTree
          (sequential ["coverage.out"; "pkg/coverage.out"]) (Samples.config 1 "") with
  | Some sum =>
      match Summary.TestCoverage sum with
      | Some tc =>
          (CoverageSummary.HasGoProfile tc = true <-> 0 < CoverageSummary.TotalStmts tc)
          /\ (CoverageSummary.HasGoProfile tc = false ->
              CoverageSummary.TotalStmts tc = 0
              /\ CoverageSummary.CoveredStmts tc = 0
              /\ CoverageSummary.Percent tc = 0%float)
      | None => False
      end
  | None => False
  end.
Proof.
  destruct (Samples.scan Samples.coverDisk Samples.coverTree
              (sequential ["coverage.out"; "pkg/coverage.out"]) (Samples.config 1 ""))
    as [sum|] eqn:Hscan.
  - destruct (Summary.TestCoverage sum) as [tc|] eqn:Htc.
    + exact (@HasGoProfile_iff_statements Files_package Samples.noGitignore
               Samples.noJSON Samples.coverDisk Samples.coverTree 1757872800 8
               (sequential ["coverage.out"; "pkg/coverage.out"])
               (Samples.config 1 "") sum tc Hscan Htc).
    + vm_compute in Hscan. injection Hscan as <-. discriminate.
  - vm_compute in Hscan. discriminate.
Defined.

(** ** Schema descriptions *)

Lemma ContainsByte_SplitN2_0 s c : ContainsByte (SplitN2_0 s c) c = false.
Proof.
  induction s as [|d s IH]; simpl; [done|].
  destruct (Ascii.eqb d c) eqn:Hd; simpl; [done|]. by rewrite Hd, IH.
Qed.

Lemma protoLine_names pi ln :
  Forall (cleanName "{") (ProtoInfo.Services pi) ->
  Forall (cleanName "(") (ProtoInfo.RPCs pi) ->
  Forall (cleanName "{") (ProtoInfo.Services (protoLine pi ln))
  /\ Forall (cleanName "(") (ProtoInfo.RPCs (protoLine pi ln)).
Proof.
  intros Hs Hr. unfold protoLine.
  repeat case_match; simpl; split; try done;
    apply Forall_app; (split; [done|]); apply Forall_singleton;
    (split; [apply TrimSpace_idem|apply ContainsByte_TrimSpace, ContainsByte_SplitN2_0]).
Qed.

(** X6: in a schema description that parseProto returns, a service name
    holds no opening brace, an RPC name no opening parenthesis, and neither
    has white space around it. *)
Theorem parseProto_names `{FilesPackage}
    (fs : filesystem) (path : string) (maxBytes : Z) (pi : ProtoInfo.t) :
  parseProto fs path maxBytes = Ok pi ->
  Forall (cleanName "{") (ProtoInfo.Services pi)
  /\ Forall (cleanName "(") (ProtoInfo.RPCs pi).
Proof.
  unfold parseProto. destruct (files_ReadHead fs path maxBytes) as [head [e|]];
    [discriminate|]. intros [= <-].
  assert (Hfold : forall lines pi0,
             Forall (cleanName "{") (ProtoInfo.Services pi0) ->
             Forall (cleanName "(") (ProtoInfo.RPCs pi0) ->
             Forall (cleanName "{") (ProtoInfo.Services (fold_left protoLine lines pi0))
             /\ Forall (cleanName "(") (ProtoInfo.RPCs (fold_left protoLine lines pi0))).
  { induction lines as [|ln lines IH]; intros pi0 Hs Hr; simpl; [done|].
    destruct (protoLine_names pi0 ln Hs Hr). by apply IH. }
  apply Hfold; simpl; constructor.
Qed.

Lemma parseProto_names_witness :
  match @parseProto Files_package Samples.apiDisk "/repo/api/a.proto" 65536 with
  | Ok pi =>
      Forall (cleanName "{") (ProtoInfo.Services pi)
      /\ Forall (cleanName "(") (ProtoInfo.RPCs pi)
  | Err _ => False
  end.
Proof.
  destruct (@parseProto Files_package Samples.apiDisk "/repo/api/a.proto" 65536)
    as [pi|e] eqn:Hpi.
  - exact (@parseProto_names Files_package Samples.apiDisk "/repo/api/a.proto"
             65536 pi Hpi).
  - vm_compute in Hpi. discriminate.
Defined.

(** ** README summaries, continued *)

Section Readmes.
Context `{FilesPackage} `{GoGitignore} `{EncodingJSON}.
Variable fs : filesystem.
Variable tree : node.
Variable now numCPU : Z.
Variable cfg : Config.t.

Lemma classify_summariesListed p s :
  summariesListed (Config.Root cfg) s ->
  summariesListed (Config.Root cfg) (classify fs cfg p s).
Proof.
  intros Hs k rs. unfold classify, addReport.
  repeat case_match; simpl; try apply Hs.
  - intros Hk. apply lookup_insert_Some in Hk as [[<- <-]|[Hne Hk]].
    + split; [apply in_or_app; right; by left|]. split; [done|].
      by eapply parseReadmeSummary_File.
    + destruct (Hs k rs Hk) as (? & ? & ?).
      split; [apply in_or_app; by left|done].
  - intros Hk. destruct (Hs k rs Hk) as (? & ? & ?).
    split; [apply in_or_app; by left|done].
Qed.

End Readmes.

(** X18: in every summary that Scan returns, a README summary is stored
    under the relative path of a file named readme.md (in any case) that
    the README list holds, and its File field is that path joined to the
    root. *)
Theorem ReadmeSummaries_keys_are_listed
    `{FilesPackage} `{GoGitignore} `{EncodingJSON}
    (fs : filesystem) (tree : node) (now numCPU : Z)
    (sched : list action) (cfg : Config.t) (sum : Summary.t)
    (k : string) (rs : ReadmeSummary.t) :
  Scan fs tree now numCPU sched cfg = Some sum ->
  Summary.ReadmeSummaries sum !! k = Some rs ->
  In k (Summary.Readmes sum)
  /\ String.eqb (Filepath.Base (ToLower k)) "readme.md" = true
  /\ ReadmeSummary.File rs = Filepath.Join (Config.Root cfg) k.
Proof.
  unfold Scan.
  destruct (runPool _ _ _ _ _) as [st|] eqn:Hrun; [|discriminate].
  destruct (drained st) eqn:Hd; [|discriminate]. intros [= <-].
  assert (Hinv : summariesListed (Config.Root cfg) (agg st)).
  { apply (runPool_keeps fs cfg (summariesListed (Config.Root cfg)) _ _ _ _
             (classify_summariesListed fs cfg) (fun _ _ H => H) Hrun).
    intros k0 rs0 Hk0. simpl in Hk0. by rewrite lookup_empty in Hk0. }
  rewrite finish_ReadmeSummaries. intros Hk.
  destruct (Hinv k rs Hk) as (Hin & Hbase & Hfile).
  split; [|done].
  destruct (finish_lists fs tree cfg (agg st)) as (_ & _ & _ & _ & _ & _ & _ & _ & ->).
  apply list_elem_of_In. rewrite sortStrings_perm. by apply list_elem_of_In.
Qed.

Lemma ReadmeSummaries_keys_are_listed_witness :
  match Samples.scan Samples.serviceDisk Samples.serviceTree Cases.twoSlots
          Cases.serviceConfig with
  | Some sum =>
      match Summary.ReadmeSummaries sum !! "README.md" with
      | Some rs =>
          In "README.md" (Summary.Readmes sum)
          /\ String.eqb (Filepath.Base (ToLower "README.md")) "readme.md" = true
          /\ ReadmeSummary.File rs = Filepath.Join (Config.Root Cases.serviceConfig)
                                       "README.md"
      | None => False
      end
  | None => False
  end.
Proof.
  destruct (Samples.scan Samples.serviceDisk Samples.serviceTree Cases.twoSlots
              Cases.serviceConfig) as [sum|] eqn:Hscan.
  - destruct (Summary.ReadmeSummaries sum !! "README.md") as [rs|] eqn:Hrs.
    + exact (@ReadmeSummaries_keys_are_listed Files_package Samples.noGitignore
               Samples.noJSON Samples.serviceDisk Samples.serviceTree 1757872800 8
               Cases.twoSlots Cases.serviceConfig sum "README.md" rs Hscan Hrs).
    + vm_compute in Hscan. injection Hscan as <-. vm_compute in Hrs. discriminate.
  - vm_compute in Hscan. discriminate.
Defined.

(** X19: under every schedule, a path in the Dockerfile, SQL migration,
    env example, license or README list of the summary is a candidate path
    of the walk, so no gitignore rule matches it. *)
Theorem listed_paths_are_candidates
    `{FilesPackage} `{GoGitignore} `{EncodingJSON}
    (fs : filesystem) (tree : node) (now numCPU : Z)
    (sched : list action) (cfg : Config.t) (sum : Summary.t) (x : string) :
  Scan fs tree now numCPU sched cfg = Some sum ->
  In x (Summary.Dockerfiles sum ++ Summary.SQLMigrations sum
        ++ Summary.EnvExamples sum ++ Summary.Licenses sum ++ Summary.Readmes sum) ->
  In x (candidates fs tree cfg)
  /\ Files.Match (Files.NewGitIgnoreMatcher fs (Config.Root cfg) tree) x = false.
Proof.
  intros Hscan Hx.
  destruct (Scan_sub_collections fs tree now numCPU cfg sched sum Hscan)
    as (_ & _ & _ & Hd & Hq & _ & He & Hl & Hr).
  assert (Hc : In x (candidates fs tree cfg)).
  { assert (Hfrom : forall F : Summary.t -> list string,
              (forall p y, In y (F (classify fs cfg p blank)) -> y = p) ->
              In x (contributions fs tree cfg F) -> In x (candidates fs tree cfg)).
    { intros F HF Hin. apply In_contributions in Hin as (p & Hp & Hin).
      by rewrite (HF p x Hin). }
    assert (Hpl := classify_path_lists fs cfg).
    repeat (apply in_app_or in Hx as [Hx|Hx]).
    - apply (Hfrom Summary.Dockerfiles).
      + intros p y Hy. apply (Hpl p y). apply in_or_app. by left.
      + apply list_elem_of_In. eapply elem_of_submseteq; [|exact Hd].
        by apply list_elem_of_In.
    - apply (Hfrom Summary.SQLMigrations).
      + intros p y Hy. apply (Hpl p y). apply in_or_app. right.
        apply in_or_app. by left.
      + apply list_elem_of_In. eapply elem_of_submseteq; [|exact Hq].
        by apply list_elem_of_In.
    - apply (Hfrom Summary.EnvExamples).
      + intros p y Hy. apply (Hpl p y). do 2 (apply in_or_app; right).
        apply in_or_app. by left.
      + apply list_elem_of_In. eapply elem_of_submseteq; [|exact He].
        by apply list_elem_of_In.
    - apply (Hfrom Summary.Licenses).
      + intros p y Hy. apply (Hpl p y). do 3 (apply in_or_app; right).
        apply in_or_app. by left.
      + apply list_elem_of_In. eapply elem_of_submseteq; [|exact Hl].
        by apply list_elem_of_In.
    - apply (Hfrom Summary.Readmes).
      + intros p y Hy. apply (Hpl p y). do 4 (apply in_or_app; right). done.
      + apply list_elem_of_In. eapply elem_of_submseteq; [|exact Hr].
        by apply list_elem_of_In. }
  split; [done|]. by apply candidates_eligible.
Qed.

Lemma listed_paths_are_candidates_witness :
  match Samples.scan Samples.serviceDisk Samples.serviceTree Cases.twoSlots
          Cases.serviceConfig with
  | Some sum =>
      In "Dockerfile" Cases.serviceCandidates
      /\ @Files.Match Samples.noGitignore
           (@Files.NewGitIgnoreMatcher Samples.noGitignore Samples.serviceDisk
              (Config.Root Cases.serviceConfig) Samples.serviceTree) "Dockerfile"
         = false
  | None => False
  end.
Proof.
  destruct (Samples.scan Samples.serviceDisk Samples.serviceTree Cases.twoSlots
              Cases.serviceConfig) as [sum|] eqn:Hscan.
  - apply (@listed_paths_are_candidates Files_package Samples.noGitignore
             Samples.noJSON Samples.serviceDisk Samples.serviceTree 1757872800 8
             Cases.twoSlots Cases.serviceConfig sum "Dockerfile" Hscan).
    vm_compute in Hscan. injection Hscan as <-. vm_compute. left. reflexivity.
  - vm_compute in Hscan. discriminate.
Defined.

(** ** The walk with and without the gitignore matcher *)

Section Walks.
Context `{FilesPackage} `{GoGitignore}.
Variable root : string.
Variable matcher : Files.GitIgnoreMatcher.
Variable incl excl : list string.

Lemma Match_no_rules rel :
  Files.ignores matcher = [] -> Files.Match matcher rel = false.
Proof. unfold Files.Match. by intros ->. Qed.

Lemma walks_compare d :
  forall path s s0, exists l l0,
    walkDir (visit root matcher incl excl) path d s = (s ++ l, false)
    /\ walkDir (CollectV0.visit root incl excl) path d s0 = (s0 ++ l0, false)
    /\ sublist l l0
    /\ (Files.ignores matcher = [] -> l = l0).
Proof.
  induction d as [name|name entries IH] using node_nested_ind; intros path s s0.
  - cbn [walkDir]. unfold visit, CollectV0.visit. cbn [IsDir].
    destruct (String.eqb _ "."); [exists [], []; by rewrite !app_nil_r|].
    destruct (Files.Match matcher _) eqn:Hm.
    + destruct (_ && _).
      * exists [], []. by rewrite !app_nil_r.
      * eexists [], [_]. rewrite !app_nil_r. repeat split; [apply sublist_nil_l|].
        intros Hi. by rewrite Match_no_rules in Hm.
    + destruct (_ && _).
      * exists [], []. by rewrite !app_nil_r.
      * by eexists [_], [_].
  - assert (Hloop : forall s s0, exists l l0,
      (fix loop (dirs : list node) (s : list string) {struct dirs} : list string :=
         match dirs with
         | [] => s
         | d1 :: dirs' =>
             let '(s2, leave) :=
               walkDir (visit root matcher incl excl)
                 (Filepath.Join path (nodeName d1)) d1 s in
             if leave then s2 else loop dirs' s2
         end) entries s = s ++ l
      /\ (fix loop (dirs : list node) (s : list string) {struct dirs} : list string :=
         match dirs with
         | [] => s
         | d1 :: dirs' =>
             let '(s2, leave) :=
               walkDir (CollectV0.visit root incl excl)
                 (Filepath.Join path (nodeName d1)) d1 s in
             if leave then s2 else loop dirs' s2
         end) entries s0 = s0 ++ l0
      /\ sublist l l0 /\ (Files.ignores matcher = [] -> l = l0)).
    { clear s s0. induction IH as [|e es He _ IHes]; intros s s0.
      - exists [], []. by rewrite !app_nil_r.
      - destruct (He (Filepath.Join path (nodeName e)) s s0)
          as (l1 & l01 & -> & -> & Hs1 & He1).
        destruct (IHes (s ++ l1) (s0 ++ l01)) as (l2 & l02 & -> & -> & Hs2 & He2).
        exists (l1 ++ l2), (l01 ++ l02). rewrite !app_assoc.
        repeat split; [by apply sublist_app|].
        intros Hi. by rewrite He1, He2. }
    cbn [walkDir].
    destruct (visit root matcher incl excl path (Dir name entries) s)
      as [s1 v] eqn:Hv.
    destruct (CollectV0.visit root incl excl path (Dir name entries) s0)
      as [s01 v0] eqn:Hv0.
    unfold visit in Hv. unfold CollectV0.visit in Hv0. cbn [IsDir] in Hv, Hv0.
    destruct (Hloop s s0) as (l & l0 & Hl & Hl0 & Hsub & Heq).
    destruct (String.eqb _ ".").
    { injection Hv as <- <-. injection Hv0 as <- <-.
      exists l, l0. by rewrite Hl, Hl0. }
    destruct (Files.Match matcher _) eqn:Hm.
    + injection Hv as <- <-. destruct (files_MatchAny excl _); injection Hv0 as <- <-.
      * exists [], []. by rewrite !app_nil_r.
      * exists [], l0. rewrite Hl0, !app_nil_r. repeat split; [apply sublist_nil_l|].
        intros Hi. by rewrite Match_no_rules in Hm.
    + destruct (files_MatchAny excl _); injection Hv as <- <-; injection Hv0 as <- <-.
      * exists [], []. by rewrite !app_nil_r.
      * exists l, l0. by rewrite Hl, Hl0.
Qed.

End Walks.

(** X20: the walk with the gitignore matcher finds a sublist of what the
    walk of the listing without the matcher finds, in the same order, and
    the same list when the matcher holds no rule set. *)
Theorem candidates_sublist_of_V0 `{FilesPackage} `{GoGitignore}
    (fs : filesystem) (tree : node) (cfg : Config.t) :
  sublist (candidates fs tree cfg) (CollectV0.candidates tree cfg)
  /\ (Files.ignores (Files.NewGitIgnoreMatcher fs (Config.Root cfg) tree) = [] ->
      candidates fs tree cfg = CollectV0.candidates tree cfg).
Proof.
  unfold candidates, CollectV0.candidates, WalkDir.
  destruct (walks_compare (Config.Root cfg)
              (Files.NewGitIgnoreMatcher fs (Config.Root cfg) tree)
              (includeGlobsOf cfg) (excludeGlobsOf cfg) tree (Config.Root cfg) [] [])
    as (l & l0 & -> & -> & Hsub & Heq).
  done.
Qed.

(** X21: on every field that the summary of the older listing has, the
    switch of a worker changes the summary exactly as the older switch
    does: the coverage cases come last and touch the coverage part only. *)
Theorem classify_extends_V0 `{FilesPackage} `{GoGitignore} `{EncodingJSON}
    (fs : filesystem) (cfg : Config.t) (p : string) (sum : Summary.t) :
  Summary.set_TestCoverage (Summary.TestCoverage sum) (classify fs cfg p sum)
  = CollectV0.classify fs cfg p sum.
Proof.
  unfold classify, CollectV0.classify, addReport. destruct sum.
  repeat case_match; reflexivity.
Qed.

(** ** The rendered tree *)

#[local] Instance byName_total : Total byName.
Proof. intros a b. apply notAfter_total. Qed.

#[local] Instance byName_trans : Transitive byName.
Proof. intros a b c. apply notAfter_trans. Qed.

Lemma sortChildren_sorted l : StronglySorted byName (sortChildren l).
Proof. apply StronglySorted_merge_sort; apply _. Qed.

Lemma sortChildren_perm l : sortChildren l ≡ₚ l.
Proof. apply merge_sort_Permutation. Qed.

Lemma children_all_perm (P : treeNode -> Prop) l1 l2 :
  l1 ≡ₚ l2 ->
  fold_right (fun c rest => P c /\ rest) True l1 ->
  fold_right (fun c rest => P c /\ rest) True l2.
Proof. induction 1; simpl; tauto. Qed.

Lemma children_depth_perm l1 l2 :
  l1 ≡ₚ l2 ->
  list_max (map (fun c => S (treeDepth c)) l1)
  = list_max (map (fun c => S (treeDepth c)) l2).
Proof. induction 1; simpl; lia. Qed.

Section Tree.
Context `{FilesPackage} `{GoGitignore}.
Variable root : string.
Variable exclude : list string.
Variable matcher : Files.GitIgnoreMatcher.

(** X22: at every level of the tree that buildTree renders, the children
    of a directory are in the order of their names. *)
Theorem treeWalk_siblings_sorted (dir : string) (n : node) (d : Z) :
  siblingsSorted (treeWalk root exclude matcher dir n d).
Proof.
  revert dir d.
  induction n as [name|name entries IH] using node_nested_ind; intros dir d.
  - simpl. destruct (d =? 0); simpl; split; try constructor; done.
  - cbn [treeWalk siblingsSorted]. destruct (d =? 0); [simpl; split; [constructor|done]|].
    split; [apply sortChildren_sorted|].
    eapply children_all_perm; [symmetry; apply sortChildren_perm|].
    induction IH as [|e es He Hes IHes]; [done|].
    repeat case_match; try apply IHes; simpl; split; try apply IHes.
    + apply He.
    + split; [constructor|done].
Qed.

(** X23: for a depth that is not negative, the tree that buildTree walks
    has at most that many levels below its root. *)
Theorem treeWalk_depth (dir : string) (n : node) (d : Z) :
  0 <= d ->
  (treeDepth (treeWalk root exclude matcher dir n d) <= Z.to_nat d)%nat.
Proof.
  revert dir d.
  induction n as [name|name entries IH] using node_nested_ind; intros dir d Hd.
  - simpl. destruct (d =? 0); simpl; lia.
  - cbn [treeWalk treeDepth]. destruct (Z.eqb_spec d 0); [simpl; lia|].
    rewrite (children_depth_perm _ _ (sortChildren_perm _)).
    induction IH as [|e es He Hes IHes]; [simpl; lia|].
    repeat case_match; try apply IHes; cbn [map list_max]; try (simpl in *; lia).
    specialize (He (Filepath.Join dir (nodeName e)) (d - 1)).
    apply Nat.max_lub; [|apply IHes]. lia.
Qed.

End Tree.

Lemma treeWalk_depth_witness :
  (treeDepth
     (@treeWalk Files_package Samples.noGitignore "/repo" Files.DefaultIgnore
        (@Files.NewGitIgnoreMatcher Samples.noGitignore Samples.serviceDisk "/repo"
           Samples.serviceTree)
        "/repo" Samples.serviceTree 2)
   <= Z.to_nat 2)%nat.
Proof.
  apply (@treeWalk_depth Files_package Samples.noGitignore "/repo" Files.DefaultIgnore
           _ "/repo" Samples.serviceTree 2).
  lia.
Defined.


(** ** uniqueSorted *)

Lemma collectUnique_elem inputs m x :
  x ∈ Render.collectUnique inputs m <->
  x ∈ m \/ (x <> "" /\ exists s, In s inputs /\ TrimSpace s = x).
Proof.
  revert m. induction inputs as [|s inputs IH]; intros m; simpl.
  - split; [auto|]. intros [?|(_ & s & [] & _)]. done.
  - destruct (isEmpty (TrimSpace s)) eqn:He.
    + rewrite IH. apply isEmpty_true in He. split.
      * intros [?|(Hx & s' & Hs' & Ht)]; [by left|]. right. eauto.
      * intros [?|(Hx & s' & [<-|Hs'] & Ht)]; [by left| |right; eauto].
        congruence.
    + rewrite IH, elem_of_union, elem_of_singleton. apply isEmpty_false in He. split.
      * intros [[->|?]|(Hx & s' & Hs' & Ht)]; [|by left|right; eauto].
        right. eauto.
      * intros [?|(Hx & s' & [<-|Hs'] & Ht)]; [left; by right| |right; eauto].
        left. left. done.
Qed.

(** X24: uniqueSorted returns a sorted list without repeats that holds
    exactly the trimmed inputs that are not empty; applied to its own
    result it changes nothing. *)
Theorem uniqueSorted_spec (inputs : list string) :
  StronglySorted notAfter (Render.uniqueSorted inputs)
  /\ NoDup (Render.uniqueSorted inputs)
  /\ (forall x, In x (Render.uniqueSorted inputs) <->
        x <> "" /\ exists s, In s inputs /\ TrimSpace s = x)
  /\ Render.uniqueSorted (Render.uniqueSorted inputs) = Render.uniqueSorted inputs.
Proof.
  assert (Hperm : forall l, Render.uniqueSorted l ≡ₚ elements (Render.collectUnique l ∅)).
  { intros l. apply sortStrings_perm. }
  assert (Hin : forall l x, In x (Render.uniqueSorted l) <->
            x <> "" /\ exists s, In s l /\ TrimSpace s = x).
  { intros l x. rewrite <- list_elem_of_In, Hperm, elem_of_elements, collectUnique_elem.
    split; [intros [?|?]; [set_solver|done]|by right]. }
  assert (Hnd : forall l, NoDup (Render.uniqueSorted l)).
  { intros l. rewrite Hperm. apply NoDup_elements. }
  split; [|split; [|split]].
  - apply sortStrings_sorted.
  - apply Hnd.
  - apply Hin.
  - apply (StronglySorted_unique notAfter); try apply sortStrings_sorted.
    apply NoDup_Permutation; try apply Hnd.
    intros x. rewrite !list_elem_of_In, Hin. split.
    + intros (Hx & s & Hs & Ht). apply Hin in Hs as (Hs & s' & Hs' & <-).
      rewrite TrimSpace_idem in Ht. subst x. apply Hin. eauto.
    + intros Hx. pose proof Hx as (Hne & s & Hs & Ht)%Hin.
      split; [done|]. exists x. split; [done|]. subst x. apply TrimSpace_idem.
Qed.

(** ** Runs of the whole scan *)

(** X25: on a machine with at least one CPU, whatever the configured number
    of threads, handling the candidates one after the other is a schedule
    the pool can follow to the end: Scan returns a summary. *)
Theorem Scan_sequential_schedule_returns
    `{FilesPackage} `{GoGitignore} `{EncodingJSON}
    (fs : filesystem) (tree : node) (now numCPU : Z) (cfg : Config.t) :
  0 < numCPU ->
  exists sum,
    Scan fs tree now numCPU (sequential (candidates fs tree cfg)) cfg = Some sum.
Proof.
  intros Hcpu. apply Scan_returns. unfold threadsOf.
  destruct (Z.leb_spec (Config.Threads cfg) 0); lia.
Qed.

Lemma Scan_sequential_schedule_returns_witness :
  exists sum,
    Samples.scan Samples.serviceDisk Samples.serviceTree
      (sequential Cases.serviceCandidates) Cases.serviceConfig = Some sum.
Proof.
  apply (@Scan_sequential_schedule_returns Files_package Samples.noGitignore
           Samples.noJSON Samples.serviceDisk Samples.serviceTree 1757872800 8
           Cases.serviceConfig).
  lia.
Defined.

(** X26: two runs of Scan that were not cancelled return the same six
    sorted string lists, and module, schema and decision lists that hold
    the same records, whatever the two schedules were. *)
Theorem uncancelled_runs_agree
    `{FilesPackage} `{GoGitignore} `{EncodingJSON}
    (fs : filesystem) (tree : node) (now numCPU : Z) (cfg : Config.t)
    (sched1 sched2 : list action) (sum1 sum2 : Summary.t) :
  noCancel sched1 = true -> noCancel sched2 = true ->
  Scan fs tree now numCPU sched1 cfg = Some sum1 ->
  Scan fs tree now numCPU sched2 cfg = Some sum2 ->
  Summary.MakeTargets sum1 = Summary.MakeTargets sum2
  /\ Summary.Dockerfiles sum1 = Summary.Dockerfiles sum2
  /\ Summary.SQLMigrations sum1 = Summary.SQLMigrations sum2
  /\ Summary.EnvExamples sum1 = Summary.EnvExamples sum2
  /\ Summary.Licenses sum1 = Summary.Licenses sum2
  /\ Summary.Readmes sum1 = Summary.Readmes sum2
  /\ Summary.GoModules sum1 ≡ₚ Summary.GoModules sum2
  /\ Summary.Proto sum1 ≡ₚ Summary.Proto sum2
  /\ Summary.Decisions sum1 ≡ₚ Summary.Decisions sum2.
Proof.
  intros Hn1 Hn2 Hs1 Hs2.
  destruct (Scan_collections fs tree now numCPU cfg sched1 sum1 Hn1 Hs1)
    as (-> & -> & -> & -> & -> & -> & [_ Hg1] & Hp1 & Hd1).
  destruct (Scan_collections fs tree now numCPU cfg sched2 sum2 Hn2 Hs2)
    as (-> & -> & -> & -> & -> & -> & [_ Hg2] & Hp2 & Hd2).
  rewrite Hg1, Hg2, Hp1, Hp2, Hd1, Hd2. done.
Qed.

Lemma uncancelled_runs_agree_witness :
  match Samples.scan Samples.serviceDisk Samples.serviceTree
          (sequential Cases.serviceCandidates) Cases.serviceConfig,
        Samples.scan Samples.serviceDisk Samples.serviceTree Cases.twoSlots
          Cases.serviceConfig with
  | Some sum1, Some sum2 =>
      Summary.MakeTargets sum1 = Summary.MakeTargets sum2
      /\ Summary.Dockerfiles sum1 = Summary.Dockerfiles sum2
      /\ Summary.SQLMigrations sum1 = Summary.SQLMigrations sum2
      /\ Summary.EnvExamples sum1 = Summary.EnvExamples sum2
      /\ Summary.Licenses sum1 = Summary.Licenses sum2
      /\ Summary.Readmes sum1 = Summary.Readmes sum2
      /\ Summary.GoModules sum1 ≡ₚ Summary.GoModules sum2
      /\ Summary.Proto sum1 ≡ₚ Summary.Proto sum2
      /\ Summary.Decisions sum1 ≡ₚ Summary.Decisions sum2
  | _, _ => False
  end.
Proof.
  destruct (Samples.scan Samples.serviceDisk Samples.serviceTree
              (sequential Cases.serviceCandidates) Cases.serviceConfig)
    as [sum1|] eqn:Hscan1;
    [|vm_compute in Hscan1; discriminate].
  destruct (Samples.scan Samples.serviceDisk Samples.serviceTree Cases.twoSlots
              Cases.serviceConfig) as [sum2|] eqn:Hscan2;
    [|vm_compute in Hscan2; discriminate].
  apply (@uncancelled_runs_agree Files_package Samples.noGitignore Samples.noJSON
           Samples.serviceDisk Samples.serviceTree 1757872800 8 Cases.serviceConfig
           (sequential Cases.serviceCandidates) Cases.twoSlots sum1 sum2).
  - vm_compute. reflexivity.
  - reflexivity.
  - exact Hscan1.
  - exact Hscan2.
Defined.

(** X27: a run that was cancelled loses records and never invents one: each
    of its nine collections holds, counted with repeats, only what the
    same collection of a run that was not cancelled holds. *)
Theorem cancelled_run_within_uncancelled
    `{FilesPackage} `{GoGitignore} `{EncodingJSON}
    (fs : filesystem) (tree : node) (now numCPU : Z) (cfg : Config.t)
    (sched sched' : list action) (sum sum' : Summary.t) :
  noCancel sched' = true ->
  Scan fs tree now numCPU sched cfg = Some sum ->
  Scan fs tree now numCPU sched' cfg = Some sum' ->
  Summary.GoModules sum ⊆+ Summary.GoModules sum'
  /\ Summary.Proto sum ⊆+ Summary.Proto sum'
  /\ Summary.MakeTargets sum ⊆+ Summary.MakeTargets sum'
  /\ Summary.Dockerfiles sum ⊆+ Summary.Dockerfiles sum'
  /\ Summary.SQLMigrations sum ⊆+ Summary.SQLMigrations sum'
  /\ Summary.Decisions sum ⊆+ Summary.Decisions sum'
  /\ Summary.EnvExamples sum ⊆+ Summary.EnvExamples sum'
  /\ Summary.Licenses sum ⊆+ Summary.Licenses sum'
  /\ Summary.Readmes sum ⊆+ Summary.Readmes sum'.
Proof.
  intros Hnc Hs Hs'.
  destruct (Scan_sub_collections fs tree now numCPU cfg sched sum Hs)
    as (Hg & Hp & Hm & Hd & Hq & Hc & He & Hl & Hr).
  destruct (Scan_collections fs tree now numCPU cfg sched' sum' Hnc Hs')
    as (-> & -> & -> & -> & -> & -> & [_ ->] & -> & ->).
  by rewrite !sortStrings_perm.
Qed.

Lemma cancelled_run_within_uncancelled_witness :
  match Samples.scan Samples.serviceDisk Samples.serviceTree Cases.cancelledEarly
          Cases.serviceConfig,
        Samples.scan Samples.serviceDisk Samples.serviceTree Cases.twoSlots
          Cases.serviceConfig with
  | Some sum, Some sum' =>
      Summary.GoModules sum ⊆+ Summary.GoModules sum'
      /\ Summary.Proto sum ⊆+ Summary.Proto sum'
      /\ Summary.MakeTargets sum ⊆+ Summary.MakeTargets sum'
      /\ Summary.Dockerfiles sum ⊆+ Summary.Dockerfiles sum'
      /\ Summary.SQLMigrations sum ⊆+ Summary.SQLMigrations sum'
      /\ Summary.Decisions sum ⊆+ Summary.Decisions sum'
      /\ Summary.EnvExamples sum ⊆+ Summary.EnvExamples sum'
      /\ Summary.Licenses sum ⊆+ Summary.Licenses sum'
      /\ Summary.Readmes sum ⊆+ Summary.Readmes sum'
  | _, _ => False
  end.
Proof.
  destruct (Samples.scan Samples.serviceDisk Samples.serviceTree Cases.cancelledEarly
              Cases.serviceConfig) as [sum|] eqn:Hscan;
    [|vm_compute in Hscan; discriminate].
  destruct (Samples.scan Samples.serviceDisk Samples.serviceTree Cases.twoSlots
              Cases.serviceConfig) as [sum'|] eqn:Hscan';
    [|vm_compute in Hscan'; discriminate].
  apply (@cancelled_run_within_uncancelled Files_package Samples.noGitignore
           Samples.noJSON Samples.serviceDisk Samples.serviceTree 1757872800 8
           Cases.serviceConfig Cases.cancelledEarly Cases.twoSlots sum sum').
  - reflexivity.
  - exact Hscan.
  - exact Hscan'.
Defined.

(** X28: under every schedule, a module, schema or decision record of the
    summary holds the path of a candidate of the walk joined to the
    root. *)
Theorem records_hold_candidate_paths
    `{FilesPackage} `{GoGitignore} `{EncodingJSON}
    (fs : filesystem) (tree : node) (now numCPU : Z) (cfg : Config.t)
    (sched : list action) (sum : Summary.t) :
  Scan fs tree now numCPU sched cfg = Some sum ->
  (forall gm, In gm (Summary.GoModules sum) ->
     exists p, In p (candidates fs tree cfg)
               /\ GoModule.Path gm = Filepath.Join (Config.Root cfg) p)
  /\ (forall pi, In pi (Summary.Proto sum) ->
        exists p, In p (candidates fs tree cfg)
                  /\ ProtoInfo.File pi = Filepath.Join (Config.Root cfg) p)
  /\ (forall dec, In dec (Summary.Decisions sum) ->
        exists p, In p (candidates fs tree cfg)
                  /\ Decision.File dec = Filepath.Join (Config.Root cfg) p).
Proof.
  intros Hscan.
  destruct (Scan_sub_collections fs tree now numCPU cfg sched sum Hscan)
    as (Hgm & Hpi & _ & _ & _ & Hdec & _).
  repeat split.
  - intros gm Hin. apply list_elem_of_In in Hin.
    apply (elem_of_submseteq _ _ _ Hin) in Hgm.
    apply list_elem_of_In, In_contributions in Hgm as (p & Hp & Hgm).
    exists p. split; [done|]. by eapply classify_GoModule_Path.
  - intros pi Hin. apply list_elem_of_In in Hin.
    apply (elem_of_submseteq _ _ _ Hin) in Hpi.
    apply list_elem_of_In, In_contributions in Hpi as (p & Hp & Hpi).
    exists p. split; [done|]. by eapply classify_Proto_File.
  - intros dec Hin. apply list_elem_of_In in Hin.
    apply (elem_of_submseteq _ _ _ Hin) in Hdec.
    apply list_elem_of_In, In_contributions in Hdec as (p & Hp & Hdec).
    exists p. split; [done|]. by eapply classify_Decision_File.
Qed.

Lemma records_hold_candidate_paths_witness :
  match Samples.scan Samples.serviceDisk Samples.serviceTree Cases.twoSlots
          Cases.serviceConfig with
  | Some sum =>
      (forall gm, In gm (Summary.GoModules sum) ->
         exists p, In p Cases.serviceCandidates
                   /\ GoModule.Path gm = Filepath.Join (Config.Root Cases.serviceConfig) p)
      /\ (forall pi, In pi (Summary.Proto sum) ->
            exists p, In p Cases.serviceCandidates
                      /\ ProtoInfo.File pi
                         = Filepath.Join (Config.Root Cases.serviceConfig) p)
      /\ (forall dec, In dec (Summary.Decisions sum) ->
            exists p, In p Cases.serviceCandidates
                      /\ Decision.File dec
                         = Filepath.Join (Config.Root Cases.serviceConfig) p)
  | None => False
  end.
Proof.
  destruct (Samples.scan Samples.serviceDisk Samples.serviceTree Cases.twoSlots
              Cases.serviceConfig) as [sum|] eqn:Hscan.
  - exact (@records_hold_candidate_paths Files_package Samples.noGitignore
             Samples.noJSON Samples.serviceDisk Samples.serviceTree 1757872800 8
             Cases.serviceConfig Cases.twoSlots sum Hscan).
  - vm_compute in Hscan. discriminate.
Defined.
